(** * Media manager, media-flow payload types and fake audio device

    A shallow embedding of
    - [src/mediamgr/mediamgr.c]: the audio router ([update_route]), the sound
      filter ([mediamgr_can_play_sound]) and the message handler
      ([mqueue_handler]) of the media-manager thread;
    - the [media_pt] enumeration of the media-flow header;
    - the record and playout loops of [src/audio_io/fake_audiodevice.cpp].

    The platform layer ([mm_platform.h]) is an interface implemented once per
    operating system; it is a type class here. Every call the media manager
    makes to it, every handler it fires, every [error] line and the [info]
    line of the router are appended to a log, so that "is invoked" and "is
    never invoked" are statements about that log. Queries of the platform
    ([mm_platform_get_route], [mm_platform_is_sound_playing]) and [debug]
    lines leave no trace in it. *)

From Stdlib Require Import ZArith List String Bool Lia.
Import ListNotations.
Open Scope Z_scope.

(* ===================================================================== *)
(** ** Data model *)
(* ===================================================================== *)

(** [enum mediamgr_auplay], declared in a header that is not among the
    sources at hand: the enumerators named by [MMroute2Str] and by
    [mediamgr_alloc], in the order of [MMroute2Str]. *)
Inductive mediamgr_auplay : Type :=
| MEDIAMGR_AUPLAY_EARPIECE
| MEDIAMGR_AUPLAY_SPEAKER
| MEDIAMGR_AUPLAY_HEADSET
| MEDIAMGR_AUPLAY_BT
| MEDIAMGR_AUPLAY_LINEOUT
| MEDIAMGR_AUPLAY_SPDIF
| MEDIAMGR_AUPLAY_UNKNOWN.

(** [enum mediamgr_state], declared in the same header: the enumerators the
    handler switches on. *)
Inductive mediamgr_state : Type :=
| MEDIAMGR_STATE_NORMAL
| MEDIAMGR_STATE_INCALL
| MEDIAMGR_STATE_INVIDEOCALL
| MEDIAMGR_STATE_HOLD
| MEDIAMGR_STATE_RESUME.

Inductive mm_route_update_event : Type :=
| MM_HEADSET_PLUGGED
| MM_HEADSET_UNPLUGGED
| MM_BT_DEVICE_CONNECTED
| MM_BT_DEVICE_DISCONNECTED
| MM_SPEAKER_ENABLE_REQUEST
| MM_SPEAKER_DISABLE_REQUEST
| MM_CALL_START
| MM_CALL_STOP
| MM_VIDEO_CALL_START
| MM_VIDEO_CALL_STOP.

Inductive mm_playback_mode : Type :=
| MM_PLAYBACK_NONE
| MM_PLAYBACK_MIXING
| MM_PLAYBACK_EXCLUSIVE.

Record mm_route_state_machine : Type := mkRouter {
  prefer_loudspeaker : bool;
  bt_device_is_connected : bool;
  wired_hs_is_connected : bool;
  cur_route : mediamgr_auplay;
  route_before_call : mediamgr_auplay
}.

(** Modelled from the spec: [struct sound] is declared in the platform
    header, which is not among the sources at hand. The sound entry of the
    specification has a name, an opaque object handle, the flags
    mixing-allowed, playable-in-call and call-media, a priority and an
    intensity; [mediamgr.c] reads the last five. *)
Record sound : Type := mkSound {
  snd_name : string;
  snd_object : Z;
  mixing : bool;
  incall : bool;
  intensity : Z;
  priority : Z;
  is_call_media : bool
}.

(** [struct dict]: string keys, visited in a fixed order by [dict_apply]. *)
Definition dict : Type := list (string * sound).

Fixpoint dict_lookup (d : dict) (key : string) : option sound :=
  match d with
  | [] => None
  | (k, v) :: d' => if String.eqb k key then Some v else dict_lookup d' key
  end.

Definition dict_values (d : dict) : list sound := map snd d.

(** The message of the queue: the marshal id together with the member of the
    union of [struct mm_message] that the handler reads for that id. *)
Inductive mm_message : Type :=
| MM_MARSHAL_EXIT
| MM_MARSHAL_PLAY_MEDIA (media_name : string)
| MM_MARSHAL_PAUSE_MEDIA (media_name : string)
| MM_MARSHAL_STOP_MEDIA (media_name : string)
| MM_MARSHAL_CALL_STATE (state : mediamgr_state)
| MM_MARSHAL_ENABLE_SPEAKER (val : bool)
| MM_MARSHAL_HEADSET_CONNECTED (val : bool)
| MM_MARSHAL_BT_DEVICE_CONNECTED (val : bool)
| MM_MARSHAL_REGISTER_MEDIA (media_name : string) (media_object : Z)
    (mixing incall : bool) (intensity priority : Z) (is_call_media : bool)
| MM_MARSHAL_DEREGISTER_MEDIA (media_name : string)
| MM_MARSHAL_SET_INTENSITY (intensity : Z).

(** The fields of [struct mediamgr] that the handler thread reads or writes.
    [route_changed_h] records whether a route-changed handler is registered;
    [mcat_changed_h] is never NULL ([mediamgr_alloc] refuses it). *)
Record mediamgr : Type := mkMM {
  sounds : dict;
  prev_call_state : mediamgr_state;
  call_state : mediamgr_state;
  router : mm_route_state_machine;
  intensity_thres : Z;
  route_changed_h : bool
}.

(** What the media manager does to its collaborators, in order. *)
Inductive mm_call : Type :=
| Enable_headset
| Enable_earpiece
| Enable_speaker
| Enable_bt_sco
| Enter_call
| Exit_call
| Stop_sound (s : sound)
| Play_sound (s : sound)
| Pause_sound (s : sound)
| Register_media (name : string)
| Unregister_media (name : string)
| Route_changed_h (route : mediamgr_auplay)
| Mcat_changed_h (st : mediamgr_state)
| Info_route (wanted cur : mediamgr_auplay)
| Error_unsupported_device
| Error_route_change (wanted cur : mediamgr_auplay) (ret : Z)
| Error_no_media (name : string)
| Re_cancel.

(** The platform interface of [mm_platform.h], over a platform state [P]. *)
Class mm_platform (P : Type) : Type := {
  mm_platform_get_route : P -> mediamgr_auplay;
  mm_platform_enable_headset : P -> Z * P;
  mm_platform_enable_earpiece : P -> Z * P;
  mm_platform_enable_speaker : P -> Z * P;
  mm_platform_enable_bt_sco : P -> Z * P;
  mm_platform_enter_call : P -> P;
  mm_platform_exit_call : P -> P;
  mm_platform_is_sound_playing : P -> sound -> bool;
  mm_platform_stop_sound : P -> sound -> P;
  mm_platform_play_sound : P -> sound -> P;
  mm_platform_pause_sound : P -> sound -> P;
  mm_platform_registerMedia :
    P -> dict -> string -> Z -> bool -> bool -> Z -> Z -> bool -> P * dict;
  mm_platform_unregisterMedia : P -> dict -> string -> P * dict
}.

Definition auplay_eqb (a b : mediamgr_auplay) : bool :=
  match a, b with
  | MEDIAMGR_AUPLAY_EARPIECE, MEDIAMGR_AUPLAY_EARPIECE
  | MEDIAMGR_AUPLAY_SPEAKER, MEDIAMGR_AUPLAY_SPEAKER
  | MEDIAMGR_AUPLAY_HEADSET, MEDIAMGR_AUPLAY_HEADSET
  | MEDIAMGR_AUPLAY_BT, MEDIAMGR_AUPLAY_BT
  | MEDIAMGR_AUPLAY_LINEOUT, MEDIAMGR_AUPLAY_LINEOUT
  | MEDIAMGR_AUPLAY_SPDIF, MEDIAMGR_AUPLAY_SPDIF
  | MEDIAMGR_AUPLAY_UNKNOWN, MEDIAMGR_AUPLAY_UNKNOWN => true
  | _, _ => false
  end.

(** [call_state == INCALL || call_state == INVIDEOCALL] *)
Definition in_call (st : mediamgr_state) : bool :=
  match st with
  | MEDIAMGR_STATE_INCALL | MEDIAMGR_STATE_INVIDEOCALL => true
  | _ => false
  end.

Definition set_router (mm : mediamgr) (r : mm_route_state_machine) : mediamgr :=
  mkMM (sounds mm) (prev_call_state mm) (call_state mm) r
       (intensity_thres mm) (route_changed_h mm).

Definition set_call_state (mm : mediamgr) (st : mediamgr_state) : mediamgr :=
  mkMM (sounds mm) (prev_call_state mm) st (router mm)
       (intensity_thres mm) (route_changed_h mm).

Definition set_prev_call_state (mm : mediamgr) (st : mediamgr_state) : mediamgr :=
  mkMM (sounds mm) st (call_state mm) (router mm)
       (intensity_thres mm) (route_changed_h mm).

Definition set_sounds (mm : mediamgr) (d : dict) : mediamgr :=
  mkMM d (prev_call_state mm) (call_state mm) (router mm)
       (intensity_thres mm) (route_changed_h mm).

Definition set_intensity_thres (mm : mediamgr) (i : Z) : mediamgr :=
  mkMM (sounds mm) (prev_call_state mm) (call_state mm) (router mm)
       i (route_changed_h mm).

(** [mediamgr_register_route_change_h] with a non-NULL handler. *)
Definition mediamgr_register_route_change_h (mm : mediamgr) : mediamgr :=
  mkMM (sounds mm) (prev_call_state mm) (call_state mm) (router mm)
       (intensity_thres mm) true.

Definition set_prefer_loudspeaker (r : mm_route_state_machine) (b : bool) :=
  mkRouter b (bt_device_is_connected r) (wired_hs_is_connected r)
           (cur_route r) (route_before_call r).

Definition set_bt_device_is_connected (r : mm_route_state_machine) (b : bool) :=
  mkRouter (prefer_loudspeaker r) b (wired_hs_is_connected r)
           (cur_route r) (route_before_call r).

Definition set_wired_hs_is_connected (r : mm_route_state_machine) (b : bool) :=
  mkRouter (prefer_loudspeaker r) (bt_device_is_connected r) b
           (cur_route r) (route_before_call r).

Definition set_route_before_call (r : mm_route_state_machine)
    (a : mediamgr_auplay) :=
  mkRouter (prefer_loudspeaker r) (bt_device_is_connected r)
           (wired_hs_is_connected r) (cur_route r) a.

(* ===================================================================== *)
(** ** The router: the first [switch] of [update_route] *)
(* ===================================================================== *)

(** The [switch (event)] of [update_route]: from the call state, the router
    and the route the platform reports, the new router and [wanted_route]. *)
Definition route_switch (cs : mediamgr_state) (r : mm_route_state_machine)
    (cur : mediamgr_auplay) (event : mm_route_update_event)
  : mm_route_state_machine * mediamgr_auplay :=
  match event with
  | MM_HEADSET_PLUGGED =>
      (set_prefer_loudspeaker (set_wired_hs_is_connected r true) false,
       MEDIAMGR_AUPLAY_HEADSET)
  | MM_HEADSET_UNPLUGGED =>
      let r1 := match cs with
                | MEDIAMGR_STATE_INVIDEOCALL => set_prefer_loudspeaker r true
                | _ => r
                end in
      let wanted :=
        if auplay_eqb cur MEDIAMGR_AUPLAY_SPEAKER then MEDIAMGR_AUPLAY_SPEAKER
        else if bt_device_is_connected r1 then MEDIAMGR_AUPLAY_BT
        else if prefer_loudspeaker r1 then MEDIAMGR_AUPLAY_SPEAKER
        else MEDIAMGR_AUPLAY_EARPIECE in
      (set_wired_hs_is_connected r1 false, wanted)
  | MM_BT_DEVICE_CONNECTED =>
      (set_bt_device_is_connected r true,
       if in_call cs then MEDIAMGR_AUPLAY_BT else cur)
  | MM_BT_DEVICE_DISCONNECTED =>
      (set_bt_device_is_connected r false,
       if wired_hs_is_connected r then MEDIAMGR_AUPLAY_HEADSET
       else if prefer_loudspeaker r then MEDIAMGR_AUPLAY_SPEAKER
       else MEDIAMGR_AUPLAY_EARPIECE)
  | MM_SPEAKER_ENABLE_REQUEST =>
      (set_prefer_loudspeaker r true, MEDIAMGR_AUPLAY_SPEAKER)
  | MM_SPEAKER_DISABLE_REQUEST =>
      (set_prefer_loudspeaker r false,
       if wired_hs_is_connected r then MEDIAMGR_AUPLAY_HEADSET
       else if bt_device_is_connected r then MEDIAMGR_AUPLAY_BT
       else MEDIAMGR_AUPLAY_EARPIECE)
  | MM_CALL_START =>
      let r1 := set_route_before_call r cur in
      (r1,
       if wired_hs_is_connected r1 then MEDIAMGR_AUPLAY_HEADSET
       else if bt_device_is_connected r1 then MEDIAMGR_AUPLAY_BT
       else if prefer_loudspeaker r1 then MEDIAMGR_AUPLAY_SPEAKER
       else MEDIAMGR_AUPLAY_EARPIECE)
  | MM_VIDEO_CALL_START =>
      let r1 := set_route_before_call r cur in
      let wanted :=
        if wired_hs_is_connected r1 then MEDIAMGR_AUPLAY_HEADSET
        else if bt_device_is_connected r1 then MEDIAMGR_AUPLAY_BT
        else MEDIAMGR_AUPLAY_SPEAKER in
      let r2 := set_prefer_loudspeaker r1 true in
      let r3 := set_prefer_loudspeaker r2 false in
      (r3, wanted)
  | MM_CALL_STOP | MM_VIDEO_CALL_STOP =>
      (set_prefer_loudspeaker r false, MEDIAMGR_AUPLAY_EARPIECE)
  end.

(* ===================================================================== *)
(** ** The handler thread: state, log and a small state monad *)
(* ===================================================================== *)

Section Mediamgr.

Context {P : Type} `{PF : mm_platform P}.

Record world : Type := mkWorld {
  w_mm : mediamgr;
  w_plat : P;
  w_log : list mm_call
}.

Definition MM (A : Type) : Type := world -> A * world.

Definition pure {A} (a : A) : MM A := fun w => (a, w).

Definition bind {A B} (m : MM A) (k : A -> MM B) : MM B :=
  fun w => let (a, w1) := m w in k a w1.

Definition get_mm : MM mediamgr := fun w => (w_mm w, w).

Definition put_mm (mm : mediamgr) : MM unit :=
  fun w => (tt, mkWorld mm (w_plat w) (w_log w)).

(** A line of the log that touches no state: a handler or a log call. *)
Definition emit (c : mm_call) : MM unit :=
  fun w => (tt, mkWorld (w_mm w) (w_plat w) (w_log w ++ [c])).

(** A platform query. *)
Definition ask {A} (q : P -> A) : MM A := fun w => (q (w_plat w), w).

(** A platform call with a result. *)
Definition call {A} (c : mm_call) (f : P -> A * P) : MM A :=
  fun w => let (a, p) := f (w_plat w) in
           (a, mkWorld (w_mm w) p (w_log w ++ [c])).

(** A platform call without a result. *)
Definition call_ (c : mm_call) (f : P -> P) : MM unit :=
  call c (fun p => (tt, f p)).

Definition exec {A} (m : MM A) (w : world) : world := snd (m w).

(** [m] only appends to the log, and every line it appends satisfies [Q]. *)
Definition appends {A} (Q : mm_call -> Prop) (m : MM A) : Prop :=
  forall w, exists added,
    w_log (snd (m w)) = w_log w ++ added /\ Forall Q added.

(** [m] does not write the media manager structure. *)
Definition keeps_mm {A} (m : MM A) : Prop :=
  forall w, w_mm (snd (m w)) = w_mm w.

End Mediamgr.

Arguments world P : clear implicits.
Arguments MM P A : clear implicits.
Arguments appends {P A} Q m.
Arguments keeps_mm {P A} m.

Declare Scope mm_scope.
Delimit Scope mm_scope with mm.
Notation "x <- m ;; k" := (bind m (fun x => k))
  (at level 61, m at next level, right associativity) : mm_scope.
Notation "m ;; k" := (bind m (fun _ => k))
  (at level 61, right associativity) : mm_scope.
Open Scope mm_scope.

Section Router.

Context {P : Type} `{PF : mm_platform P}.

(** The [switch (wanted_route)] of [update_route]: the platform enable of the
    wanted route; an unsupported device leaves [ret] at 0. *)
Definition enable_route (wanted : mediamgr_auplay) : MM P Z :=
  match wanted with
  | MEDIAMGR_AUPLAY_HEADSET => call Enable_headset mm_platform_enable_headset
  | MEDIAMGR_AUPLAY_EARPIECE => call Enable_earpiece mm_platform_enable_earpiece
  | MEDIAMGR_AUPLAY_SPEAKER => call Enable_speaker mm_platform_enable_speaker
  | MEDIAMGR_AUPLAY_BT => call Enable_bt_sco mm_platform_enable_bt_sco
  | _ => emit Error_unsupported_device ;; pure 0
  end.

Definition update_route (event : mm_route_update_event) : MM P unit :=
  cur <- ask mm_platform_get_route ;;
  mm <- get_mm ;;
  let (r', wanted_route) := route_switch (call_state mm) (router mm) cur event in
  put_mm (set_router mm r') ;;
  emit (Info_route wanted_route cur) ;;
  ret <- (if auplay_eqb wanted_route cur then pure 0
          else enable_route wanted_route) ;;
  (* Check that we got what we asked for *)
  cur <- ask mm_platform_get_route ;;
  cur <- (if negb (auplay_eqb wanted_route cur) && (0 <=? ret)
          then if in_call (call_state mm)
               then emit (Error_route_change wanted_route cur ret) ;; pure cur
               else pure wanted_route
          else pure cur) ;;
  if route_changed_h mm then emit (Route_changed_h cur) else pure tt.

(** What the platform answers to the enable of [wanted], and the line the
    enable leaves in the log. *)
Definition enable_result (wanted : mediamgr_auplay) (p : P) : Z * P :=
  match wanted with
  | MEDIAMGR_AUPLAY_HEADSET => mm_platform_enable_headset p
  | MEDIAMGR_AUPLAY_EARPIECE => mm_platform_enable_earpiece p
  | MEDIAMGR_AUPLAY_SPEAKER => mm_platform_enable_speaker p
  | MEDIAMGR_AUPLAY_BT => mm_platform_enable_bt_sco p
  | _ => (0, p)
  end.

Definition enable_line (wanted : mediamgr_auplay) : mm_call :=
  match wanted with
  | MEDIAMGR_AUPLAY_HEADSET => Enable_headset
  | MEDIAMGR_AUPLAY_EARPIECE => Enable_earpiece
  | MEDIAMGR_AUPLAY_SPEAKER => Enable_speaker
  | MEDIAMGR_AUPLAY_BT => Enable_bt_sco
  | _ => Error_unsupported_device
  end.

(** The wanted route [update_route] computes for [event] in [w]. *)
Definition wanted_route (event : mm_route_update_event) (w : world P)
  : mediamgr_auplay :=
  snd (route_switch (call_state (w_mm w)) (router (w_mm w))
                    (mm_platform_get_route (w_plat w)) event).

(** The answer of the platform to the request of [update_route] (0 when the
    wanted route is the current one and nothing is requested) and the
    platform after it. *)
Definition route_request (event : mm_route_update_event) (w : world P)
  : Z * P :=
  if auplay_eqb (wanted_route event w) (mm_platform_get_route (w_plat w))
  then (0, w_plat w)
  else enable_result (wanted_route event w) (w_plat w).

End Router.

(* ===================================================================== *)
(** ** Sounds and the message handler *)
(* ===================================================================== *)

Section Handler.

Context {P : Type} `{PF : mm_platform P}.

(** [dict_apply]: the handler is called on every entry, in order, until it
    returns true; [arg] is the cell its last argument points to. *)
Fixpoint dict_apply {A : Type} (d : dict)
    (h : string -> sound -> A -> MM P (bool * A)) (arg : A) : MM P A :=
  match d with
  | [] => pure arg
  | (key, val) :: d' =>
      r <- h key val arg ;;
      if fst r then pure (snd r) else dict_apply d' h (snd r)
  end.

Definition stop_playing_during_call (key : string) (snd : sound) (arg : unit)
  : MM P (bool * unit) :=
  (if negb (incall snd)
   then playing <- ask (fun p => mm_platform_is_sound_playing p snd) ;;
        if playing
        then call_ (Stop_sound snd) (fun p => mm_platform_stop_sound p snd)
        else pure tt
   else pure tt) ;;
  pure (false, arg).

Definition mediamgr_enter_call (d : dict) : MM P unit :=
  dict_apply d stop_playing_during_call tt ;;
  call_ Enter_call mm_platform_enter_call.

Definition mediamgr_exit_call (d : dict) : MM P unit :=
  call_ Exit_call mm_platform_exit_call.

Definition check_play_mode (key : string) (snd : sound)
    (mode : mm_playback_mode) : MM P (bool * mm_playback_mode) :=
  playing <- ask (fun p => mm_platform_is_sound_playing p snd) ;;
  if playing
  then if mixing snd
       then pure (false, MM_PLAYBACK_MIXING)
       else pure (true, MM_PLAYBACK_EXCLUSIVE)
  else pure (false, mode).

Definition stop_play (key : string) (snd : sound) (arg : unit)
  : MM P (bool * unit) :=
  playing <- ask (fun p => mm_platform_is_sound_playing p snd) ;;
  (if playing
   then call_ (Stop_sound snd) (fun p => mm_platform_stop_sound p snd)
   else pure tt) ;;
  pure (false, arg).

Definition mediamgr_can_play_sound (d : dict) (to_play : sound) : MM P bool :=
  mm <- get_mm ;;
  (* Check intensity setting *)
  if intensity_thres mm <? intensity to_play then pure false
  else
    (* Some sounds are not allowed in-call *)
    let incall_now := in_call (call_state mm) in
    if negb (incall to_play) && incall_now then pure false
    else if 0 <? priority to_play then pure true
    else
      mode <- dict_apply d check_play_mode MM_PLAYBACK_NONE ;;
      (* Only allow 1 exclusive or many mixings *)
      match mode with
      | MM_PLAYBACK_NONE => pure true
      | MM_PLAYBACK_EXCLUSIVE => pure false
      | MM_PLAYBACK_MIXING => pure (mixing to_play)
      end.

(** The [MM_MARSHAL_CALL_STATE] switch: the route event when [has_changed] is
    set, and [fire_callback]. *)
Definition call_state_switch (st : mediamgr_state)
  : MM P (option mm_route_update_event * bool) :=
  mm <- get_mm ;;
  match st with
  | MEDIAMGR_STATE_INCALL =>
      put_mm (set_call_state mm MEDIAMGR_STATE_INCALL) ;;
      mediamgr_enter_call (sounds mm) ;;
      pure (Some MM_CALL_START, true)
  | MEDIAMGR_STATE_INVIDEOCALL =>
      put_mm (set_call_state mm MEDIAMGR_STATE_INVIDEOCALL) ;;
      mediamgr_enter_call (sounds mm) ;;
      pure (Some MM_VIDEO_CALL_START, false)
  | MEDIAMGR_STATE_NORMAL =>
      put_mm (set_call_state mm MEDIAMGR_STATE_NORMAL) ;;
      mediamgr_exit_call (sounds mm) ;;
      pure (Some MM_CALL_STOP, true)
  | MEDIAMGR_STATE_HOLD =>
      if in_call (call_state mm)
      then put_mm (set_call_state (set_prev_call_state mm (call_state mm))
                                  MEDIAMGR_STATE_HOLD) ;;
           pure (Some MM_CALL_STOP, true)
      else pure (None, false)
  | MEDIAMGR_STATE_RESUME =>
      match call_state mm with
      | MEDIAMGR_STATE_HOLD =>
          put_mm (set_call_state mm (prev_call_state mm)) ;;
          mediamgr_enter_call (sounds mm) ;;
          pure (Some MM_CALL_START, true)
      | _ => pure (None, false)
      end
  end.

Definition mqueue_handler (msg : mm_message) : MM P unit :=
  match msg with
  | MM_MARSHAL_EXIT => emit Re_cancel
  | MM_MARSHAL_PLAY_MEDIA mname =>
      mm <- get_mm ;;
      match dict_lookup (sounds mm) mname with
      | None => emit (Error_no_media mname)
      | Some curr_sound =>
          ok <- mediamgr_can_play_sound (sounds mm) curr_sound ;;
          if ok then
            (if 0 <? priority curr_sound
             then dict_apply (sounds mm) stop_play tt
             else pure tt) ;;
            (if is_call_media curr_sound && negb (in_call (call_state mm))
             then call_ Enter_call mm_platform_enter_call ;;
                  update_route MM_CALL_START
             else pure tt) ;;
            call_ (Play_sound curr_sound)
                  (fun p => mm_platform_play_sound p curr_sound)
          else pure tt
      end
  | MM_MARSHAL_PAUSE_MEDIA mname =>
      mm <- get_mm ;;
      match dict_lookup (sounds mm) mname with
      | None => emit (Error_no_media mname)
      | Some curr_sound =>
          call_ (Pause_sound curr_sound)
                (fun p => mm_platform_pause_sound p curr_sound)
      end
  | MM_MARSHAL_STOP_MEDIA mname =>
      mm <- get_mm ;;
      match dict_lookup (sounds mm) mname with
      | None => emit (Error_no_media mname)
      | Some curr_sound =>
          call_ (Stop_sound curr_sound)
                (fun p => mm_platform_stop_sound p curr_sound) ;;
          if is_call_media curr_sound && negb (in_call (call_state mm))
          then call_ Exit_call mm_platform_exit_call ;;
               update_route MM_CALL_STOP
          else pure tt
      end
  | MM_MARSHAL_CALL_STATE st =>
      r <- call_state_switch st ;;
      match fst r with
      | Some event => update_route event
      | None => pure tt
      end ;;
      if snd r then emit (Mcat_changed_h st) else pure tt
  | MM_MARSHAL_ENABLE_SPEAKER enable =>
      update_route (if enable then MM_SPEAKER_ENABLE_REQUEST
                    else MM_SPEAKER_DISABLE_REQUEST)
  | MM_MARSHAL_HEADSET_CONNECTED connected =>
      update_route (if connected then MM_HEADSET_PLUGGED
                    else MM_HEADSET_UNPLUGGED)
  | MM_MARSHAL_BT_DEVICE_CONNECTED connected =>
      update_route (if connected then MM_BT_DEVICE_CONNECTED
                    else MM_BT_DEVICE_DISCONNECTED)
  | MM_MARSHAL_REGISTER_MEDIA mname mobject mix inc intens prio icm =>
      fun w =>
        let (p, d) := mm_platform_registerMedia (w_plat w) (sounds (w_mm w))
                        mname mobject mix inc intens prio icm in
        (tt, mkWorld (set_sounds (w_mm w) d) p
                     (w_log w ++ [Register_media mname]))
  | MM_MARSHAL_DEREGISTER_MEDIA mname =>
      fun w =>
        let (p, d) := mm_platform_unregisterMedia (w_plat w)
                        (sounds (w_mm w)) mname in
        (tt, mkWorld (set_sounds (w_mm w) d) p
                     (w_log w ++ [Unregister_media mname]))
  | MM_MARSHAL_SET_INTENSITY i =>
      mm <- get_mm ;;
      put_mm (set_intensity_thres mm i)
  end.

(** The handler thread: the messages of the queue, handled in order. *)
Fixpoint run (msgs : list mm_message) (w : world P) : world P :=
  match msgs with
  | [] => w
  | m :: msgs' => run msgs' (exec (mqueue_handler m) w)
  end.

(** [mediamgr_alloc]: the zeroed structure (the first enumerator of each
    enumeration, false, the empty dictionary), then the current route
    unknown, no route-changed handler and the threshold
    [MM_INTENSITY_THRES_ALL], a constant of the platform header. *)
Definition mediamgr_alloc (MM_INTENSITY_THRES_ALL : Z) : mediamgr :=
  mkMM [] MEDIAMGR_STATE_NORMAL MEDIAMGR_STATE_NORMAL
       (mkRouter false false false MEDIAMGR_AUPLAY_UNKNOWN
                 MEDIAMGR_AUPLAY_EARPIECE)
       MM_INTENSITY_THRES_ALL false.

Definition init_world (thres_all : Z) (p : P) : world P :=
  mkWorld (mediamgr_alloc thres_all) p [].

(** The route event and [fire_callback] of the [MM_MARSHAL_CALL_STATE]
    switch, from the state of the message and the current call state. *)
Definition call_state_outcome (st cs : mediamgr_state)
  : option mm_route_update_event * bool :=
  match st with
  | MEDIAMGR_STATE_INCALL => (Some MM_CALL_START, true)
  | MEDIAMGR_STATE_INVIDEOCALL => (Some MM_VIDEO_CALL_START, false)
  | MEDIAMGR_STATE_NORMAL => (Some MM_CALL_STOP, true)
  | MEDIAMGR_STATE_HOLD =>
      if in_call cs then (Some MM_CALL_STOP, true) else (None, false)
  | MEDIAMGR_STATE_RESUME =>
      match cs with
      | MEDIAMGR_STATE_HOLD => (Some MM_CALL_START, true)
      | _ => (None, false)
      end
  end.

End Handler.

(** The wanted route of the last [update_route] of a log: the first
    argument of its last [info] line. *)
Fixpoint last_wanted (log : list mm_call) : option mediamgr_auplay :=
  match log with
  | [] => None
  | c :: log' =>
      match last_wanted log' with
      | Some r => Some r
      | None => match c with
                | Info_route wanted _ => Some wanted
                | _ => None
                end
      end
  end.

Definition is_enable (c : mm_call) : bool :=
  match c with
  | Enable_headset | Enable_earpiece | Enable_speaker | Enable_bt_sco => true
  | _ => false
  end.

Definition is_error_route (c : mm_call) : bool :=
  match c with
  | Error_route_change _ _ _ => true
  | _ => false
  end.

Definition is_mcat (c : mm_call) : bool :=
  match c with
  | Mcat_changed_h _ => true
  | _ => false
  end.

(** The lines that follow the [info] line of an [update_route]. *)
Definition is_route_tail (c : mm_call) : bool :=
  match c with
  | Enable_headset | Enable_earpiece | Enable_speaker | Enable_bt_sco
  | Error_unsupported_device | Error_route_change _ _ _
  | Route_changed_h _ => true
  | _ => false
  end.

(* ===================================================================== *)
(** ** A simulated platform *)
(* ===================================================================== *)

Definition sound_eqb (a b : sound) : bool :=
  String.eqb (snd_name a) (snd_name b) && (snd_object a =? snd_object b)
  && Bool.eqb (mixing a) (mixing b) && Bool.eqb (incall a) (incall b)
  && (intensity a =? intensity b) && (priority a =? priority b)
  && Bool.eqb (is_call_media a) (is_call_media b).

(** A platform for tests: it follows a route request only when
    [sim_obeys], answers every enable with [sim_ret], and keeps the list of
    the sounds that are playing. *)
Record sim_platform : Type := mkSim {
  sim_route : mediamgr_auplay;
  sim_obeys : bool;
  sim_ret : Z;
  sim_playing : list sound;
  sim_incall : bool
}.

Definition sim_enable (a : mediamgr_auplay) (p : sim_platform)
  : Z * sim_platform :=
  (sim_ret p,
   if sim_obeys p
   then mkSim a (sim_obeys p) (sim_ret p) (sim_playing p) (sim_incall p)
   else p).

Definition sim_set_incall (b : bool) (p : sim_platform) : sim_platform :=
  mkSim (sim_route p) (sim_obeys p) (sim_ret p) (sim_playing p) b.

Definition sim_set_playing (l : list sound) (p : sim_platform) : sim_platform :=
  mkSim (sim_route p) (sim_obeys p) (sim_ret p) l (sim_incall p).

Definition sim_is_playing (p : sim_platform) (s : sound) : bool :=
  existsb (sound_eqb s) (sim_playing p).

Definition sim_stop (p : sim_platform) (s : sound) : sim_platform :=
  sim_set_playing (filter (fun x => negb (sound_eqb s x)) (sim_playing p)) p.

Definition sim_play (p : sim_platform) (s : sound) : sim_platform :=
  sim_set_playing (s :: sim_playing p) p.

Definition sim_register (p : sim_platform) (d : dict) (name : string)
    (obj : Z) (mix inc : bool) (intens prio : Z) (icm : bool)
  : sim_platform * dict :=
  match dict_lookup d name with
  | Some _ => (p, d)
  | None => (p, d ++ [(name, mkSound name obj mix inc intens prio icm)])
  end.

Definition sim_unregister (p : sim_platform) (d : dict) (name : string)
  : sim_platform * dict :=
  (p, filter (fun e => negb (String.eqb (fst e) name)) d).

#[export] Instance sim_mm_platform : mm_platform sim_platform := {
  mm_platform_get_route := sim_route;
  mm_platform_enable_headset := sim_enable MEDIAMGR_AUPLAY_HEADSET;
  mm_platform_enable_earpiece := sim_enable MEDIAMGR_AUPLAY_EARPIECE;
  mm_platform_enable_speaker := sim_enable MEDIAMGR_AUPLAY_SPEAKER;
  mm_platform_enable_bt_sco := sim_enable MEDIAMGR_AUPLAY_BT;
  mm_platform_enter_call := sim_set_incall true;
  mm_platform_exit_call := sim_set_incall false;
  mm_platform_is_sound_playing := sim_is_playing;
  mm_platform_stop_sound := sim_stop;
  mm_platform_play_sound := sim_play;
  mm_platform_pause_sound := sim_stop;
  mm_platform_registerMedia := sim_register;
  mm_platform_unregisterMedia := sim_unregister
}.

(** A platform that follows every request, on the earpiece, silent. *)
Definition sim_ideal : sim_platform :=
  mkSim MEDIAMGR_AUPLAY_EARPIECE true 0 [] false.

(** A platform whose route requests fail with -1 and change nothing. *)
Definition sim_failing : sim_platform :=
  mkSim MEDIAMGR_AUPLAY_EARPIECE false (-1) [] false.

(** A platform that accepts route requests and does not follow them. *)
Definition sim_stubborn : sim_platform :=
  mkSim MEDIAMGR_AUPLAY_EARPIECE false 0 [] false.

Definition ringtone : sound :=
  mkSound "ringtone" 1 false true 0 1 true.

Definition notif : sound :=
  mkSound "notif" 2 true false 0 0 false.

Definition ping : sound :=
  mkSound "ping" 3 true true 50 0 false.

(** A media manager on the simulated platform [p], with a route-changed
    handler registered and the threshold of "all sounds" at 100. *)
Definition sim_world (p : sim_platform) : world sim_platform :=
  mkWorld (mediamgr_register_route_change_h (mediamgr_alloc 100)) p [].

(** The registration messages of the three sounds above. *)
Definition register_sounds : list mm_message :=
  [MM_MARSHAL_REGISTER_MEDIA "ringtone" 1 false true 0 1 true;
   MM_MARSHAL_REGISTER_MEDIA "notif" 2 true false 0 0 false;
   MM_MARSHAL_REGISTER_MEDIA "ping" 3 true true 50 0 false].

(* ===================================================================== *)
(** ** Media flow: payload types *)
(* ===================================================================== *)

Module Mediaflow.

(** [enum media_pt] *)
Definition MEDIA_PT_DYNAMIC_START : Z := 96.
Definition MEDIA_PT_DYNAMIC_END : Z := 127.
Definition MEDIA_PT_AUDIO_START : Z := 96.
Definition MEDIA_PT_AUDIO_END : Z := 99.
Definition MEDIA_PT_VIDEO_START : Z := 100.
Definition MEDIA_PT_VIDEO_END : Z := 110.

Definition codec : Type := string.

(** One [a=rtpmap] format of a media section. *)
Record sdp_format : Type := mkFormat {
  fmt_pt : Z;
  fmt_codec : codec
}.

(** Modelled from the spec: the offer generation of the media flow (its
    source file is not part of the sources at hand, only its header is).
    "Payload types ... assigned per the codec list (audio uses 96-99, video
    100-110)": the codecs of the list take the payload types of the range of
    their media in order, and a codec for which the range has no payload
    type left is not offered. *)
Fixpoint assign_pts (pt pt_end : Z) (codecl : list codec) : list sdp_format :=
  match codecl with
  | [] => []
  | c :: codecl' =>
      if pt <=? pt_end
      then mkFormat pt c :: assign_pts (pt + 1) pt_end codecl'
      else []
  end.

Record sdp : Type := mkSdp {
  sdp_audio : list sdp_format;
  sdp_video : list sdp_format
}.

(** Modelled from the spec: [mediaflow_generate_offer], restricted to the
    formats of its audio section and of its video section. *)
Definition generate_offer (aucodecl vidcodecl : list codec) : sdp :=
  mkSdp (assign_pts MEDIA_PT_AUDIO_START MEDIA_PT_AUDIO_END aucodecl)
        (assign_pts MEDIA_PT_VIDEO_START MEDIA_PT_VIDEO_END vidcodecl).

(** Modelled from the spec: "echo the selected payload type per media"; the
    answerer selects the first offered format whose codec it supports. *)
Fixpoint select_format (offered : list sdp_format) (supported : list codec)
  : option sdp_format :=
  match offered with
  | [] => None
  | f :: offered' =>
      if existsb (String.eqb (fmt_codec f)) supported then Some f
      else select_format offered' supported
  end.

(** Modelled from the spec: the payload types of a completed offer/answer
    exchange, for audio and for video (none when no offered codec of the
    media is supported by the answerer). *)
Definition negotiated_pt (offer : sdp) (aucodecl vidcodecl : list codec)
  : option Z * option Z :=
  (option_map fmt_pt (select_format (sdp_audio offer) aucodecl),
   option_map fmt_pt (select_format (sdp_video offer) vidcodecl)).

End Mediaflow.

(* ===================================================================== *)
(** ** The fake audio device *)
(* ===================================================================== *)

Module FakeAudio.

(** [struct timeval] and [struct timespec]. *)
Record timeval : Type := mkTimeval {
  tv_sec : Z;
  tv_usec : Z
}.

Definition to_usec (t : timeval) : Z := tv_sec t * 1000000 + tv_usec t.

Definition normalized (t : timeval) : Prop := 0 <= tv_usec t < 1000000.

(** [timeradd] and [timersub] of <sys/time.h>. *)
Definition timeradd (a b : timeval) : timeval :=
  let sec := tv_sec a + tv_sec b in
  let usec := tv_usec a + tv_usec b in
  if 1000000 <=? usec then mkTimeval (sec + 1) (usec - 1000000)
  else mkTimeval sec usec.

Definition timersub (a b : timeval) : timeval :=
  let sec := tv_sec a - tv_sec b in
  let usec := tv_usec a - tv_usec b in
  if usec <? 0 then mkTimeval (sec - 1) (usec + 1000000)
  else mkTimeval sec usec.

(** The members of the device that the two loops read. *)
Record fake_audiodevice : Type := mkDevice {
  audioCallback_ : bool;   (* a transport is registered *)
  realtime_ : bool
}.

Inductive io_call : Type :=
| RecordedDataIsAvailable
| NeedMorePlayData
| Warning_too_slow
| Nanosleep (t_sec t_nsec : Z).

Definition is_nanosleep (c : io_call) : bool :=
  match c with
  | Nanosleep _ _ => true
  | _ => false
  end.

Definition is_transport (c : io_call) : bool :=
  match c with
  | RecordedDataIsAvailable | NeedMorePlayData => true
  | _ => false
  end.

Section Loops.

(** [FRAME_LEN_MS] is a constant of the header of the device. *)
Variable FRAME_LEN_MS : Z.

Definition delta : timeval := mkTimeval 0 (FRAME_LEN_MS * 1000).

(** The body of the [while (1)] of [record_thread] and of [playout_thread],
    after the test of the running flag; the two bodies differ by the
    transport method they call, [transport]. [now] is what [gettimeofday]
    reads after that call. *)
Definition io_iteration (transport : io_call) (dev : fake_audiodevice)
    (now next_io_time : timeval) : timeval * list io_call :=
  let next_io_time := timeradd next_io_time delta in
  let c1 := if audioCallback_ dev then [transport] else [] in
  let sleep_time := timersub next_io_time now in
  let late := tv_sec sleep_time <? 0 in
  let c2 := if late then [Warning_too_slow] else [] in
  let sleep_time :=
    if late then mkTimeval (tv_sec sleep_time) 0 else sleep_time in
  let t_sec := 0 in
  let t_nsec := tv_usec sleep_time * 1000 in
  let c3 := if realtime_ dev then [Nanosleep t_sec t_nsec] else [] in
  (next_io_time, c1 ++ c2 ++ c3).

(** The loop, over what each turn observes: the running flag
    ([is_recording_] or [is_playing_]) and the clock. The loop leaves at the
    first turn that reads the flag false. *)
Fixpoint io_loop (transport : io_call) (dev : fake_audiodevice)
    (obs : list (bool * timeval)) (next_io_time : timeval)
  : timeval * list io_call :=
  match obs with
  | [] => (next_io_time, [])
  | (running, now) :: obs' =>
      if running
      then let (next, calls) := io_iteration transport dev now next_io_time in
           let (final, calls') := io_loop transport dev obs' next in
           (final, calls ++ calls')
      else (next_io_time, [])
  end.

(** [start] is what the [gettimeofday] before the loop reads. *)
Definition record_thread (dev : fake_audiodevice) (start : timeval)
    (obs : list (bool * timeval)) : timeval * list io_call :=
  io_loop RecordedDataIsAvailable dev obs start.

Definition playout_thread (dev : fake_audiodevice) (start : timeval)
    (obs : list (bool * timeval)) : timeval * list io_call :=
  io_loop NeedMorePlayData dev obs start.

(** The number of turns the loop makes on [obs]. *)
Fixpoint turns (obs : list (bool * timeval)) : Z :=
  match obs with
  | (true, _) :: obs' => 1 + turns obs'
  | _ => 0
  end.

End Loops.

End FakeAudio.

(* ===================================================================== *)
(** ** Route names and the posting interface *)
(* ===================================================================== *)

Definition MMroute2Str (route : mediamgr_auplay) : string :=
  match route with
  | MEDIAMGR_AUPLAY_EARPIECE => "Earpiece"
  | MEDIAMGR_AUPLAY_SPEAKER => "Speakerphone"
  | MEDIAMGR_AUPLAY_HEADSET => "Headset"
  | MEDIAMGR_AUPLAY_BT => "Bluetooth"
  | MEDIAMGR_AUPLAY_LINEOUT => "LINE"
  | MEDIAMGR_AUPLAY_SPDIF => "SPDIF"
  | _ => "Unknown"
  end.

(** [strncpy (dst, src, n)] into a zeroed buffer of more than [n] bytes, read
    back as a C string: the first [n] characters of [src]. *)
Fixpoint strncpy (n : nat) (src : string) : string :=
  match n, src with
  | S n', String c src' => String c (strncpy n' src')
  | _, _ => EmptyString
  end.

(** [sizeof (media_name) - 1] *)
Definition MEDIA_NAME_MAX : nat := 127.

(** What a posting call meets: whether [mem_zalloc] returns an element, and
    what [mqueue_push] returns. *)
Record post_env : Type := mkPostEnv {
  alloc_ok : bool;
  push_err : Z
}.

(** The result of a posting call: the message handed to [mqueue_push], when
    one is, and whether the call logged its error line. *)
Definition posted : Type := (option mm_message * bool)%type.

Definition mediamgr_post_media_command (env : post_env)
    (cmd : string -> mm_message) (media_name : string)
  : Z * option mm_message :=
  if alloc_ok env
  then (push_err env, Some (cmd (strncpy MEDIA_NAME_MAX media_name)))
  else (-1, None).

Definition mediamgr_play_media (env : post_env) (media_name : string)
  : posted :=
  let (r, m) := mediamgr_post_media_command env MM_MARSHAL_PLAY_MEDIA
                  media_name in
  (m, negb (r =? 0)).

Definition mediamgr_pause_media (env : post_env) (media_name : string)
  : posted :=
  let (r, m) := mediamgr_post_media_command env MM_MARSHAL_PAUSE_MEDIA
                  media_name in
  (m, negb (r =? 0)).

Definition mediamgr_stop_media (env : post_env) (media_name : string)
  : posted :=
  let (r, m) := mediamgr_post_media_command env MM_MARSHAL_STOP_MEDIA
                  media_name in
  (m, negb (r =? 0)).

(** The shape of the other posting calls: no element, an error line and
    nothing pushed; else the push, and an error line when it fails. *)
Definition post_elem (env : post_env) (msg : mm_message) : posted :=
  if alloc_ok env then (Some msg, negb (push_err env =? 0))
  else (None, true).

Definition mediamgr_set_call_state (env : post_env) (state : mediamgr_state)
  : posted :=
  post_elem env (MM_MARSHAL_CALL_STATE state).

Definition mediamgr_enable_speaker (env : post_env) (enable : bool) : posted :=
  post_elem env (MM_MARSHAL_ENABLE_SPEAKER enable).

Definition mediamgr_headset_connected (env : post_env) (connected : bool)
  : posted :=
  post_elem env (MM_MARSHAL_HEADSET_CONNECTED connected).

Definition mediamgr_bt_device_connected (env : post_env) (connected : bool)
  : posted :=
  post_elem env (MM_MARSHAL_BT_DEVICE_CONNECTED connected).

Definition mediamgr_register_media (env : post_env) (media_name : string)
    (media_object : Z) (mixing incall : bool) (intensity priority : Z)
    (is_call_media : bool) : posted :=
  post_elem env
    (MM_MARSHAL_REGISTER_MEDIA (strncpy MEDIA_NAME_MAX media_name)
       media_object mixing incall intensity priority is_call_media).

Definition mediamgr_unregister_media (env : post_env) (media_name : string)
  : posted :=
  post_elem env
    (MM_MARSHAL_DEREGISTER_MEDIA (strncpy MEDIA_NAME_MAX media_name)).

Inductive mediamgr_sound_mode : Type :=
| MEDIAMGR_SOUND_MODE_ALL
| MEDIAMGR_SOUND_MODE_SOME
| MEDIAMGR_SOUND_MODE_NONE.

(** The three thresholds are constants of the platform header. *)
Record intensity_thresholds : Type := mkThresholds {
  MM_INTENSITY_THRES_ALL : Z;
  MM_INTENSITY_THRES_SOME : Z;
  MM_INTENSITY_THRES_NONE : Z
}.

Definition sound_mode_intensity (t : intensity_thresholds)
    (mode : mediamgr_sound_mode) : Z :=
  match mode with
  | MEDIAMGR_SOUND_MODE_ALL => MM_INTENSITY_THRES_ALL t
  | MEDIAMGR_SOUND_MODE_SOME => MM_INTENSITY_THRES_SOME t
  | MEDIAMGR_SOUND_MODE_NONE => MM_INTENSITY_THRES_NONE t
  end.

Definition mediamgr_set_sound_mode (t : intensity_thresholds) (env : post_env)
    (mode : mediamgr_sound_mode) : posted :=
  post_elem env (MM_MARSHAL_SET_INTENSITY (sound_mode_intensity t mode)).

(** [mediamgr_get_route] *)
Definition mediamgr_get_route {P : Type} `{mm_platform P} (w : world P)
  : mediamgr_auplay :=
  mm_platform_get_route (w_plat w).

(** The media name a message carries. *)
Definition message_name (m : mm_message) : option string :=
  match m with
  | MM_MARSHAL_PLAY_MEDIA n | MM_MARSHAL_PAUSE_MEDIA n
  | MM_MARSHAL_STOP_MEDIA n | MM_MARSHAL_DEREGISTER_MEDIA n
  | MM_MARSHAL_REGISTER_MEDIA n _ _ _ _ _ _ => Some n
  | _ => None
  end.

(* ===================================================================== *)
(** ** What a message writes *)
(* ===================================================================== *)

(** The write of [update_route] for [event], on the platform route [cur]. *)
Definition route_write (event : mm_route_update_event) (cur : mediamgr_auplay)
    (mm : mediamgr) : mediamgr :=
  set_router mm (fst (route_switch (call_state mm) (router mm) cur event)).

(** The write of the [MM_MARSHAL_CALL_STATE] switch. *)
Definition call_state_write (st : mediamgr_state) (mm : mediamgr) : mediamgr :=
  match st with
  | MEDIAMGR_STATE_HOLD =>
      if in_call (call_state mm)
      then set_call_state (set_prev_call_state mm (call_state mm))
                          MEDIAMGR_STATE_HOLD
      else mm
  | MEDIAMGR_STATE_RESUME =>
      match call_state mm with
      | MEDIAMGR_STATE_HOLD => set_call_state mm (prev_call_state mm)
      | _ => mm
      end
  | _ => set_call_state mm st
  end.

(** The media manager structures a message can leave behind. *)
Definition handler_write (m : mm_message) (mm mm' : mediamgr) : Prop :=
  match m with
  | MM_MARSHAL_ENABLE_SPEAKER b =>
      exists cur, mm' = route_write (if b then MM_SPEAKER_ENABLE_REQUEST
                                     else MM_SPEAKER_DISABLE_REQUEST) cur mm
  | MM_MARSHAL_HEADSET_CONNECTED b =>
      exists cur, mm' = route_write (if b then MM_HEADSET_PLUGGED
                                     else MM_HEADSET_UNPLUGGED) cur mm
  | MM_MARSHAL_BT_DEVICE_CONNECTED b =>
      exists cur, mm' = route_write (if b then MM_BT_DEVICE_CONNECTED
                                     else MM_BT_DEVICE_DISCONNECTED) cur mm
  | MM_MARSHAL_CALL_STATE st =>
      match fst (call_state_outcome st (call_state mm)) with
      | Some e => exists cur, mm' = route_write e cur (call_state_write st mm)
      | None => mm' = mm
      end
  | MM_MARSHAL_PLAY_MEDIA _ =>
      mm' = mm \/ exists cur, mm' = route_write MM_CALL_START cur mm
  | MM_MARSHAL_STOP_MEDIA _ =>
      mm' = mm \/ exists cur, mm' = route_write MM_CALL_STOP cur mm
  | MM_MARSHAL_REGISTER_MEDIA _ _ _ _ _ _ _ | MM_MARSHAL_DEREGISTER_MEDIA _ =>
      exists d, mm' = set_sounds mm d
  | MM_MARSHAL_SET_INTENSITY i => mm' = set_intensity_thres mm i
  | MM_MARSHAL_EXIT | MM_MARSHAL_PAUSE_MEDIA _ => mm' = mm
  end.

(** The connection flags and the threshold as the messages give them. *)
Definition track_headset (b : bool) (m : mm_message) : bool :=
  match m with
  | MM_MARSHAL_HEADSET_CONNECTED v => v
  | _ => b
  end.

Definition track_bt (b : bool) (m : mm_message) : bool :=
  match m with
  | MM_MARSHAL_BT_DEVICE_CONNECTED v => v
  | _ => b
  end.

Definition track_intensity (i : Z) (m : mm_message) : Z :=
  match m with
  | MM_MARSHAL_SET_INTENSITY v => v
  | _ => i
  end.

(** The call state is never RESUME, the saved call state is a call state
    that HOLD can save or the initial one, and a held call has an active
    call saved. *)
Definition call_state_inv (mm : mediamgr) : bool :=
  match call_state mm with
  | MEDIAMGR_STATE_RESUME => false
  | MEDIAMGR_STATE_HOLD => in_call (prev_call_state mm)
  | _ => match prev_call_state mm with
         | MEDIAMGR_STATE_HOLD | MEDIAMGR_STATE_RESUME => false
         | _ => true
         end
  end.

Definition is_routable (a : mediamgr_auplay) : bool :=
  match a with
  | MEDIAMGR_AUPLAY_EARPIECE | MEDIAMGR_AUPLAY_SPEAKER
  | MEDIAMGR_AUPLAY_HEADSET | MEDIAMGR_AUPLAY_BT => true
  | _ => false
  end.

Section Under.

Context {P : Type} `{PF : mm_platform P}.

(** From a structure that satisfies [I], [m] only appends lines that satisfy
    [Q] and leaves a structure that satisfies [I]. *)
Definition appends_under {A} (I : mediamgr -> Prop) (Q : mm_call -> Prop)
    (m : MM P A) : Prop :=
  forall w, I (w_mm w) ->
    (exists added, w_log (snd (m w)) = w_log w ++ added /\ Forall Q added) /\
    I (w_mm (snd (m w))).

(** Whether the platform reports a registered sound of [d] that satisfies
    [f] as playing. *)
Definition any_playing (p : P) (f : sound -> bool) (d : dict) : bool :=
  existsb (fun s => mm_platform_is_sound_playing p s && f s) (dict_values d).

End Under.

(* ===================================================================== *)
(** ** The interface of the fake audio device *)
(* ===================================================================== *)

Module FakeDevice.

(** The thread calls of the device, by call site: the [pthread_create] of
    [StartRecording] and of [StartPlayout], with the value the handle passed
    to it holds when it returns, and the [pthread_join] of [StopRecording]
    and of [StopPlayout], with the handle joined. *)
Inductive thread_call : Type :=
| Create_rec_thread (tid : Z)
| Create_play_thread (tid : Z)
| Join_rec_thread (tid : Z)
| Join_play_thread (tid : Z).

(** The members of the device and the thread calls made so far. The device
    does not look at what [pthread_create] returns: whether a thread was
    created, and whether it still runs, is not part of its state. The value
    a create leaves in the handle is an input of the call that makes it; it
    can be any value, zero and a value seen before included. *)
Record device : Type := mkDev {
  audioCallback_ : Z;          (* 0 is NULL *)
  is_recording_ : bool;
  is_playing_ : bool;
  rec_is_initialized_ : bool;
  play_is_initialized_ : bool;
  rec_tid_ : Z;
  play_tid_ : Z;
  realtime_ : bool;
  thread_log : list thread_call
}.

Definition fake_audiodevice (realtime : bool) : device :=
  mkDev 0 false false false false 0 0 realtime [].

Definition InitPlayout (d : device) : device :=
  mkDev (audioCallback_ d) (is_recording_ d) (is_playing_ d)
        (rec_is_initialized_ d) true (rec_tid_ d) (play_tid_ d)
        (realtime_ d) (thread_log d).

Definition InitRecording (d : device) : device :=
  mkDev (audioCallback_ d) (is_recording_ d) (is_playing_ d)
        true (play_is_initialized_ d) (rec_tid_ d) (play_tid_ d)
        (realtime_ d) (thread_log d).

Definition PlayoutIsInitialized (d : device) : bool := play_is_initialized_ d.
Definition RecordingIsInitialized (d : device) : bool := rec_is_initialized_ d.
Definition Playing (d : device) : bool := is_playing_ d.
Definition Recording (d : device) : bool := is_recording_ d.

(** [tid] is the value [pthread_create] leaves in [play_tid_]. *)
Definition StartPlayout (tid : Z) (d : device) : device :=
  let d1 :=
    if negb (is_playing_ d)
    then mkDev (audioCallback_ d) (is_recording_ d) (is_playing_ d)
               (rec_is_initialized_ d) (play_is_initialized_ d)
               (rec_tid_ d) tid (realtime_ d)
               (thread_log d ++ [Create_play_thread tid])
    else d in
  mkDev (audioCallback_ d1) (is_recording_ d1) true
        (rec_is_initialized_ d1) (play_is_initialized_ d1)
        (rec_tid_ d1) (play_tid_ d1) (realtime_ d1) (thread_log d1).

(** [tid] is the value [pthread_create] leaves in [rec_tid_]. *)
Definition StartRecording (tid : Z) (d : device) : device :=
  let d1 :=
    if negb (is_recording_ d)
    then mkDev (audioCallback_ d) (is_recording_ d) (is_playing_ d)
               (rec_is_initialized_ d) (play_is_initialized_ d)
               tid (play_tid_ d) (realtime_ d)
               (thread_log d ++ [Create_rec_thread tid])
    else d in
  mkDev (audioCallback_ d1) true (is_playing_ d1)
        (rec_is_initialized_ d1) (play_is_initialized_ d1)
        (rec_tid_ d1) (play_tid_ d1) (realtime_ d1) (thread_log d1).

Definition StopRecording (d : device) : device :=
  let d1 :=
    if negb (rec_tid_ d =? 0) && is_recording_ d
    then mkDev (audioCallback_ d) false (is_playing_ d)
               (rec_is_initialized_ d) (play_is_initialized_ d)
               0 (play_tid_ d) (realtime_ d)
               (thread_log d ++ [Join_rec_thread (rec_tid_ d)])
    else d in
  mkDev (audioCallback_ d1) (is_recording_ d1) (is_playing_ d1)
        false (play_is_initialized_ d1)
        (rec_tid_ d1) (play_tid_ d1) (realtime_ d1) (thread_log d1).

Definition StopPlayout (d : device) : device :=
  let d1 :=
    if negb (play_tid_ d =? 0) && is_playing_ d
    then mkDev (audioCallback_ d) (is_recording_ d) false
               (rec_is_initialized_ d) (play_is_initialized_ d)
               (rec_tid_ d) 0 (realtime_ d)
               (thread_log d ++ [Join_play_thread (play_tid_ d)])
    else d in
  mkDev (audioCallback_ d1) (is_recording_ d1) (is_playing_ d1)
        (rec_is_initialized_ d1) false
        (rec_tid_ d1) (play_tid_ d1) (realtime_ d1) (thread_log d1).

Definition Terminate (d : device) : device :=
  StopPlayout (StopRecording d).

Definition set_audioCallback (d : device) (cb : Z) : device :=
  mkDev cb (is_recording_ d) (is_playing_ d)
        (rec_is_initialized_ d) (play_is_initialized_ d)
        (rec_tid_ d) (play_tid_ d) (realtime_ d) (thread_log d).

(** [play_tid] and [rec_tid] are the values the creates of the two starts
    leave in the handles, when the starts make them. *)
Definition RegisterAudioCallback (audioCallback : Z) (play_tid rec_tid : Z)
    (d : device) : device :=
  let is_playing := is_playing_ d in
  let is_recording := is_recording_ d in
  let d := StopPlayout d in
  let d := StopRecording d in   (* Stop the threads that uses audioCallback *)
  let d := set_audioCallback d audioCallback in
  let d := if is_playing then StartPlayout play_tid d else d in
  let d := if is_recording then StartRecording rec_tid d else d in
  d.

(** The calls of the interface that change the device, each with the values
    its creates leave in the handles. *)
Inductive device_call : Type :=
| Call_RegisterAudioCallback (audioCallback : Z) (play_tid rec_tid : Z)
| Call_InitPlayout
| Call_InitRecording
| Call_StartPlayout (tid : Z)
| Call_StartRecording (tid : Z)
| Call_StopRecording
| Call_StopPlayout
| Call_Terminate.

Definition device_step (d : device) (c : device_call) : device :=
  match c with
  | Call_RegisterAudioCallback cb pt rt => RegisterAudioCallback cb pt rt d
  | Call_InitPlayout => InitPlayout d
  | Call_InitRecording => InitRecording d
  | Call_StartPlayout t => StartPlayout t d
  | Call_StartRecording t => StartRecording t d
  | Call_StopRecording => StopRecording d
  | Call_StopPlayout => StopPlayout d
  | Call_Terminate => Terminate d
  end.

(** The calls made on a device, in order, each one made when the one before
    it has returned. *)
Definition device_run (calls : list device_call) (d : device) : device :=
  fold_left device_step calls d.

(** The creates of a thread log that no join has followed, as (record,
    playout), each with the handle the create left; [None] when the log
    makes a create of a kind while one of that kind is not joined, or a
    join of anything but the non-zero handle of the create of its kind. *)
Definition thread_step (st : option (option Z * option Z)) (c : thread_call)
  : option (option Z * option Z) :=
  match st with
  | None => None
  | Some (r, p) =>
      match c with
      | Create_rec_thread t =>
          match r with None => Some (Some t, p) | Some _ => None end
      | Create_play_thread t =>
          match p with None => Some (r, Some t) | Some _ => None end
      | Join_rec_thread t =>
          match r with
          | Some tr => if (tr =? t) && negb (t =? 0) then Some (None, p)
                       else None
          | None => None
          end
      | Join_play_thread t =>
          match p with
          | Some tp => if (tp =? t) && negb (t =? 0) then Some (r, None)
                       else None
          | None => None
          end
      end
  end.

Definition unjoined (log : list thread_call) : option (option Z * option Z) :=
  fold_left thread_step log (Some (None, None)).

(** The flags say which creates are not joined, with the handles the device
    holds, and a handle is zero while its flag is clear. *)
Definition device_inv (d : device) : Prop :=
  (is_recording_ d = false -> rec_tid_ d = 0) /\
  (is_playing_ d = false -> play_tid_ d = 0) /\
  unjoined (thread_log d)
    = Some (if is_recording_ d then Some (rec_tid_ d) else None,
            if is_playing_ d then Some (play_tid_ d) else None).

(** The handles the creates of a call leave. *)
Definition create_handles (c : device_call) : list Z :=
  match c with
  | Call_RegisterAudioCallback _ pt rt => [pt; rt]
  | Call_StartPlayout t | Call_StartRecording t => [t]
  | _ => []
  end.

(** No create of the calls leaves a zero handle. *)
Definition handles_nonzero (calls : list device_call) : bool :=
  forallb (fun c => forallb (fun t => negb (t =? 0)) (create_handles c)) calls.

(** A handle is not zero while its flag is set. *)
Definition handles_held (d : device) : Prop :=
  (is_recording_ d = true -> rec_tid_ d <> 0) /\
  (is_playing_ d = true -> play_tid_ d <> 0).

End FakeDevice.

(* ===================================================================== *)
(** ** Basic facts *)
(* ===================================================================== *)

Lemma auplay_eqb_eq (a b : mediamgr_auplay) : auplay_eqb a b = true <-> a = b.
Proof. destruct a, b; simpl; split; intro H; congruence. Qed.

Lemma auplay_eqb_refl (a : mediamgr_auplay) : auplay_eqb a a = true.
Proof. destruct a; reflexivity. Qed.

Lemma auplay_eqb_neq (a b : mediamgr_auplay) : auplay_eqb a b = false <-> a <> b.
Proof.
  split.
  - intros H E. subst. rewrite auplay_eqb_refl in H. discriminate.
  - intros H. destruct (auplay_eqb a b) eqn:E; [| reflexivity].
    apply auplay_eqb_eq in E. contradiction.
Qed.

Lemma sound_eqb_eq (a b : sound) : sound_eqb a b = true <-> a = b.
Proof.
  unfold sound_eqb. split.
  - intros H. repeat (apply andb_true_iff in H; destruct H as [H ?]).
    destruct a, b; simpl in *.
    apply String.eqb_eq in H. apply Bool.eqb_prop in H0, H3, H4.
    apply Z.eqb_eq in H1, H2, H5. subst. reflexivity.
  - intros ->. rewrite String.eqb_refl, !Z.eqb_refl, !Bool.eqb_reflx.
    reflexivity.
Qed.

Lemma last_wanted_app_info (l : list mm_call) (wanted cur : mediamgr_auplay)
    (rest : list mm_call) :
  forallb (fun c => match c with Info_route _ _ => false | _ => true end) rest
    = true ->
  last_wanted (l ++ Info_route wanted cur :: rest) = Some wanted.
Proof.
  intros Hrest.
  assert (Hnone : last_wanted rest = None).
  { induction rest as [| c rest IH]; [reflexivity |].
    simpl in Hrest. apply andb_true_iff in Hrest as [Hc Hrest].
    simpl. rewrite (IH Hrest). destruct c; try reflexivity; discriminate. }
  induction l as [| c l IH]; simpl.
  - rewrite Hnone. reflexivity.
  - rewrite IH. reflexivity.
Qed.

Section RouterFacts.

Context {P : Type} `{PF : mm_platform P}.

Lemma enable_route_run (wanted : mediamgr_auplay) (w : world P) :
  enable_route wanted w =
  (fst (enable_result wanted (w_plat w)),
   mkWorld (w_mm w) (snd (enable_result wanted (w_plat w)))
           (w_log w ++ [enable_line wanted])).
Proof.
  destruct wanted; unfold enable_route, call, bind, emit, pure; simpl;
    try reflexivity.
  - destruct (mm_platform_enable_earpiece (w_plat w)); reflexivity.
  - destruct (mm_platform_enable_speaker (w_plat w)); reflexivity.
  - destruct (mm_platform_enable_headset (w_plat w)); reflexivity.
  - destruct (mm_platform_enable_bt_sco (w_plat w)); reflexivity.
Qed.

(** [update_route], run: the router of the switch, the platform after the
    request, and the lines of the log in order. *)
Lemma update_route_run (event : mm_route_update_event) (w : world P) :
  let cur := mm_platform_get_route (w_plat w) in
  let W := wanted_route event w in
  let ret := fst (route_request event w) in
  let p1 := snd (route_request event w) in
  let obs := mm_platform_get_route p1 in
  let differs := negb (auplay_eqb W obs) && (0 <=? ret) in
  exec (update_route event) w =
  mkWorld
    (set_router (w_mm w)
       (fst (route_switch (call_state (w_mm w)) (router (w_mm w)) cur event)))
    p1
    (w_log w ++ Info_route W cur
       :: (if auplay_eqb W cur then [] else [enable_line W])
       ++ (if differs && in_call (call_state (w_mm w))
           then [Error_route_change W obs ret] else [])
       ++ (if route_changed_h (w_mm w)
           then [Route_changed_h
                   (if differs && negb (in_call (call_state (w_mm w)))
                    then W else obs)]
           else [])).
Proof.
  unfold route_request, wanted_route, exec, update_route, bind, ask, get_mm.
  destruct (route_switch (call_state (w_mm w)) (router (w_mm w))
              (mm_platform_get_route (w_plat w)) event) as [r' W] eqn:Esw.
  cbn [fst snd put_mm emit].
  destruct (auplay_eqb W (mm_platform_get_route (w_plat w))) eqn:Ecur.
  - cbn. rewrite Ecur. cbn.
    destruct (in_call (call_state (w_mm w))), (route_changed_h (w_mm w));
      cbn; rewrite <- ?app_assoc; reflexivity.
  - rewrite enable_route_run. cbn [fst snd w_plat w_mm w_log pure].
    destruct (enable_result W (w_plat w)) as [ret p1]. cbn [fst snd].
    destruct (negb (auplay_eqb W (mm_platform_get_route p1)) && (0 <=? ret))
      eqn:Ed;
      destruct (in_call (call_state (w_mm w))), (route_changed_h (w_mm w));
      cbn; rewrite <- ?app_assoc; reflexivity.
Qed.

End RouterFacts.

(* ===================================================================== *)
(** ** The router *)
(* ===================================================================== *)

Section RouterTheorems.

Context {P : Type} `{PF : mm_platform P}.

Lemma update_route_mm (event : mm_route_update_event) (w : world P) :
  w_mm (exec (update_route event) w) =
  set_router (w_mm w)
    (fst (route_switch (call_state (w_mm w)) (router (w_mm w))
            (mm_platform_get_route (w_plat w)) event)).
Proof. rewrite update_route_run. reflexivity. Qed.

Lemma update_route_call_state (event : mm_route_update_event) (w : world P) :
  call_state (w_mm (exec (update_route event) w)) = call_state (w_mm w).
Proof. rewrite update_route_mm. reflexivity. Qed.

Lemma update_route_last_wanted (event : mm_route_update_event) (w : world P) :
  last_wanted (w_log (exec (update_route event) w))
  = Some (wanted_route event w).
Proof.
  rewrite update_route_run. cbn [w_log].
  apply last_wanted_app_info.
  repeat match goal with
         | |- context [if ?b then _ else _] => destruct b
         end;
    try reflexivity;
    destruct (wanted_route event w); reflexivity.
Qed.

(** C1. A video call start saves the route the platform reports into
    [route_before_call], wants the headset when a wired headset is
    connected, else bluetooth when a BT device is connected, else the
    speaker, and leaves [prefer_loudspeaker] false (the second of the two
    assignments wins); the connection flags are untouched. *)
Theorem video_call_start_route (w : world P) :
  let r := router (w_mm w) in
  let w' := exec (update_route MM_VIDEO_CALL_START) w in
  let r' := router (w_mm w') in
  route_before_call r' = mm_platform_get_route (w_plat w) /\
  last_wanted (w_log w') =
    Some (if wired_hs_is_connected r then MEDIAMGR_AUPLAY_HEADSET
          else if bt_device_is_connected r then MEDIAMGR_AUPLAY_BT
          else MEDIAMGR_AUPLAY_SPEAKER) /\
  prefer_loudspeaker r' = false /\
  wired_hs_is_connected r' = wired_hs_is_connected r /\
  bt_device_is_connected r' = bt_device_is_connected r.
Proof.
  cbv zeta. rewrite update_route_last_wanted, update_route_mm.
  unfold wanted_route. cbn. repeat split; reflexivity.
Qed.

(** C2, as amended. After any sequence of messages, when the router handles
    one more event and the state it leaves has the wired headset connected,
    no loudspeaker preference and no active call, the wanted route it
    computed is the headset, except for three events: a call stop (audio or
    video) wants the earpiece, and a BT connection outside a call wants the
    route the platform is on. *)
Theorem wired_headset_wanted (thres : Z) (p0 : P) (msgs : list mm_message)
    (e : mm_route_update_event) :
  let w := run msgs (init_world thres p0) in
  let w' := exec (update_route e) w in
  wired_hs_is_connected (router (w_mm w')) = true ->
  prefer_loudspeaker (router (w_mm w')) = false ->
  in_call (call_state (w_mm w')) = false ->
  last_wanted (w_log w') =
    Some (match e with
          | MM_CALL_STOP | MM_VIDEO_CALL_STOP => MEDIAMGR_AUPLAY_EARPIECE
          | MM_BT_DEVICE_CONNECTED => mm_platform_get_route (w_plat w)
          | _ => MEDIAMGR_AUPLAY_HEADSET
          end).
Proof.
  cbv zeta. generalize (run msgs (init_world thres p0)). intros w.
  rewrite update_route_last_wanted, update_route_mm.
  unfold wanted_route. cbn [router call_state set_router].
  destruct e; cbn; intros Hhs Hpl Hcall; try reflexivity; try discriminate.
  - rewrite Hcall. reflexivity.
  - rewrite Hhs. reflexivity.
  - rewrite Hhs. reflexivity.
  - rewrite Hhs. reflexivity.
  - rewrite Hhs. reflexivity.
Qed.

(** C5, as amended. With a route-changed handler registered, [update_route]
    appends to the log a block that ends with the one call of the handler,
    holds at most one platform enable (no retry) and leaves the platform as
    that one request left it. The handler receives the wanted route [W] when
    the platform is on [W], or when it is not, the request did not fail
    ([0 <= ret]) and no call is active; it receives the observed route, with
    one error line, when the request did not fail and a call is active; and
    it receives the observed route, with no error line, when the request
    failed ([ret < 0]). *)
Theorem update_route_effective_route (e : mm_route_update_event) (w : world P) :
  route_changed_h (w_mm w) = true ->
  let W := wanted_route e w in
  let ret := fst (route_request e w) in
  let obs := mm_platform_get_route (snd (route_request e w)) in
  let w' := exec (update_route e) w in
  exists added final,
    w_log w' = w_log w ++ added ++ [Route_changed_h final] /\
    w_plat w' = snd (route_request e w) /\
    (List.length (filter is_enable added) <= 1)%nat /\
    (forall r, ~ In (Route_changed_h r) added) /\
    (W = obs -> final = W /\ filter is_error_route added = []) /\
    (W <> obs -> 0 <= ret -> in_call (call_state (w_mm w)) = false ->
       final = W /\ filter is_error_route added = []) /\
    (W <> obs -> 0 <= ret -> in_call (call_state (w_mm w)) = true ->
       final = obs /\
       filter is_error_route added = [Error_route_change W obs ret]) /\
    (W <> obs -> ret < 0 ->
       final = obs /\ filter is_error_route added = []).
Proof.
  intros Hh. cbv zeta. rewrite update_route_run. cbn [w_log w_plat].
  rewrite Hh.
  set (W := wanted_route e w). set (ret := fst (route_request e w)).
  set (obs := mm_platform_get_route (snd (route_request e w))).
  set (cur := mm_platform_get_route (w_plat w)).
  set (ic := in_call (call_state (w_mm w))).
  set (differs := negb (auplay_eqb W obs) && (0 <=? ret)).
  exists (Info_route W cur
            :: (if auplay_eqb W cur then [] else [enable_line W])
            ++ (if differs && ic then [Error_route_change W obs ret] else [])),
         (if differs && negb ic then W else obs).
  assert (Hen : forall a, is_error_route (enable_line a) = false)
    by (intros a; destruct a; reflexivity).
  split; [| split; [reflexivity | split; [| split]]].
  - cbn. rewrite <- !app_assoc. reflexivity.
  - cbn. destruct (auplay_eqb W cur), (differs && ic); cbn;
      try destruct (is_enable (enable_line W)); cbn; lia.
  - intros r Hin. cbn in Hin. destruct Hin as [Hin | Hin]; [discriminate |].
    apply in_app_or in Hin. destruct Hin as [Hin | Hin].
    + destruct (auplay_eqb W cur); cbn in Hin; [contradiction |].
      destruct Hin as [Hin | []]. destruct W; discriminate.
    + destruct (differs && ic); cbn in Hin; [| contradiction].
      destruct Hin as [Hin | []]. discriminate.
  - assert (Hfilter : forall l, filter is_error_route
              (Info_route W cur
                 :: (if auplay_eqb W cur then [] else [enable_line W]) ++ l)
              = filter is_error_route l).
    { intros l. cbn. destruct (auplay_eqb W cur); cbn; [reflexivity |].
      rewrite Hen. reflexivity. }
    rewrite Hfilter. unfold differs.
    repeat split; intros.
    + subst obs. rewrite H. rewrite auplay_eqb_refl. reflexivity.
    + rewrite (proj2 (auplay_eqb_eq W obs) H). reflexivity.
    + rewrite (proj2 (auplay_eqb_neq W obs) H), (proj2 (Z.leb_le 0 ret) H0), H1.
      reflexivity.
    + rewrite (proj2 (auplay_eqb_neq W obs) H), (proj2 (Z.leb_le 0 ret) H0), H1.
      reflexivity.
    + rewrite (proj2 (auplay_eqb_neq W obs) H), (proj2 (Z.leb_le 0 ret) H0), H1.
      reflexivity.
    + rewrite (proj2 (auplay_eqb_neq W obs) H), (proj2 (Z.leb_le 0 ret) H0), H1.
      reflexivity.
    + rewrite (proj2 (Z.leb_gt 0 ret) H0), andb_false_r. reflexivity.
    + rewrite (proj2 (Z.leb_gt 0 ret) H0), andb_false_r. reflexivity.
Qed.

End RouterTheorems.

(* ===================================================================== *)
(** ** The monad: running, appending, framing *)
(* ===================================================================== *)

Section MonadFacts.

Context {P : Type} `{PF : mm_platform P}.

Lemma exec_bind {A B} (m : MM P A) (k : A -> MM P B) (w : world P) :
  exec (bind m k) w = exec (k (fst (m w))) (snd (m w)).
Proof. unfold exec, bind. destruct (m w). reflexivity. Qed.

Lemma fst_bind {A B} (m : MM P A) (k : A -> MM P B) (w : world P) :
  fst (bind m k w) = fst (k (fst (m w)) (snd (m w))).
Proof. unfold bind. destruct (m w). reflexivity. Qed.

Lemma snd_bind {A B} (m : MM P A) (k : A -> MM P B) (w : world P) :
  snd (bind m k w) = snd (k (fst (m w)) (snd (m w))).
Proof. unfold bind. destruct (m w). reflexivity. Qed.

Lemma exec_pure {A} (a : A) (w : world P) : exec (pure a) w = w.
Proof. reflexivity. Qed.

Lemma exec_emit (c : mm_call) (w : world P) :
  exec (emit c) w = mkWorld (w_mm w) (w_plat w) (w_log w ++ [c]).
Proof. reflexivity. Qed.

Lemma call__run (c : mm_call) (f : P -> P) (w : world P) :
  call_ c f w = (tt, mkWorld (w_mm w) (f (w_plat w)) (w_log w ++ [c])).
Proof. reflexivity. Qed.

Variable Q : mm_call -> Prop.

Lemma appends_pure {A} (a : A) : appends Q (pure (P:=P) a).
Proof. intros w. exists []. rewrite app_nil_r. split; [reflexivity | constructor]. Qed.

Lemma appends_bind {A B} (m : MM P A) (k : A -> MM P B) :
  appends Q m -> (forall a, appends Q (k a)) -> appends Q (bind m k).
Proof.
  intros Hm Hk w. rewrite snd_bind.
  destruct (Hm w) as [a1 [E1 F1]].
  destruct (Hk (fst (m w)) (snd (m w))) as [a2 [E2 F2]].
  exists (a1 ++ a2). rewrite E2, E1, app_assoc. split; [reflexivity |].
  apply Forall_app. split; assumption.
Qed.

Lemma appends_emit (c : mm_call) : Q c -> appends Q (emit (P:=P) c).
Proof. intros Hc w. exists [c]. split; [reflexivity | repeat constructor; exact Hc]. Qed.

Lemma appends_call {A} (c : mm_call) (f : P -> A * P) :
  Q c -> appends Q (call c f).
Proof.
  intros Hc w. exists [c]. unfold call. destruct (f (w_plat w)).
  split; [reflexivity | repeat constructor; exact Hc].
Qed.

Lemma appends_call_ (c : mm_call) (f : P -> P) : Q c -> appends Q (call_ c f).
Proof. intros Hc. apply appends_call. exact Hc. Qed.

Lemma appends_ask {A} (q : P -> A) : appends Q (ask q).
Proof. intros w. exists []. rewrite app_nil_r. split; [reflexivity | constructor]. Qed.

Lemma appends_get_mm : appends Q (get_mm (P:=P)).
Proof. intros w. exists []. rewrite app_nil_r. split; [reflexivity | constructor]. Qed.

Lemma appends_put_mm (mm : mediamgr) : appends Q (put_mm (P:=P) mm).
Proof. intros w. exists []. cbn. rewrite app_nil_r. split; [reflexivity | constructor]. Qed.

Lemma appends_dict_apply {A} (d : dict)
    (h : string -> sound -> A -> MM P (bool * A)) (arg : A) :
  (forall k v a, appends Q (h k v a)) -> appends Q (dict_apply d h arg).
Proof.
  intros Hh. revert arg. induction d as [| [k v] d IH]; intros arg; simpl.
  - apply appends_pure.
  - apply appends_bind; [apply Hh |].
    intros [stop a]. simpl. destruct stop; [apply appends_pure | apply IH].
Qed.

Lemma keeps_mm_pure {A} (a : A) : keeps_mm (pure (P:=P) a).
Proof. intros w. reflexivity. Qed.

Lemma keeps_mm_bind {A B} (m : MM P A) (k : A -> MM P B) :
  keeps_mm m -> (forall a, keeps_mm (k a)) -> keeps_mm (bind m k).
Proof. intros Hm Hk w. rewrite snd_bind, Hk, Hm. reflexivity. Qed.

Lemma keeps_mm_emit (c : mm_call) : keeps_mm (emit (P:=P) c).
Proof. intros w. reflexivity. Qed.

Lemma keeps_mm_call {A} (c : mm_call) (f : P -> A * P) : keeps_mm (call c f).
Proof. intros w. unfold call. destruct (f (w_plat w)). reflexivity. Qed.

Lemma keeps_mm_ask {A} (q : P -> A) : keeps_mm (ask q).
Proof. intros w. reflexivity. Qed.

Lemma keeps_mm_dict_apply {A} (d : dict)
    (h : string -> sound -> A -> MM P (bool * A)) (arg : A) :
  (forall k v a, keeps_mm (h k v a)) -> keeps_mm (dict_apply d h arg).
Proof.
  intros Hh. revert arg. induction d as [| [k v] d IH]; intros arg; simpl.
  - apply keeps_mm_pure.
  - apply keeps_mm_bind; [apply Hh |].
    intros [stop a]. simpl. destruct stop; [apply keeps_mm_pure | apply IH].
Qed.

End MonadFacts.

Create HintDb mm_appends.
Create HintDb mm_keeps.

#[local] Hint Resolve appends_pure appends_emit appends_call appends_call_
  appends_ask appends_get_mm appends_put_mm : mm_appends.

#[local] Hint Resolve keeps_mm_pure keeps_mm_emit keeps_mm_call keeps_mm_ask
  : mm_keeps.

(** Splits a computation along its binds and branches. *)
Ltac appends_step :=
  match goal with
  | |- appends _ (bind _ _) => apply appends_bind; [| intros ?]
  | |- appends _ (dict_apply _ _ _) => apply appends_dict_apply; intros ? ? ?
  | |- appends _ (if ?b then _ else _) => destruct b
  | |- appends _ (match ?x with _ => _ end) => destruct x
  | |- appends _ _ => solve [auto with mm_appends]
  end.

Ltac keeps_step :=
  match goal with
  | |- keeps_mm (bind _ _) => apply keeps_mm_bind; [| intros ?]
  | |- keeps_mm (dict_apply _ _ _) => apply keeps_mm_dict_apply; intros ? ? ?
  | |- keeps_mm (call_ _ _) => apply keeps_mm_call
  | |- keeps_mm (if ?b then _ else _) => destruct b
  | |- keeps_mm (match ?x with _ => _ end) => destruct x
  | |- keeps_mm _ => solve [auto with mm_keeps]
  end.

(* ===================================================================== *)
(** ** Sounds *)
(* ===================================================================== *)

Section SoundTheorems.

Context {P : Type} `{PF : mm_platform P}.

Lemma can_play_sound_intensity (d : dict) (s : sound) (w : world P) :
  intensity_thres (w_mm w) < intensity s ->
  mediamgr_can_play_sound d s w = (false, w).
Proof.
  intros H. unfold mediamgr_can_play_sound, bind, get_mm.
  rewrite (proj2 (Z.ltb_lt _ _) H). reflexivity.
Qed.

Lemma can_play_sound_appends (Q : mm_call -> Prop) (d : dict) (s : sound) :
  appends Q (mediamgr_can_play_sound (P:=P) d s).
Proof.
  unfold mediamgr_can_play_sound, check_play_mode. repeat appends_step.
Qed.

Lemma update_route_appends (Q : mm_call -> Prop) (e : mm_route_update_event) :
  (forall a b, Q (Info_route a b)) -> (forall a, Q (enable_line a)) ->
  (forall a b r, Q (Error_route_change a b r)) ->
  (forall a, Q (Route_changed_h a)) ->
  appends Q (update_route (P:=P) e).
Proof.
  intros Hi He Hr Hc w. exists (skipn (List.length (w_log w))
                                   (w_log (exec (update_route e) w))).
  fold (exec (update_route e) w). rewrite update_route_run. cbn [w_log].
  rewrite skipn_app, Nat.sub_diag, skipn_all, skipn_O. cbn [app].
  split; [reflexivity |].
  constructor; [apply Hi |].
  repeat (apply Forall_app; split);
    repeat match goal with
           | |- context [if ?b then _ else _] => destruct b
           end; repeat constructor; auto.
Qed.

(** The part of a play-media command that follows a positive answer of
    [mediamgr_can_play_sound]. *)
Lemma play_tail_appends (Q : mm_call -> Prop) (mm : mediamgr) (s : sound) :
  (forall c, (forall x, c <> Play_sound x) -> Q c) -> Q (Play_sound s) ->
  appends Q
    ((if 0 <? priority s then dict_apply (sounds mm) stop_play tt
      else pure (P:=P) tt) ;;
     (if is_call_media s && negb (in_call (call_state mm))
      then call_ Enter_call mm_platform_enter_call ;;
           update_route MM_CALL_START
      else pure tt) ;;
     call_ (Play_sound s) (fun p => mm_platform_play_sound p s)).
Proof.
  intros Hother Hs.
  assert (Hen : forall a, Q (enable_line a))
    by (intros a; apply Hother; intros x; destruct a; discriminate).
  unfold stop_play.
  repeat first
    [ apply update_route_appends; intros; try apply Hen; apply Hother;
      intros; discriminate
    | apply appends_call_; first [exact Hs | apply Hother; intros; discriminate]
    | appends_step ].
Qed.

(** Every message other than a play-media command appends no
    [Play_sound]. *)
Lemma other_messages_play_nothing (Q : mm_call -> Prop) (m : mm_message) :
  (forall c, (forall x, c <> Play_sound x) -> Q c) ->
  (forall name, m <> MM_MARSHAL_PLAY_MEDIA name) ->
  appends Q (mqueue_handler (P:=P) m).
Proof.
  intros Hother Hm.
  assert (Hen : forall a, Q (enable_line a))
    by (intros a; apply Hother; intros x; destruct a; discriminate).
  assert (Hur : forall e, appends Q (update_route (P:=P) e)).
  { intros e. apply update_route_appends; intros; try apply Hen;
      apply Hother; intros; discriminate. }
  destruct m; unfold mqueue_handler; try apply Hur.
  - apply appends_emit. apply Hother. intros; discriminate.
  - exfalso. apply (Hm media_name). reflexivity.
  - repeat first
      [ apply appends_emit; apply Hother; intros; discriminate
      | apply appends_call_; apply Hother; intros; discriminate
      | appends_step ].
  - repeat first
      [ apply Hur
      | apply appends_emit; apply Hother; intros; discriminate
      | apply appends_call_; apply Hother; intros; discriminate
      | appends_step ].
  - unfold call_state_switch, mediamgr_enter_call, mediamgr_exit_call,
      stop_playing_during_call.
    repeat first
      [ apply Hur
      | apply appends_emit; apply Hother; intros; discriminate
      | apply appends_call_; apply Hother; intros; discriminate
      | appends_step ].
  - intros w.
    destruct (mm_platform_registerMedia (w_plat w) (sounds (w_mm w)) media_name
                media_object mixing0 incall0 intensity0 priority0
                is_call_media0) as [p d].
    exists [Register_media media_name]. split; [reflexivity |].
    repeat constructor. apply Hother. intros; discriminate.
  - intros w.
    destruct (mm_platform_unregisterMedia (w_plat w) (sounds (w_mm w))
                media_name) as [p d].
    exists [Unregister_media media_name]. split; [reflexivity |].
    repeat constructor. apply Hother. intros; discriminate.
  - repeat appends_step.
Qed.

(** C3. While the intensity of a sound is above the threshold in force, a
    play-media command for a name it is registered under changes nothing and
    calls nothing, and no message at all makes the handler call
    [mm_platform_play_sound] for it, whatever its priority, its mixing flag
    and the call state are. *)
Theorem intensity_filter (s : sound) (w : world P) :
  intensity_thres (w_mm w) < intensity s ->
  (forall name, dict_lookup (sounds (w_mm w)) name = Some s ->
     exec (mqueue_handler (MM_MARSHAL_PLAY_MEDIA name)) w = w) /\
  (forall m, exists added,
     w_log (exec (mqueue_handler m) w) = w_log w ++ added /\
     ~ In (Play_sound s) added).
Proof.
  intros Hint. split.
  - intros name Hlook.
    unfold exec, mqueue_handler, bind, get_mm. rewrite Hlook.
    rewrite (can_play_sound_intensity _ _ _ Hint). reflexivity.
  - intros m.
    set (Q := fun c => c <> Play_sound s).
    assert (Hother : forall c, (forall x, c <> Play_sound x) -> Q c)
      by (intros c Hc; apply Hc).
    assert (Hfin : forall added, Forall Q added -> ~ In (Play_sound s) added).
    { intros added HF Hin. rewrite Forall_forall in HF.
      apply (HF _ Hin). reflexivity. }
    assert (Hgen : (forall name, m <> MM_MARSHAL_PLAY_MEDIA name) ->
                   exists added,
                     w_log (exec (mqueue_handler m) w) = w_log w ++ added /\
                     ~ In (Play_sound s) added).
    { intros Hm.
      destruct (other_messages_play_nothing Q m Hother Hm w) as [a [E F]].
      exists a. split; [exact E | apply Hfin; exact F]. }
    destruct m; try (apply Hgen; intros; discriminate).
    unfold exec, mqueue_handler. rewrite snd_bind. cbn [get_mm fst snd].
    destruct (dict_lookup (sounds (w_mm w)) media_name) as [curr |] eqn:Hlook.
    + destruct (Z.ltb_spec (intensity_thres (w_mm w)) (intensity curr))
        as [Hhigh | Hlow].
      * unfold bind. rewrite (can_play_sound_intensity _ _ _ Hhigh).
        exists []. rewrite app_nil_r. split; [reflexivity | intros []].
      * assert (Hne : Q (Play_sound curr)).
        { intros E. injection E as ->. lia. }
        assert (Happ : appends Q
                  (ok <- mediamgr_can_play_sound (sounds (w_mm w)) curr ;;
                   if ok
                   then (if 0 <? priority curr
                         then dict_apply (sounds (w_mm w)) stop_play tt
                         else pure tt) ;;
                        (if is_call_media curr
                            && negb (in_call (call_state (w_mm w)))
                         then call_ Enter_call mm_platform_enter_call ;;
                              update_route MM_CALL_START
                         else pure tt) ;;
                        call_ (Play_sound curr)
                              (fun p => mm_platform_play_sound p curr)
                   else pure tt)).
        { apply appends_bind; [apply can_play_sound_appends |].
          intros [|]; [| apply appends_pure].
          apply play_tail_appends; assumption. }
        destruct (Happ w) as [a [E F]].
        exists a. split; [exact E | apply Hfin; exact F].
    + exists [Error_no_media media_name]. split; [reflexivity |].
      intros [Hin | []]. discriminate.
Qed.

(** C9. A HOLD received when the call state is neither in-call nor
    in-video-call leaves everything as it was: the media manager (call
    state, previous call state, router, threshold), the platform and the log
    (no route update, no [mcat_changed] callback); so does a RESUME received
    when the call state is not HOLD. *)
Theorem hold_resume_guard (w : world P) :
  (in_call (call_state (w_mm w)) = false ->
   exec (mqueue_handler (MM_MARSHAL_CALL_STATE MEDIAMGR_STATE_HOLD)) w = w) /\
  (call_state (w_mm w) <> MEDIAMGR_STATE_HOLD ->
   exec (mqueue_handler (MM_MARSHAL_CALL_STATE MEDIAMGR_STATE_RESUME)) w = w).
Proof.
  split; intros H;
    unfold exec, mqueue_handler, call_state_switch, bind, get_mm.
  - rewrite H. reflexivity.
  - destruct (call_state (w_mm w)); try reflexivity. contradiction.
Qed.

(** C6, as amended. Stopping a registered sound that is not playing, when the
    sound is not call media or a call is active, leaves the media manager
    (registry, router, call state) unchanged and calls the platform once, to
    stop that sound; on a platform where stopping a sound that is not
    playing does nothing, the platform is unchanged as well. *)
Theorem stop_media_when_stopped (name : string) (s : sound) (w : world P) :
  (forall p x, mm_platform_is_sound_playing p x = false ->
               mm_platform_stop_sound p x = p) ->
  dict_lookup (sounds (w_mm w)) name = Some s ->
  mm_platform_is_sound_playing (w_plat w) s = false ->
  is_call_media s = false \/ in_call (call_state (w_mm w)) = true ->
  let w' := exec (mqueue_handler (MM_MARSHAL_STOP_MEDIA name)) w in
  w_mm w' = w_mm w /\
  w_plat w' = w_plat w /\
  w_log w' = w_log w ++ [Stop_sound s].
Proof.
  intros Hidle Hlook Hstopped Hguard. cbv zeta.
  unfold exec, mqueue_handler, bind, get_mm, call_, call. rewrite Hlook.
  cbn [fst snd w_mm w_plat w_log].
  assert (Hg : is_call_media s && negb (in_call (call_state (w_mm w))) = false).
  { destruct Hguard as [-> | ->]; [reflexivity | apply andb_false_r]. }
  rewrite Hg. cbn. rewrite (Hidle _ _ Hstopped). repeat split.
Qed.

End SoundTheorems.

(* ===================================================================== *)
(** ** Preemption *)
(* ===================================================================== *)

Section Preemption.

Context {P : Type} `{PF : mm_platform P}.

Lemma check_play_mode_run (k : string) (v : sound) (mode : mm_playback_mode)
    (w : world P) :
  check_play_mode k v mode w =
  (if mm_platform_is_sound_playing (w_plat w) v
   then if mixing v then (false, MM_PLAYBACK_MIXING)
        else (true, MM_PLAYBACK_EXCLUSIVE)
   else (false, mode), w).
Proof.
  unfold check_play_mode, bind, ask, pure.
  destruct (mm_platform_is_sound_playing (w_plat w) v); [| reflexivity].
  destruct (mixing v); reflexivity.
Qed.

Lemma check_play_mode_world (d : dict) (mode : mm_playback_mode) (w : world P) :
  snd (dict_apply d check_play_mode mode w) = w.
Proof.
  revert mode. induction d as [| [k v] d IH]; intros mode; simpl.
  - reflexivity.
  - rewrite snd_bind, check_play_mode_run. cbn [fst snd].
    destruct (mm_platform_is_sound_playing (w_plat w) v); [| apply IH].
    destruct (mixing v); [apply IH | reflexivity].
Qed.

Lemma can_play_sound_world (d : dict) (s : sound) (w : world P) :
  snd (mediamgr_can_play_sound d s w) = w.
Proof.
  unfold mediamgr_can_play_sound. rewrite snd_bind. cbn [get_mm fst snd].
  destruct (intensity_thres (w_mm w) <? intensity s); [reflexivity |].
  destruct (negb (incall s) && in_call (call_state (w_mm w))); [reflexivity |].
  destruct (0 <? priority s); [reflexivity |].
  rewrite snd_bind, check_play_mode_world.
  destruct (fst (dict_apply d check_play_mode MM_PLAYBACK_NONE w));
    reflexivity.
Qed.

Lemma stop_play_run (k : string) (v : sound) (w : world P) :
  stop_play k v tt w =
  ((false, tt),
   if mm_platform_is_sound_playing (w_plat w) v
   then mkWorld (w_mm w) (mm_platform_stop_sound (w_plat w) v)
                (w_log w ++ [Stop_sound v])
   else w).
Proof.
  unfold stop_play, bind, ask, call_, call, pure.
  destruct (mm_platform_is_sound_playing (w_plat w) v); reflexivity.
Qed.

(** [dict_apply (sounds, stop_play)] on a platform where stopping one sound
    does not change whether another one plays. *)
Lemma stop_play_all (d : dict) (w : world P) :
  (forall p x y, x <> y ->
     mm_platform_is_sound_playing (mm_platform_stop_sound p x) y
     = mm_platform_is_sound_playing p y) ->
  exists stops,
    w_log (snd (dict_apply d stop_play tt w)) = w_log w ++ stops /\
    (forall c, In c stops ->
       exists x, c = Stop_sound x /\ In x (dict_values d)) /\
    (forall x, In x (dict_values d) ->
       mm_platform_is_sound_playing (w_plat w) x = true ->
       In (Stop_sound x) stops).
Proof.
  intros Hframe. revert w. induction d as [| [k v] d IH]; intros w.
  - exists []. simpl. rewrite app_nil_r.
    repeat split; intros; contradiction.
  - cbn [dict_apply]. rewrite snd_bind, stop_play_run. cbn [fst snd].
    destruct (mm_platform_is_sound_playing (w_plat w) v) eqn:Hv.
    + destruct (IH (mkWorld (w_mm w) (mm_platform_stop_sound (w_plat w) v)
                            (w_log w ++ [Stop_sound v])))
        as [stops [Hlog [Hall Hplaying]]].
      exists (Stop_sound v :: stops). cbn [w_log w_plat] in *.
      rewrite Hlog, <- app_assoc. split; [reflexivity | split].
      * intros c [<- | Hc].
        -- exists v. split; [reflexivity | left; reflexivity].
        -- destruct (Hall c Hc) as [x [-> Hx]].
           exists x. split; [reflexivity | right; exact Hx].
      * intros x Hx Hp. destruct (sound_eqb v x) eqn:Eq.
        -- apply sound_eqb_eq in Eq. subst. left. reflexivity.
        -- assert (Hne : v <> x).
           { intros ->. assert (E : sound_eqb x x = true)
               by (apply sound_eqb_eq; reflexivity). congruence. }
           destruct Hx as [Hx | Hx]; [simpl in Hx; congruence |].
           right. apply Hplaying; [exact Hx |].
           rewrite (Hframe _ _ _ Hne). exact Hp.
    + destruct (IH w) as [stops [Hlog [Hall Hplaying]]].
      exists stops. split; [exact Hlog | split].
      * intros c Hc. destruct (Hall c Hc) as [x [-> Hx]].
        exists x. split; [reflexivity | right; exact Hx].
      * intros x [Hx | Hx] Hp; [simpl in Hx; congruence |].
        apply Hplaying; assumption.
Qed.

(** C4. On a platform where stopping one sound does not change whether
    another one plays, a play-media command for a registered sound [s] of
    positive priority that passes the filter appends, in this order: one
    [mm_platform_stop_sound] for every registered sound the platform reports
    as playing (and stops of registered sounds only), the call entry and
    route update of a call-media sound outside a call, and last the
    [mm_platform_play_sound] of [s]. *)
Theorem priority_preempts (name : string) (s : sound) (w : world P) :
  (forall p x y, x <> y ->
     mm_platform_is_sound_playing (mm_platform_stop_sound p x) y
     = mm_platform_is_sound_playing p y) ->
  dict_lookup (sounds (w_mm w)) name = Some s ->
  0 < priority s ->
  fst (mediamgr_can_play_sound (sounds (w_mm w)) s w) = true ->
  exists stops rest,
    w_log (exec (mqueue_handler (MM_MARSHAL_PLAY_MEDIA name)) w)
      = w_log w ++ stops ++ rest ++ [Play_sound s] /\
    (forall x, In x (dict_values (sounds (w_mm w))) ->
       mm_platform_is_sound_playing (w_plat w) x = true ->
       In (Stop_sound x) stops) /\
    (forall c, In c stops ->
       exists x, c = Stop_sound x /\ In x (dict_values (sounds (w_mm w)))) /\
    (forall x, ~ In (Play_sound x) rest /\ ~ In (Stop_sound x) rest).
Proof.
  intros Hframe Hlook Hprio Hcan.
  destruct (stop_play_all (sounds (w_mm w)) w Hframe)
    as [stops [Hlog [Hall Hplaying]]].
  set (w1 := snd (dict_apply (sounds (w_mm w)) stop_play tt w)) in *.
  set (Q := fun c : mm_call =>
              forall x, c <> Play_sound x /\ c <> Stop_sound x).
  assert (Hrest : appends Q
            (if is_call_media s && negb (in_call (call_state (w_mm w)))
             then call_ Enter_call mm_platform_enter_call ;;
                  update_route (P:=P) MM_CALL_START
             else pure tt)).
  { destruct (is_call_media s && negb (in_call (call_state (w_mm w))));
      [| apply appends_pure].
    apply appends_bind; [apply appends_call_; split; discriminate |].
    intros _. apply update_route_appends; intros; split; try discriminate;
      destruct a; discriminate. }
  destruct (Hrest w1) as [rest [Hlog2 HQ]].
  exists stops, rest. split; [| split; [exact Hplaying | split; [exact Hall |]]].
  - unfold exec, mqueue_handler. rewrite snd_bind. cbn [get_mm fst snd].
    rewrite Hlook. rewrite snd_bind, Hcan, can_play_sound_world.
    rewrite (proj2 (Z.ltb_lt _ _) Hprio).
    rewrite snd_bind. fold w1. rewrite snd_bind.
    rewrite call__run. cbn [fst snd w_log].
    rewrite Hlog2, Hlog, <- !app_assoc. reflexivity.
  - intros x. rewrite Forall_forall in HQ. split; intros Hin;
      destruct (HQ _ Hin x) as [H1 H2]; congruence.
Qed.

End Preemption.

(* ===================================================================== *)
(** ** Call-state messages *)
(* ===================================================================== *)

Section CallState.

Context {P : Type} `{PF : mm_platform P}.

Lemma update_route_log (e : mm_route_update_event) (w : world P) :
  exists tail,
    w_log (exec (update_route e) w)
      = w_log w ++ Info_route (wanted_route e w)
                     (mm_platform_get_route (w_plat w)) :: tail /\
    forallb is_route_tail tail = true.
Proof.
  rewrite update_route_run. cbn [w_log]. eexists. split; [reflexivity |].
  rewrite !forallb_app.
  repeat match goal with
         | |- context [if ?b then _ else _] => destruct b
         end; try reflexivity;
    destruct (wanted_route e w); reflexivity.
Qed.

Lemma route_tail_no_info (tail : list mm_call) :
  forallb is_route_tail tail = true ->
  forallb (fun c => match c with Info_route _ _ => false | _ => true end) tail
    = true.
Proof.
  induction tail as [| c tail IH]; [reflexivity |]. simpl.
  intros H. apply andb_true_iff in H as [Hc Ht].
  rewrite (IH Ht). destruct c; try reflexivity; discriminate.
Qed.

Lemma route_tail_no_mcat (tail : list mm_call) :
  forallb is_route_tail tail = true -> filter is_mcat tail = [].
Proof.
  induction tail as [| c tail IH]; [reflexivity |]. simpl.
  intros H. apply andb_true_iff in H as [Hc Ht].
  rewrite (IH Ht). destruct c; try reflexivity; discriminate.
Qed.

Lemma filter_none (f : mm_call -> bool) (l : list mm_call) :
  Forall (fun c => f c = false) l -> filter f l = [].
Proof.
  induction 1 as [| c l Hc _ IH]; [reflexivity |].
  simpl. rewrite Hc. exact IH.
Qed.

Lemma mediamgr_enter_call_keeps (d : dict) :
  keeps_mm (mediamgr_enter_call (P:=P) d).
Proof.
  unfold mediamgr_enter_call, stop_playing_during_call. repeat keeps_step.
Qed.

Lemma call_state_switch_appends (Q : mm_call -> Prop) (st : mediamgr_state) :
  (forall x, Q (Stop_sound x)) -> Q Enter_call -> Q Exit_call ->
  appends Q (call_state_switch (P:=P) st).
Proof.
  intros Hs He Hx.
  unfold call_state_switch, mediamgr_enter_call, mediamgr_exit_call,
    stop_playing_during_call.
  repeat first [ apply appends_call_; auto | appends_step ].
Qed.

Lemma call_state_switch_outcome (st : mediamgr_state) (w : world P) :
  fst (call_state_switch st w) = call_state_outcome st (call_state (w_mm w)).
Proof.
  unfold call_state_switch, call_state_outcome. rewrite fst_bind.
  cbn [get_mm fst snd].
  destruct st; try (rewrite !fst_bind; reflexivity).
  - destruct (in_call (call_state (w_mm w)));
      [rewrite !fst_bind |]; reflexivity.
  - destruct (call_state (w_mm w)); try reflexivity.
    rewrite !fst_bind. reflexivity.
Qed.

Lemma call_state_switch_video (w : world P) :
  w_mm (snd (call_state_switch MEDIAMGR_STATE_INVIDEOCALL w))
  = set_call_state (w_mm w) MEDIAMGR_STATE_INVIDEOCALL.
Proof.
  unfold call_state_switch. rewrite !snd_bind. cbn [pure snd].
  rewrite mediamgr_enter_call_keeps. reflexivity.
Qed.

(** What a call-state message appends: the lines of the switch, the lines of
    the route update when the state changed, and the [mcat_changed] callback
    with the state of the message when [fire_callback] is set. *)
Lemma call_state_log (st : mediamgr_state) (w : world P) :
  let w1 := snd (call_state_switch st w) in
  let out := call_state_outcome st (call_state (w_mm w)) in
  exists a1 a2,
    w_log (exec (mqueue_handler (MM_MARSHAL_CALL_STATE st)) w)
      = w_log w ++ a1 ++ a2
          ++ (if snd out then [Mcat_changed_h st] else []) /\
    Forall (fun c => is_mcat c = false /\ last_wanted [c] = None) a1 /\
    match fst out with
    | Some e => exists tail,
        a2 = Info_route (wanted_route e w1) (mm_platform_get_route (w_plat w1))
               :: tail /\
        forallb is_route_tail tail = true
    | None => a2 = []
    end /\
    w_mm (exec (mqueue_handler (MM_MARSHAL_CALL_STATE st)) w)
      = match fst out with
        | Some e => w_mm (exec (update_route e) w1)
        | None => w_mm w1
        end.
Proof.
  cbv zeta.
  destruct (call_state_switch_appends
              (fun c => is_mcat c = false /\ last_wanted [c] = None) st
              (fun _ => conj eq_refl eq_refl) (conj eq_refl eq_refl)
              (conj eq_refl eq_refl) w) as [a1 [E1 F1]].
  unfold mqueue_handler. rewrite exec_bind, call_state_switch_outcome.
  set (w1 := snd (call_state_switch st w)) in *.
  set (out := call_state_outcome st (call_state (w_mm w))).
  rewrite exec_bind.
  destruct (fst out) as [e |].
  - destruct (update_route_log e w1) as [tail [E2 F2]].
    fold (exec (update_route e) w1).
    exists a1, (Info_route (wanted_route e w1)
                  (mm_platform_get_route (w_plat w1)) :: tail).
    split; [| split; [exact F1 | split; [exists tail; split; auto |]]].
    + destruct (snd out); rewrite ?exec_emit, ?exec_pure; cbn [w_log];
        rewrite E2, E1; rewrite <- ?app_assoc; cbn; rewrite ?app_nil_r;
        reflexivity.
    + destruct (snd out); rewrite ?exec_emit, ?exec_pure; reflexivity.
  - exists a1, []. change (snd (pure tt w1)) with w1.
    split; [| split; [exact F1 | split; [reflexivity |]]].
    + destruct (snd out); rewrite ?exec_emit, ?exec_pure; cbn [w_log app];
        rewrite E1; rewrite <- ?app_assoc, ?app_nil_r; reflexivity.
    + destruct (snd out); rewrite ?exec_emit, ?exec_pure; reflexivity.
Qed.

Lemma last_wanted_none_app (a b : list mm_call) :
  Forall (fun c => is_mcat c = false /\ last_wanted [c] = None) a ->
  last_wanted (a ++ b) = last_wanted b.
Proof.
  induction 1 as [| c a [_ Hc] _ IH]; [reflexivity |].
  simpl. rewrite IH. destruct (last_wanted b); [reflexivity |].
  simpl in Hc. exact Hc.
Qed.

Lemma mediamgr_enter_call_appends (Q : mm_call -> Prop) (d : dict) :
  (forall x, Q (Stop_sound x)) -> Q Enter_call ->
  appends Q (mediamgr_enter_call (P:=P) d).
Proof.
  intros Hs He.
  unfold mediamgr_enter_call, stop_playing_during_call.
  repeat first [ apply appends_call_; auto | appends_step ].
Qed.

(** An in-video-call message, run: the call state is set, the call is
    entered and the route update of a video call start runs on the result. *)
Lemma call_state_video_run (w : world P) :
  exec (mqueue_handler (MM_MARSHAL_CALL_STATE MEDIAMGR_STATE_INVIDEOCALL)) w =
  exec (update_route MM_VIDEO_CALL_START)
    (exec (mediamgr_enter_call (sounds (w_mm w)))
       (mkWorld (set_call_state (w_mm w) MEDIAMGR_STATE_INVIDEOCALL)
                (w_plat w) (w_log w))).
Proof.
  unfold mqueue_handler, call_state_switch, exec, bind, get_mm, put_mm.
  cbn [fst snd].
  destruct (mediamgr_enter_call _ _) as [u w1]. cbn [pure fst snd].
  destruct (update_route _ w1) as [u2 w2]. reflexivity.
Qed.

(** A call-state message that fires the callback appends it once, last. *)
Lemma call_state_fired (st : mediamgr_state) (w : world P)
    (e : mm_route_update_event) :
  call_state_outcome st (call_state (w_mm w)) = (Some e, true) ->
  exists added,
    w_log (exec (mqueue_handler (MM_MARSHAL_CALL_STATE st)) w)
      = w_log w ++ added /\
    filter is_mcat added = [Mcat_changed_h st] /\
    exists pre, added = pre ++ [Mcat_changed_h st].
Proof.
  intros Hout.
  destruct (call_state_log st w) as [a1 [a2 [Elog [F1 [H2 _]]]]].
  rewrite Hout in Elog, H2. cbn [fst snd] in Elog, H2.
  destruct H2 as [tail [-> Ht]].
  eexists. split; [exact Elog | split].
  - rewrite !filter_app, (filter_none is_mcat a1).
    + cbn. rewrite (route_tail_no_mcat _ Ht). reflexivity.
    + eapply Forall_impl; [| exact F1]. intros c [Hc _]. exact Hc.
  - eexists. rewrite app_assoc. reflexivity.
Qed.

(** C10. A call-state message with state in-video-call sets the call state,
    enters the call and runs the route update of a video call start: the
    route the platform reports is saved as the route before the call, the
    wanted route is the headset, else bluetooth, else the speaker, the
    platform is asked to enable that route, once, exactly when it differs
    from the route the platform reports, the platform the handler leaves is
    the one that enable returns, and no [mcat_changed] callback is appended.
    With state in-call or normal, and with a HOLD received in a call or a
    RESUME received on hold, the handler appends exactly one [mcat_changed]
    callback, as its last line, carrying the state of the message. *)
Theorem call_state_mcat_changed (st : mediamgr_state) (w : world P) :
  let w' := exec (mqueue_handler (MM_MARSHAL_CALL_STATE st)) w in
  let cs := call_state (w_mm w) in
  let r := router (w_mm w) in
  exists added,
    w_log w' = w_log w ++ added /\
    match st with
    | MEDIAMGR_STATE_INVIDEOCALL =>
        let entered :=
          exec (mediamgr_enter_call (sounds (w_mm w)))
               (mkWorld (set_call_state (w_mm w) MEDIAMGR_STATE_INVIDEOCALL)
                        (w_plat w) (w_log w)) in
        let cur := mm_platform_get_route (w_plat entered) in
        let wanted :=
          if wired_hs_is_connected r then MEDIAMGR_AUPLAY_HEADSET
          else if bt_device_is_connected r then MEDIAMGR_AUPLAY_BT
          else MEDIAMGR_AUPLAY_SPEAKER in
        call_state (w_mm w') = MEDIAMGR_STATE_INVIDEOCALL /\
        last_wanted added =
          Some (if wired_hs_is_connected r then MEDIAMGR_AUPLAY_HEADSET
                else if bt_device_is_connected r then MEDIAMGR_AUPLAY_BT
                else MEDIAMGR_AUPLAY_SPEAKER) /\
        filter is_mcat added = [] /\
        route_before_call (router (w_mm w')) = cur /\
        filter is_enable added
          = (if auplay_eqb wanted cur then [] else [enable_line wanted]) /\
        w_plat w'
          = (if auplay_eqb wanted cur then w_plat entered
             else snd (enable_result wanted (w_plat entered)))
    | MEDIAMGR_STATE_INCALL | MEDIAMGR_STATE_NORMAL =>
        filter is_mcat added = [Mcat_changed_h st] /\
        exists pre, added = pre ++ [Mcat_changed_h st]
    | MEDIAMGR_STATE_HOLD =>
        in_call cs = true ->
        filter is_mcat added = [Mcat_changed_h st] /\
        exists pre, added = pre ++ [Mcat_changed_h st]
    | MEDIAMGR_STATE_RESUME =>
        cs = MEDIAMGR_STATE_HOLD ->
        filter is_mcat added = [Mcat_changed_h st] /\
        exists pre, added = pre ++ [Mcat_changed_h st]
    end.
Proof.
  cbv zeta.
  destruct st.
  - (* normal *) apply (call_state_fired _ w MM_CALL_STOP). reflexivity.
  - (* in call *) apply (call_state_fired _ w MM_CALL_START). reflexivity.
  - (* in video call *)
    rewrite call_state_video_run.
    set (w0 := mkWorld (set_call_state (w_mm w) MEDIAMGR_STATE_INVIDEOCALL)
                       (w_plat w) (w_log w)).
    destruct (mediamgr_enter_call_appends
                (fun c => is_mcat c = false /\ is_enable c = false
                          /\ last_wanted [c] = None)
                (sounds (w_mm w))
                (fun _ => conj eq_refl (conj eq_refl eq_refl))
                (conj eq_refl (conj eq_refl eq_refl)) w0) as [a1 [E1 F1]].
    pose proof (mediamgr_enter_call_keeps (sounds (w_mm w)) w0) as Hmm1.
    fold (exec (mediamgr_enter_call (sounds (w_mm w))) w0) in E1, Hmm1.
    set (w1 := exec (mediamgr_enter_call (sounds (w_mm w))) w0) in *.
    assert (HW : wanted_route MM_VIDEO_CALL_START w1
                 = if wired_hs_is_connected (router (w_mm w))
                   then MEDIAMGR_AUPLAY_HEADSET
                   else if bt_device_is_connected (router (w_mm w))
                        then MEDIAMGR_AUPLAY_BT
                        else MEDIAMGR_AUPLAY_SPEAKER).
    { unfold wanted_route. rewrite Hmm1. reflexivity. }
    assert (Hf1 : filter is_mcat a1 = [] /\ filter is_enable a1 = []).
    { split; apply filter_none; (eapply Forall_impl; [| exact F1]);
        intros c (Hc1 & Hc2 & _); assumption. }
    assert (Hl1 : forall b, last_wanted (a1 ++ b) = last_wanted b).
    { intros b. apply last_wanted_none_app.
      eapply Forall_impl; [| exact F1]. intros c (Hc1 & _ & Hc3). auto. }
    rewrite update_route_run. cbn [w_log w_mm w_plat].
    unfold route_request. rewrite HW.
    set (wanted := if wired_hs_is_connected (router (w_mm w))
                   then MEDIAMGR_AUPLAY_HEADSET
                   else if bt_device_is_connected (router (w_mm w))
                        then MEDIAMGR_AUPLAY_BT
                        else MEDIAMGR_AUPLAY_SPEAKER) in *.
    assert (Hen : is_enable (enable_line wanted) = true).
    { unfold wanted.
      destruct (wired_hs_is_connected (router (w_mm w)));
        [reflexivity |].
      destruct (bt_device_is_connected (router (w_mm w))); reflexivity. }
    rewrite E1. unfold w0 at 1. cbn [w_log].
    eexists. split; [rewrite <- app_assoc; reflexivity |].
    split; [| split; [| split; [| split; [| split]]]].
    + rewrite Hmm1. reflexivity.
    + rewrite Hl1.
      apply (last_wanted_app_info []).
      repeat match goal with
             | |- context [if ?b then _ else _] => destruct b
             end; try reflexivity;
        destruct wanted; reflexivity.
    + rewrite filter_app, (proj1 Hf1). cbn [filter is_mcat app].
      rewrite !filter_app.
      repeat match goal with
             | |- context [if ?b then _ else _] => destruct b
             end; try reflexivity;
        destruct wanted; reflexivity.
    + rewrite Hmm1. reflexivity.
    + rewrite filter_app, (proj2 Hf1). cbn [filter is_enable app].
      rewrite !filter_app.
      destruct (auplay_eqb wanted (mm_platform_get_route (w_plat w1)));
        cbn [filter app]; rewrite ?Hen;
        repeat match goal with
               | |- context [if ?b then _ else _] => destruct b
               end; reflexivity.
    + destruct (auplay_eqb wanted (mm_platform_get_route (w_plat w1)));
        reflexivity.
  - (* hold *)
    destruct (in_call (call_state (w_mm w))) eqn:Hin.
    + destruct (call_state_fired MEDIAMGR_STATE_HOLD w MM_CALL_STOP)
        as (added & Hlog & Hfire).
      { cbn [call_state_outcome]. rewrite Hin. reflexivity. }
      exists added. split; [exact Hlog | intros _; exact Hfire].
    + destruct (call_state_log MEDIAMGR_STATE_HOLD w)
        as [a1 [a2 [Elog _]]].
      eexists. split; [exact Elog | discriminate].
  - (* resume *)
    destruct (call_state_log MEDIAMGR_STATE_RESUME w)
      as [a1 [a2 [Elog _]]].
    destruct (call_state (w_mm w)) eqn:Hcs;
      try (eexists; split; [exact Elog | discriminate]).
    destruct (call_state_fired MEDIAMGR_STATE_RESUME w MM_CALL_START)
      as (added & Hlog & Hfire).
    { cbn [call_state_outcome]. rewrite Hcs. reflexivity. }
    exists added. split; [exact Hlog | intros _; exact Hfire].
Qed.

End CallState.

(* ===================================================================== *)
(** ** Payload types *)
(* ===================================================================== *)

Section PayloadTypes.

Import Mediaflow.

Lemma assign_pts_range (codecl : list codec) (pt pt_end : Z) (f : sdp_format) :
  In f (assign_pts pt pt_end codecl) -> pt <= fmt_pt f <= pt_end.
Proof.
  revert pt. induction codecl as [| c codecl IH]; intros pt; simpl.
  - intros [].
  - destruct (Z.leb_spec pt pt_end) as [Hle | Hgt]; [| intros []].
    intros [<- | Hin]; simpl; [lia |].
    specialize (IH (pt + 1) Hin). lia.
Qed.

Lemma select_format_in (offered : list sdp_format) (supported : list codec)
    (f : sdp_format) :
  select_format offered supported = Some f -> In f offered.
Proof.
  induction offered as [| g offered IH]; simpl; [discriminate |].
  destruct (existsb (String.eqb (fmt_codec g)) supported).
  - intros [= ->]. left. reflexivity.
  - intros H. right. apply IH. exact H.
Qed.

(** C7. For an offer generated from any codec lists and an answer that echoes
    the format it selects from that offer, the negotiated audio payload type
    lies in [96, 99], the negotiated video payload type in [100, 110], and
    both lie in the dynamic range [96, 127]. *)
Theorem negotiated_pt_range (aucodecl vidcodecl : list codec)
    (remote_aucodecl remote_vidcodecl : list codec) :
  let offer := generate_offer aucodecl vidcodecl in
  let negotiated := negotiated_pt offer remote_aucodecl remote_vidcodecl in
  (forall pt, fst negotiated = Some pt ->
     96 <= pt <= 99 /\
     MEDIA_PT_DYNAMIC_START <= pt <= MEDIA_PT_DYNAMIC_END) /\
  (forall pt, snd negotiated = Some pt ->
     100 <= pt <= 110 /\
     MEDIA_PT_DYNAMIC_START <= pt <= MEDIA_PT_DYNAMIC_END).
Proof.
  cbv zeta. unfold negotiated_pt, generate_offer. cbn [fst snd sdp_audio sdp_video].
  split; intros pt H.
  - destruct (select_format _ remote_aucodecl) as [f |] eqn:Hsel;
      [| discriminate].
    injection H as <-. apply select_format_in, assign_pts_range in Hsel.
    unfold MEDIA_PT_AUDIO_START, MEDIA_PT_AUDIO_END, MEDIA_PT_DYNAMIC_START,
      MEDIA_PT_DYNAMIC_END in *. lia.
  - destruct (select_format _ remote_vidcodecl) as [f |] eqn:Hsel;
      [| discriminate].
    injection H as <-. apply select_format_in, assign_pts_range in Hsel.
    unfold MEDIA_PT_VIDEO_START, MEDIA_PT_VIDEO_END, MEDIA_PT_DYNAMIC_START,
      MEDIA_PT_DYNAMIC_END in *. lia.
Qed.

End PayloadTypes.

(* ===================================================================== *)
(** ** The loops of the fake audio device *)
(* ===================================================================== *)

Section FakeAudioLoops.

Import FakeAudio.

Variable FRAME_LEN_MS : Z.

Lemma timeradd_to_usec (a b : timeval) :
  to_usec (timeradd a b) = to_usec a + to_usec b.
Proof.
  unfold timeradd, to_usec.
  destruct (1000000 <=? tv_usec a + tv_usec b); simpl; lia.
Qed.

Lemma timersub_to_usec (a b : timeval) :
  to_usec (timersub a b) = to_usec a - to_usec b.
Proof.
  unfold timersub, to_usec.
  destruct (tv_usec a - tv_usec b <? 0); simpl; lia.
Qed.

Lemma timeradd_normalized (a b : timeval) :
  normalized a -> 0 <= tv_usec b <= 1000000 -> normalized (timeradd a b).
Proof.
  unfold normalized, timeradd. intros Ha Hb.
  destruct (Z.leb_spec 1000000 (tv_usec a + tv_usec b)); simpl; lia.
Qed.

Lemma timersub_normalized (a b : timeval) :
  normalized a -> normalized b -> normalized (timersub a b).
Proof.
  unfold normalized, timersub. intros Ha Hb.
  destruct (Z.ltb_spec (tv_usec a - tv_usec b) 0); simpl; lia.
Qed.

Lemma io_iteration_deadline (tr : io_call) (dev : fake_audiodevice)
    (now next : timeval) :
  to_usec (fst (io_iteration FRAME_LEN_MS tr dev now next))
  = to_usec next + FRAME_LEN_MS * 1000.
Proof.
  unfold io_iteration. cbn [fst]. rewrite timeradd_to_usec.
  unfold delta, to_usec. simpl. lia.
Qed.

(** The argument of the [nanosleep] of one turn: zero seconds and the
    microseconds of the time left to the new deadline, nothing when the
    deadline has passed. *)
Lemma io_iteration_sleep (tr : io_call) (dev : fake_audiodevice)
    (now next : timeval) :
  0 <= FRAME_LEN_MS <= 1000 -> normalized now -> normalized next ->
  let left := to_usec next + FRAME_LEN_MS * 1000 - to_usec now in
  snd (io_iteration FRAME_LEN_MS tr dev now next) =
  (if audioCallback_ dev then [tr] else [])
  ++ (if left <? 0 then [Warning_too_slow] else [])
  ++ (if realtime_ dev
      then [Nanosleep 0 (1000 * (if left <? 0 then 0 else left mod 1000000))]
      else []).
Proof.
  intros HF Hnow Hnext. cbv zeta. unfold io_iteration. cbn [snd].
  set (next' := timeradd next (delta FRAME_LEN_MS)).
  assert (Hn' : normalized next').
  { apply timeradd_normalized; [exact Hnext |]. unfold delta. simpl. lia. }
  assert (Hu' : to_usec next' = to_usec next + FRAME_LEN_MS * 1000).
  { unfold next'. rewrite timeradd_to_usec. unfold delta, to_usec. simpl. lia. }
  pose proof (timersub_normalized next' now Hn' Hnow) as Hs.
  pose proof (timersub_to_usec next' now) as Hd.
  set (sleep_time := timersub next' now) in *.
  rewrite <- Hu' in *. unfold normalized in Hs. unfold to_usec at 1 in Hd.
  destruct (Z.ltb_spec (tv_sec sleep_time) 0) as [Hlate | Hok];
    destruct (Z.ltb_spec (to_usec next' - to_usec now) 0) as [Hlt | Hge];
    try lia.
  - reflexivity.
  - assert (Hmod : (to_usec next' - to_usec now) mod 1000000
                   = tv_usec sleep_time).
    { symmetry. apply (Z.mod_unique_pos _ _ (tv_sec sleep_time)); lia. }
    rewrite Hmod, (Z.mul_comm 1000). reflexivity.
Qed.

Lemma io_loop_deadline (tr : io_call) (dev : fake_audiodevice)
    (obs : list (bool * timeval)) (start : timeval) :
  to_usec (fst (io_loop FRAME_LEN_MS tr dev obs start))
  = to_usec start + turns obs * (FRAME_LEN_MS * 1000).
Proof.
  revert start. induction obs as [| [running now] obs IH]; intros start.
  - simpl. lia.
  - cbn [io_loop turns]. destruct running; [| simpl; lia].
    pose proof (io_iteration_deadline tr dev now start) as Hit.
    destruct (io_iteration FRAME_LEN_MS tr dev now start) as [next calls].
    specialize (IH next).
    destruct (io_loop FRAME_LEN_MS tr dev obs next) as [final calls'].
    cbn [fst] in *. lia.
Qed.

Lemma io_loop_calls (f : io_call -> bool) (per_turn : Z) (tr : io_call)
    (dev : fake_audiodevice) (obs : list (bool * timeval)) (start : timeval) :
  (forall now next,
     Z.of_nat (List.length
                 (filter f (snd (io_iteration FRAME_LEN_MS tr dev now next))))
     = per_turn) ->
  Z.of_nat (List.length (filter f (snd (io_loop FRAME_LEN_MS tr dev obs start))))
  = turns obs * per_turn.
Proof.
  intros Hturn. revert start.
  induction obs as [| [running now] obs IH]; intros start.
  - reflexivity.
  - cbn [io_loop turns]. destruct running; [| reflexivity].
    specialize (Hturn now start).
    destruct (io_iteration FRAME_LEN_MS tr dev now start) as [next calls].
    specialize (IH next).
    destruct (io_loop FRAME_LEN_MS tr dev obs next) as [final calls'].
    cbn [snd] in *. rewrite filter_app, length_app, Nat2Z.inj_add. lia.
Qed.

Lemma io_loop_forall (Q : io_call -> Prop) (tr : io_call)
    (dev : fake_audiodevice) (obs : list (bool * timeval)) (start : timeval) :
  (forall now next,
     Forall Q (snd (io_iteration FRAME_LEN_MS tr dev now next))) ->
  Forall Q (snd (io_loop FRAME_LEN_MS tr dev obs start)).
Proof.
  intros Hturn. revert start.
  induction obs as [| [running now] obs IH]; intros start.
  - constructor.
  - cbn [io_loop]. destruct running; [| constructor].
    specialize (Hturn now start).
    destruct (io_iteration FRAME_LEN_MS tr dev now start) as [next calls].
    specialize (IH next).
    destruct (io_loop FRAME_LEN_MS tr dev obs next) as [final calls'].
    cbn [snd] in *. apply Forall_app. split; assumption.
Qed.

Lemma io_iteration_transports (tr : io_call) (dev : fake_audiodevice)
    (now next : timeval) :
  is_transport tr = true ->
  Z.of_nat (List.length (filter is_transport
              (snd (io_iteration FRAME_LEN_MS tr dev now next))))
  = (if audioCallback_ dev then 1 else 0).
Proof.
  intros Htr. unfold io_iteration. cbn [snd].
  destruct (audioCallback_ dev), (realtime_ dev),
    (tv_sec (timersub (timeradd next (delta FRAME_LEN_MS)) now) <? 0);
    cbn; rewrite ?Htr; reflexivity.
Qed.

Lemma io_iteration_nanosleeps (tr : io_call) (dev : fake_audiodevice)
    (now next : timeval) :
  is_transport tr = true ->
  Z.of_nat (List.length (filter is_nanosleep
              (snd (io_iteration FRAME_LEN_MS tr dev now next))))
  = (if realtime_ dev then 1 else 0).
Proof.
  intros Htr. unfold io_iteration. cbn [snd].
  destruct (audioCallback_ dev), (realtime_ dev),
    (tv_sec (timersub (timeradd next (delta FRAME_LEN_MS)) now) <? 0);
    destruct tr; try discriminate; reflexivity.
Qed.

Lemma io_iteration_lines (tr : io_call) (dev : fake_audiodevice)
    (now next : timeval) :
  Forall (fun c => c = tr \/ c = Warning_too_slow \/ is_nanosleep c = true)
         (snd (io_iteration FRAME_LEN_MS tr dev now next)).
Proof.
  unfold io_iteration. cbn [snd].
  destruct (audioCallback_ dev), (realtime_ dev),
    (tv_sec (timersub (timeradd next (delta FRAME_LEN_MS)) now) <? 0);
    cbn; repeat (match goal with |- Forall _ _ => constructor end); auto.
Qed.

(** C8, as amended. Over any observations of the running flag and the clock,
    the record loop and the playout loop each end with a deadline
    [FRAME_LEN_MS] milliseconds later per turn; call their own transport
    method once per turn when a transport is registered and never otherwise;
    and call [nanosleep] once per turn when [realtime_] is set and never
    when it is not. In one turn (for a frame of at most a second and
    normalized clock values) the transport call comes first and the
    [nanosleep] last; its request has zero seconds and, as nanoseconds, the
    microseconds of the time left to the new deadline: the whole time left
    when that is under a second, nothing when the deadline has passed, and
    only the part under a second otherwise. *)
Theorem fake_audiodevice_loops (dev : fake_audiodevice) (start : timeval)
    (obs : list (bool * timeval)) :
  let rec := record_thread FRAME_LEN_MS dev start obs in
  let play := playout_thread FRAME_LEN_MS dev start obs in
  let frame_us := FRAME_LEN_MS * 1000 in
  (to_usec (fst rec) = to_usec start + turns obs * frame_us /\
   to_usec (fst play) = to_usec start + turns obs * frame_us) /\
  (Z.of_nat (List.length (filter is_transport (snd rec)))
     = (if audioCallback_ dev then turns obs else 0) /\
   Z.of_nat (List.length (filter is_transport (snd play)))
     = (if audioCallback_ dev then turns obs else 0)) /\
  (Forall (fun c => c = RecordedDataIsAvailable \/ c = Warning_too_slow
                    \/ is_nanosleep c = true) (snd rec) /\
   Forall (fun c => c = NeedMorePlayData \/ c = Warning_too_slow
                    \/ is_nanosleep c = true) (snd play)) /\
  (Z.of_nat (List.length (filter is_nanosleep (snd rec)))
     = (if realtime_ dev then turns obs else 0) /\
   Z.of_nat (List.length (filter is_nanosleep (snd play)))
     = (if realtime_ dev then turns obs else 0)) /\
  (forall tr now next,
     0 <= FRAME_LEN_MS <= 1000 -> normalized now -> normalized next ->
     let left := to_usec next + frame_us - to_usec now in
     to_usec (fst (io_iteration FRAME_LEN_MS tr dev now next))
       = to_usec next + frame_us /\
     snd (io_iteration FRAME_LEN_MS tr dev now next) =
       (if audioCallback_ dev then [tr] else [])
       ++ (if left <? 0 then [Warning_too_slow] else [])
       ++ (if realtime_ dev
           then [Nanosleep 0
                   (1000 * (if left <? 0 then 0 else left mod 1000000))]
           else []) /\
     (left < 1000000 ->
      (if left <? 0 then 0 else left mod 1000000) = Z.max 0 left)).
Proof.
  cbv zeta. unfold record_thread, playout_thread.
  split; [| split; [| split; [| split]]].
  - split; apply io_loop_deadline.
  - split.
    + rewrite (io_loop_calls is_transport (if audioCallback_ dev then 1 else 0)).
      * destruct (audioCallback_ dev); lia.
      * intros. apply io_iteration_transports. reflexivity.
    + rewrite (io_loop_calls is_transport (if audioCallback_ dev then 1 else 0)).
      * destruct (audioCallback_ dev); lia.
      * intros. apply io_iteration_transports. reflexivity.
  - split; apply io_loop_forall; intros; apply io_iteration_lines.
  - split.
    + rewrite (io_loop_calls is_nanosleep (if realtime_ dev then 1 else 0)).
      * destruct (realtime_ dev); lia.
      * intros. apply io_iteration_nanosleeps. reflexivity.
    + rewrite (io_loop_calls is_nanosleep (if realtime_ dev then 1 else 0)).
      * destruct (realtime_ dev); lia.
      * intros. apply io_iteration_nanosleeps. reflexivity.
  - intros tr now next HF Hnow Hnext. split; [| split].
    + apply io_iteration_deadline.
    + apply io_iteration_sleep; assumption.
    + intros Hsoon.
      destruct (Z.ltb_spec (to_usec next + FRAME_LEN_MS * 1000 - to_usec now) 0)
        as [Hlt | Hge]; [lia |].
      rewrite Z.mod_small by lia. lia.
Qed.

End FakeAudioLoops.

(* ===================================================================== *)
(** ** The simulated platform: laws and runs *)
(* ===================================================================== *)

Lemma sound_eqb_neq (a b : sound) : a <> b -> sound_eqb a b = false.
Proof.
  intros H. destruct (sound_eqb a b) eqn:E; [| reflexivity].
  apply sound_eqb_eq in E. contradiction.
Qed.

Lemma sim_stop_frame (p : sim_platform) (x y : sound) :
  x <> y -> sim_is_playing (sim_stop p x) y = sim_is_playing p y.
Proof.
  intros Hne. unfold sim_is_playing, sim_stop, sim_set_playing. simpl.
  induction (sim_playing p) as [| z l IH]; [reflexivity |].
  simpl. destruct (sound_eqb x z) eqn:Ez; simpl.
  - apply sound_eqb_eq in Ez. subst z.
    rewrite (sound_eqb_neq y x) by congruence. exact IH.
  - rewrite IH. reflexivity.
Qed.

Lemma sim_stop_idle (p : sim_platform) (x : sound) :
  sim_is_playing p x = false -> sim_stop p x = p.
Proof.
  unfold sim_is_playing, sim_stop, sim_set_playing. intros H.
  assert (E : filter (fun z => negb (sound_eqb x z)) (sim_playing p)
              = sim_playing p).
  { induction (sim_playing p) as [| z l IH]; [reflexivity |].
    simpl in *. apply orb_false_iff in H as [Hz Hl].
    rewrite Hz. simpl. rewrite (IH Hl). reflexivity. }
  rewrite E. destruct p. reflexivity.
Qed.

(** The router scenario of the specification on a platform that follows
    every request: headset plugged, call started, headset unplugged, speaker
    enabled, call stopped; the handler receives headset, headset, earpiece,
    speaker, earpiece. *)
Example router_scenario :
  filter (fun c => match c with Route_changed_h _ => true | _ => false end)
    (w_log (run [MM_MARSHAL_HEADSET_CONNECTED true;
                 MM_MARSHAL_CALL_STATE MEDIAMGR_STATE_INCALL;
                 MM_MARSHAL_HEADSET_CONNECTED false;
                 MM_MARSHAL_ENABLE_SPEAKER true;
                 MM_MARSHAL_CALL_STATE MEDIAMGR_STATE_NORMAL]
                (sim_world sim_ideal)))
  = [Route_changed_h MEDIAMGR_AUPLAY_HEADSET;
     Route_changed_h MEDIAMGR_AUPLAY_HEADSET;
     Route_changed_h MEDIAMGR_AUPLAY_EARPIECE;
     Route_changed_h MEDIAMGR_AUPLAY_SPEAKER;
     Route_changed_h MEDIAMGR_AUPLAY_EARPIECE].
Proof. vm_compute. reflexivity. Qed.

(** The ringtone scenario of the specification: while the ringtone (priority
    1, exclusive) plays, the notification is refused; once the ringtone is
    stopped it plays. *)
Example ringtone_scenario :
  filter (fun c => match c with Play_sound _ => true | _ => false end)
    (w_log (run (register_sounds ++
                 [MM_MARSHAL_PLAY_MEDIA "ringtone";
                  MM_MARSHAL_PLAY_MEDIA "notif"])
                (sim_world sim_ideal)))
  = [Play_sound ringtone] /\
  filter (fun c => match c with Play_sound _ => true | _ => false end)
    (w_log (run (register_sounds ++
                 [MM_MARSHAL_PLAY_MEDIA "ringtone";
                  MM_MARSHAL_STOP_MEDIA "ringtone";
                  MM_MARSHAL_PLAY_MEDIA "notif"])
                (sim_world sim_ideal)))
  = [Play_sound ringtone; Play_sound notif].
Proof. vm_compute. split; reflexivity. Qed.

(** C1 on a run: a video call starts with a BT device connected and no
    headset. *)
Example video_call_start_bt :
  let w := run [MM_MARSHAL_BT_DEVICE_CONNECTED true;
                MM_MARSHAL_ENABLE_SPEAKER true] (sim_world sim_ideal) in
  let w' := exec (update_route MM_VIDEO_CALL_START) w in
  route_before_call (router (w_mm w')) = MEDIAMGR_AUPLAY_SPEAKER /\
  last_wanted (w_log w') = Some MEDIAMGR_AUPLAY_BT /\
  prefer_loudspeaker (router (w_mm w)) = true /\
  prefer_loudspeaker (router (w_mm w')) = false.
Proof. vm_compute. repeat split. Qed.

(** C2, the claim as stated, fails: after a headset is plugged and the call
    state is set to normal, the wired headset is connected, the loudspeaker
    is not preferred, no call is active, and the wanted route the router
    computed is the earpiece. *)
Lemma headset_then_call_stop_wants_earpiece :
  let w := run [MM_MARSHAL_HEADSET_CONNECTED true;
                MM_MARSHAL_CALL_STATE MEDIAMGR_STATE_NORMAL]
               (init_world 100 sim_ideal) in
  wired_hs_is_connected (router (w_mm w)) = true /\
  prefer_loudspeaker (router (w_mm w)) = false /\
  in_call (call_state (w_mm w)) = false /\
  last_wanted (w_log w) = Some MEDIAMGR_AUPLAY_EARPIECE /\
  last_wanted (w_log w) <> Some MEDIAMGR_AUPLAY_HEADSET.
Proof. vm_compute. repeat split. discriminate. Qed.

Lemma wired_headset_wanted_witness :
  let w := run [MM_MARSHAL_HEADSET_CONNECTED true;
                MM_MARSHAL_ENABLE_SPEAKER true] (init_world 100 sim_ideal) in
  let w' := exec (update_route MM_SPEAKER_DISABLE_REQUEST) w in
  (wired_hs_is_connected (router (w_mm w')) = true /\
   prefer_loudspeaker (router (w_mm w')) = false /\
   in_call (call_state (w_mm w')) = false) /\
  last_wanted (w_log w') = Some MEDIAMGR_AUPLAY_HEADSET.
Proof.
  split; [repeat split |].
  apply (wired_headset_wanted 100 sim_ideal
           [MM_MARSHAL_HEADSET_CONNECTED true; MM_MARSHAL_ENABLE_SPEAKER true]
           MM_SPEAKER_DISABLE_REQUEST); reflexivity.
Defined.

(** C5, the claim as stated, fails when the platform request fails: with no
    call active, the headset wanted and the platform still on the earpiece,
    the handler receives the earpiece, not the headset; and in a call the
    failed request leaves no error line. *)
Lemma failed_request_keeps_observed_route :
  let w := sim_world sim_failing in
  let w' := exec (update_route MM_HEADSET_PLUGGED) w in
  let v := run [MM_MARSHAL_CALL_STATE MEDIAMGR_STATE_INCALL] w in
  let v' := exec (update_route MM_HEADSET_PLUGGED) v in
  (in_call (call_state (w_mm w)) = false /\
   wanted_route MM_HEADSET_PLUGGED w = MEDIAMGR_AUPLAY_HEADSET /\
   mm_platform_get_route (w_plat w') = MEDIAMGR_AUPLAY_EARPIECE /\
   w_log w' = [Info_route MEDIAMGR_AUPLAY_HEADSET MEDIAMGR_AUPLAY_EARPIECE;
               Enable_headset;
               Route_changed_h MEDIAMGR_AUPLAY_EARPIECE]) /\
  (in_call (call_state (w_mm v)) = true /\
   wanted_route MM_HEADSET_PLUGGED v = MEDIAMGR_AUPLAY_HEADSET /\
   mm_platform_get_route (w_plat v') = MEDIAMGR_AUPLAY_EARPIECE /\
   filter is_error_route (w_log v') = []).
Proof. vm_compute. repeat split. Qed.

Lemma update_route_effective_route_witness :
  let w := sim_world sim_stubborn in
  route_changed_h (w_mm w) = true /\
  exists added final,
    w_log (exec (update_route MM_HEADSET_PLUGGED) w)
      = w_log w ++ added ++ [Route_changed_h final] /\
    final = MEDIAMGR_AUPLAY_HEADSET.
Proof.
  cbv zeta. split; [reflexivity |].
  destruct (update_route_effective_route MM_HEADSET_PLUGGED
              (sim_world sim_stubborn) eq_refl)
    as (added & final & Hlog & _ & _ & _ & _ & Hopt & _).
  exists added, final. split; [exact Hlog |].
  apply Hopt; [discriminate | vm_compute; discriminate | reflexivity].
Defined.

Lemma intensity_filter_witness :
  let w := run (register_sounds ++ [MM_MARSHAL_SET_INTENSITY 10])
               (sim_world sim_ideal) in
  intensity_thres (w_mm w) < intensity ping /\
  exec (mqueue_handler (MM_MARSHAL_PLAY_MEDIA "ping")) w = w.
Proof.
  cbv zeta. split; [reflexivity |].
  apply (proj1 (intensity_filter ping
                  (run (register_sounds ++ [MM_MARSHAL_SET_INTENSITY 10])
                       (sim_world sim_ideal)) eq_refl)).
  reflexivity.
Defined.

Lemma priority_preempts_witness :
  let w := run (register_sounds ++ [MM_MARSHAL_PLAY_MEDIA "notif"])
               (sim_world sim_ideal) in
  mm_platform_is_sound_playing (w_plat w) notif = true /\
  exists stops rest,
    w_log (exec (mqueue_handler (MM_MARSHAL_PLAY_MEDIA "ringtone")) w)
      = w_log w ++ stops ++ rest ++ [Play_sound ringtone] /\
    In (Stop_sound notif) stops.
Proof.
  cbv zeta. split; [reflexivity |].
  set (w := run (register_sounds ++ [MM_MARSHAL_PLAY_MEDIA "notif"])
                (sim_world sim_ideal)).
  assert (Hlook : dict_lookup (sounds (w_mm w)) "ringtone" = Some ringtone)
    by (vm_compute; reflexivity).
  assert (Hcan : fst (mediamgr_can_play_sound (sounds (w_mm w)) ringtone w)
                 = true) by (vm_compute; reflexivity).
  destruct (priority_preempts (PF:=sim_mm_platform) "ringtone" ringtone w
              sim_stop_frame Hlook eq_refl Hcan)
    as (stops & rest & Hlog & Hplaying & _).
  exists stops, rest. split; [exact Hlog |].
  apply Hplaying; [vm_compute; tauto | reflexivity].
Defined.

(** C6, the claim as stated, fails for a call-media sound outside a call:
    the ringtone is registered and not playing, the speaker is enabled; the
    stop of the ringtone clears the loudspeaker preference of the router and
    moves the platform from the speaker to the earpiece. *)
Lemma stop_of_stopped_call_media_reroutes :
  let w := run (register_sounds ++ [MM_MARSHAL_ENABLE_SPEAKER true])
               (sim_world sim_ideal) in
  let w' := exec (mqueue_handler (MM_MARSHAL_STOP_MEDIA "ringtone")) w in
  dict_lookup (sounds (w_mm w)) "ringtone" = Some ringtone /\
  mm_platform_is_sound_playing (w_plat w) ringtone = false /\
  prefer_loudspeaker (router (w_mm w)) = true /\
  prefer_loudspeaker (router (w_mm w')) = false /\
  router (w_mm w') <> router (w_mm w) /\
  mm_platform_get_route (w_plat w) = MEDIAMGR_AUPLAY_SPEAKER /\
  mm_platform_get_route (w_plat w') = MEDIAMGR_AUPLAY_EARPIECE.
Proof. vm_compute. repeat split. discriminate. Qed.

Lemma stop_media_when_stopped_witness :
  let w := run register_sounds (sim_world sim_ideal) in
  let w' := exec (mqueue_handler (MM_MARSHAL_STOP_MEDIA "notif")) w in
  (dict_lookup (sounds (w_mm w)) "notif" = Some notif /\
   mm_platform_is_sound_playing (w_plat w) notif = false /\
   is_call_media notif = false) /\
  w_mm w' = w_mm w /\ w_plat w' = w_plat w /\
  w_log w' = w_log w ++ [Stop_sound notif].
Proof.
  cbv zeta. split; [repeat split |].
  apply (stop_media_when_stopped (PF:=sim_mm_platform) "notif" notif
           (run register_sounds (sim_world sim_ideal)) sim_stop_idle);
    [reflexivity | reflexivity | left; reflexivity].
Defined.

Lemma hold_resume_guard_witness :
  let w := sim_world sim_ideal in
  in_call (call_state (w_mm w)) = false /\
  exec (mqueue_handler (MM_MARSHAL_CALL_STATE MEDIAMGR_STATE_HOLD)) w = w /\
  exec (mqueue_handler (MM_MARSHAL_CALL_STATE MEDIAMGR_STATE_RESUME)) w = w.
Proof.
  cbv zeta. split; [reflexivity | split].
  - apply (proj1 (hold_resume_guard (sim_world sim_ideal))). reflexivity.
  - apply (proj2 (hold_resume_guard (sim_world sim_ideal))). discriminate.
Defined.

Lemma call_state_mcat_changed_witness :
  let w := run [MM_MARSHAL_CALL_STATE MEDIAMGR_STATE_INVIDEOCALL]
               (sim_world sim_ideal) in
  in_call (call_state (w_mm w)) = true /\
  exists added,
    w_log (exec (mqueue_handler (MM_MARSHAL_CALL_STATE MEDIAMGR_STATE_HOLD)) w)
      = w_log w ++ added /\
    filter is_mcat added = [Mcat_changed_h MEDIAMGR_STATE_HOLD].
Proof.
  cbv zeta. split; [reflexivity |].
  destruct (call_state_mcat_changed MEDIAMGR_STATE_HOLD
              (run [MM_MARSHAL_CALL_STATE MEDIAMGR_STATE_INVIDEOCALL]
                   (sim_world sim_ideal)))
    as (added & Hlog & Hfire).
  exists added. split; [exact Hlog |].
  apply Hfire. reflexivity.
Defined.

(** A video call start on a run: the call state and the route are updated
    and the log holds no [mcat_changed] callback. *)
Example video_call_state_silent :
  let w := run [MM_MARSHAL_CALL_STATE MEDIAMGR_STATE_INVIDEOCALL]
               (sim_world sim_ideal) in
  call_state (w_mm w) = MEDIAMGR_STATE_INVIDEOCALL /\
  w_log w = [Enter_call;
             Info_route MEDIAMGR_AUPLAY_SPEAKER MEDIAMGR_AUPLAY_EARPIECE;
             Enable_speaker;
             Route_changed_h MEDIAMGR_AUPLAY_SPEAKER].
Proof. vm_compute. split; reflexivity. Qed.

Lemma negotiated_pt_range_witness :
  let offer := Mediaflow.generate_offer ["opus"%string] ["vp8"%string] in
  Mediaflow.negotiated_pt offer ["opus"%string] ["vp8"%string]
    = (Some 96, Some 100) /\
  (96 <= 96 <= 99 /\
   Mediaflow.MEDIA_PT_DYNAMIC_START <= 96 <= Mediaflow.MEDIA_PT_DYNAMIC_END) /\
  (100 <= 100 <= 110 /\
   Mediaflow.MEDIA_PT_DYNAMIC_START <= 100 <= Mediaflow.MEDIA_PT_DYNAMIC_END).
Proof.
  cbv zeta. split; [reflexivity | split].
  - apply (proj1 (negotiated_pt_range ["opus"%string] ["vp8"%string]
                    ["opus"%string] ["vp8"%string]) 96). reflexivity.
  - apply (proj2 (negotiated_pt_range ["opus"%string] ["vp8"%string]
                    ["opus"%string] ["vp8"%string]) 100). reflexivity.
Defined.

(** More codecs than payload types of the range: the fifth audio codec is
    not offered. *)
Example assign_pts_full :
  map Mediaflow.fmt_pt
    (Mediaflow.sdp_audio
       (Mediaflow.generate_offer
          ["a"; "b"; "c"; "d"; "e"]%string []))
  = [96; 97; 98; 99].
Proof. reflexivity. Qed.

(** C8, the claim as stated, fails when the new deadline is a second or more
    ahead of the clock: with 2.11 s left to the deadline the turn asks
    [nanosleep] for 0.11 s, the seconds of the time left being dropped. *)
Lemma sleep_drops_whole_seconds :
  let dev := FakeAudio.mkDevice true true in
  let now := FakeAudio.mkTimeval 100 0 in
  let next := FakeAudio.mkTimeval 102 100000 in
  let turn := FakeAudio.io_iteration 10 FakeAudio.RecordedDataIsAvailable
                dev now next in
  FakeAudio.to_usec (fst turn) - FakeAudio.to_usec now = 2110000 /\
  snd turn = [FakeAudio.RecordedDataIsAvailable;
              FakeAudio.Nanosleep 0 110000000] /\
  snd turn <> [FakeAudio.RecordedDataIsAvailable;
               FakeAudio.Nanosleep 2 110000000].
Proof. vm_compute. repeat split. discriminate. Qed.

Lemma fake_audiodevice_loops_witness :
  let dev := FakeAudio.mkDevice true true in
  let now := FakeAudio.mkTimeval 100 995000 in
  let next := FakeAudio.mkTimeval 100 990000 in
  FakeAudio.to_usec (fst (FakeAudio.io_iteration 10
                            FakeAudio.RecordedDataIsAvailable dev now next))
    = 100000000 + 990000 + 10000 /\
  snd (FakeAudio.io_iteration 10 FakeAudio.RecordedDataIsAvailable dev now next)
    = [FakeAudio.RecordedDataIsAvailable; FakeAudio.Nanosleep 0 5000000].
Proof.
  cbv zeta.
  assert (Hn : forall s u, 0 <= u < 1000000 ->
                           FakeAudio.normalized (FakeAudio.mkTimeval s u))
    by (intros s u Hu; exact Hu).
  destruct (proj2 (proj2 (proj2 (proj2
              (fake_audiodevice_loops 10 (FakeAudio.mkDevice true true)
                 (FakeAudio.mkTimeval 100 990000) []))))
              FakeAudio.RecordedDataIsAvailable
              (FakeAudio.mkTimeval 100 995000) (FakeAudio.mkTimeval 100 990000)
              ltac:(lia) (Hn 100 995000 ltac:(lia)) (Hn 100 990000 ltac:(lia)))
    as (Hd & Hc & _).
  split; [exact Hd | rewrite Hc; reflexivity].
Defined.

(** Three turns of the record loop without real time: three transport calls,
    no [nanosleep], the deadline thirty milliseconds after the start, while
    the clock has not moved. *)
Example record_thread_not_realtime :
  let t := FakeAudio.mkTimeval 5 999000 in
  FakeAudio.record_thread 10 (FakeAudio.mkDevice true false) t
    [(true, t); (true, t); (true, t); (false, t); (true, t)]
  = (FakeAudio.mkTimeval 6 29000,
     [FakeAudio.RecordedDataIsAvailable; FakeAudio.RecordedDataIsAvailable;
      FakeAudio.RecordedDataIsAvailable]).
Proof. reflexivity. Qed.

(* ===================================================================== *)
(** ** Appending under an invariant of the structure *)
(* ===================================================================== *)

Section UnderFacts.

Context {P : Type} `{PF : mm_platform P}.

Variable I : mediamgr -> Prop.
Variable Q : mm_call -> Prop.

Lemma under_pure {A} (a : A) : appends_under I Q (pure (P:=P) a).
Proof.
  intros w Hw. split; [| exact Hw].
  exists []. rewrite app_nil_r. split; [reflexivity | constructor].
Qed.

Lemma under_bind {A B} (m : MM P A) (k : A -> MM P B) :
  appends_under I Q m -> (forall a, appends_under I Q (k a)) ->
  appends_under I Q (bind m k).
Proof.
  intros Hm Hk w Hw. rewrite snd_bind.
  destruct (Hm w Hw) as [[a1 [E1 F1]] I1].
  destruct (Hk (fst (m w)) (snd (m w)) I1) as [[a2 [E2 F2]] I2].
  split; [| exact I2].
  exists (a1 ++ a2). rewrite E2, E1, app_assoc. split; [reflexivity |].
  apply Forall_app. split; assumption.
Qed.

Lemma under_keeps {A} (m : MM P A) :
  appends Q m -> keeps_mm m -> appends_under I Q m.
Proof.
  intros Ha Hk w Hw. split; [apply Ha |]. rewrite Hk. exact Hw.
Qed.

Lemma under_get {A} (k : mediamgr -> MM P A) :
  (forall mm, I mm -> appends_under I Q (k mm)) ->
  appends_under I Q (bind get_mm k).
Proof.
  intros Hk w Hw. rewrite snd_bind. cbn [get_mm fst snd].
  apply Hk; exact Hw.
Qed.

Lemma under_put (mm : mediamgr) : I mm -> appends_under I Q (put_mm (P:=P) mm).
Proof.
  intros Hmm w _. split; [| exact Hmm].
  exists []. cbn. rewrite app_nil_r. split; [reflexivity | constructor].
Qed.

Lemma under_emit (c : mm_call) : Q c -> appends_under I Q (emit (P:=P) c).
Proof.
  intros Hc. apply under_keeps; [apply appends_emit; exact Hc |].
  apply keeps_mm_emit.
Qed.

Lemma under_call_ (c : mm_call) (f : P -> P) :
  Q c -> appends_under I Q (call_ c f).
Proof.
  intros Hc. apply under_keeps; [apply appends_call_; exact Hc |].
  apply keeps_mm_call.
Qed.

Lemma under_ask {A} (q : P -> A) : appends_under I Q (ask q).
Proof. apply under_keeps; [apply appends_ask | apply keeps_mm_ask]. Qed.

Lemma under_dict_apply {A} (d : dict)
    (h : string -> sound -> A -> MM P (bool * A)) (arg : A) :
  (forall k v a, appends_under I Q (h k v a)) ->
  appends_under I Q (dict_apply d h arg).
Proof.
  intros Hh. revert arg. induction d as [| [k v] d IH]; intros arg; simpl.
  - apply under_pure.
  - apply under_bind; [apply Hh |].
    intros [stop a]. simpl. destruct stop; [apply under_pure | apply IH].
Qed.

(** The lines of the handler that are not lines of [update_route]. *)
Hypothesis Q_other :
  forall c, is_route_tail c = false -> (forall a b, c <> Info_route a b) -> Q c.
Hypothesis Q_route : forall e, appends_under I Q (update_route (P:=P) e).
Hypothesis I_call_state : forall mm st, I mm -> I (call_state_write st mm).
Hypothesis I_sounds : forall mm d, I mm -> I (set_sounds mm d).
Hypothesis I_intensity : forall mm i, I mm -> I (set_intensity_thres mm i).

Lemma can_play_sound_under (d : dict) (s : sound) :
  appends_under I Q (mediamgr_can_play_sound (P:=P) d s).
Proof.
  apply under_keeps; [apply can_play_sound_appends |].
  unfold mediamgr_can_play_sound, check_play_mode.
  apply keeps_mm_bind; [intros w; reflexivity |]. intros mm.
  repeat keeps_step.
Qed.

Lemma enter_call_under (d : dict) :
  appends_under I Q (mediamgr_enter_call (P:=P) d).
Proof.
  apply under_keeps; [| apply mediamgr_enter_call_keeps].
  unfold mediamgr_enter_call, stop_playing_during_call.
  repeat first
    [ apply appends_call_; apply Q_other; [reflexivity | intros; discriminate]
    | appends_step ].
Qed.

Lemma call_state_switch_under (st : mediamgr_state) :
  appends_under I Q (call_state_switch (P:=P) st).
Proof.
  unfold call_state_switch. apply under_get. intros mm Hmm.
  assert (Hx : appends_under I Q (mediamgr_exit_call (P:=P) (sounds mm))).
  { unfold mediamgr_exit_call. apply under_call_.
    apply Q_other; [reflexivity | intros; discriminate]. }
  pose proof (I_call_state mm st Hmm) as Hw.
  destruct st; cbn [call_state_write] in Hw.
  - apply under_bind; [apply under_put; exact Hw | intros _].
    apply under_bind; [exact Hx | intros _; apply under_pure].
  - apply under_bind; [apply under_put; exact Hw | intros _].
    apply under_bind; [apply enter_call_under | intros _; apply under_pure].
  - apply under_bind; [apply under_put; exact Hw | intros _].
    apply under_bind; [apply enter_call_under | intros _; apply under_pure].
  - destruct (in_call (call_state mm)); [| apply under_pure].
    apply under_bind; [apply under_put; exact Hw | intros _; apply under_pure].
  - destruct (call_state mm); try apply under_pure.
    apply under_bind; [apply under_put; exact Hw | intros _].
    apply under_bind; [apply enter_call_under | intros _; apply under_pure].
Qed.

(** Every message, from the lines and writes of its parts. *)
Lemma handler_under (m : mm_message) :
  appends_under I Q (mqueue_handler (P:=P) m).
Proof.
  assert (Hline : forall c, is_route_tail c = false ->
                            (forall a b, c <> Info_route a b) ->
                            appends_under I Q (emit (P:=P) c))
    by (intros; apply under_emit, Q_other; assumption).
  assert (Hcall : forall c f, is_route_tail c = false ->
                              (forall a b, c <> Info_route a b) ->
                              appends_under I Q (call_ (P:=P) c f))
    by (intros; apply under_call_, Q_other; assumption).
  destruct m; unfold mqueue_handler; try apply Q_route.
  - apply Hline; [reflexivity | intros; discriminate].
  - apply under_get. intros mm Hmm.
    destruct (dict_lookup (sounds mm) media_name) as [s |];
      [| apply Hline; [reflexivity | intros; discriminate]].
    apply under_bind; [apply can_play_sound_under | intros ok].
    destruct ok; [| apply under_pure].
    apply under_bind.
    { destruct (0 <? priority s); [| apply under_pure].
      apply under_dict_apply. intros k v a. unfold stop_play.
      apply under_bind; [apply under_ask | intros playing].
      apply under_bind; [| intros _; apply under_pure].
      destruct playing; [| apply under_pure].
      apply Hcall; [reflexivity | intros; discriminate]. }
    intros _. apply under_bind.
    { destruct (is_call_media s && negb (in_call (call_state mm)));
        [| apply under_pure].
      apply under_bind; [| intros _; apply Q_route].
      apply Hcall; [reflexivity | intros; discriminate]. }
    intros _. apply Hcall; [reflexivity | intros; discriminate].
  - apply under_get. intros mm Hmm.
    destruct (dict_lookup (sounds mm) media_name) as [s |];
      [| apply Hline; [reflexivity | intros; discriminate]].
    apply Hcall; [reflexivity | intros; discriminate].
  - apply under_get. intros mm Hmm.
    destruct (dict_lookup (sounds mm) media_name) as [s |];
      [| apply Hline; [reflexivity | intros; discriminate]].
    apply under_bind;
      [apply Hcall; [reflexivity | intros; discriminate] | intros _].
    destruct (is_call_media s && negb (in_call (call_state mm)));
      [| apply under_pure].
    apply under_bind; [| intros _; apply Q_route].
    apply Hcall; [reflexivity | intros; discriminate].
  - apply under_bind; [apply call_state_switch_under | intros r].
    apply under_bind.
    { destruct (fst r); [apply Q_route | apply under_pure]. }
    intros _. destruct (snd r); [| apply under_pure].
    apply Hline; [reflexivity | intros; discriminate].
  - intros w Hw.
    destruct (mm_platform_registerMedia (w_plat w) (sounds (w_mm w)) media_name
                media_object mixing0 incall0 intensity0 priority0
                is_call_media0) as [p d].
    split; [| apply I_sounds; exact Hw].
    exists [Register_media media_name]. split; [reflexivity |].
    repeat constructor. apply Q_other; [reflexivity | intros; discriminate].
  - intros w Hw.
    destruct (mm_platform_unregisterMedia (w_plat w) (sounds (w_mm w))
                media_name) as [p d].
    split; [| apply I_sounds; exact Hw].
    exists [Unregister_media media_name]. split; [reflexivity |].
    repeat constructor. apply Q_other; [reflexivity | intros; discriminate].
  - apply under_get. intros mm Hmm. apply under_put.
    apply I_intensity. exact Hmm.
Qed.

(** A run, from the same. *)
Lemma run_under (msgs : list mm_message) (w : world P) :
  I (w_mm w) ->
  (exists added, w_log (run msgs w) = w_log w ++ added /\ Forall Q added) /\
  I (w_mm (run msgs w)).
Proof.
  revert w. induction msgs as [| m msgs IH]; intros w Hw; cbn [run].
  - split; [| exact Hw].
    exists []. rewrite app_nil_r. split; [reflexivity | constructor].
  - destruct (handler_under m w Hw) as [[a1 [E1 F1]] I1].
    fold (exec (mqueue_handler m) w) in *.
    destruct (IH _ I1) as [[a2 [E2 F2]] I2]. split; [| exact I2].
    exists (a1 ++ a2). rewrite E2, E1, app_assoc. split; [reflexivity |].
    apply Forall_app. split; assumption.
Qed.

End UnderFacts.

(* ===================================================================== *)
(** ** What the messages write *)
(* ===================================================================== *)

Section Writes.

Context {P : Type} `{PF : mm_platform P}.

Lemma call_state_switch_mm (st : mediamgr_state) (w : world P) :
  w_mm (snd (call_state_switch st w)) = call_state_write st (w_mm w).
Proof.
  unfold call_state_switch, call_state_write. rewrite snd_bind.
  cbn [get_mm fst snd].
  destruct st.
  - rewrite !snd_bind. cbn [pure snd]. unfold mediamgr_exit_call.
    rewrite call__run. reflexivity.
  - rewrite !snd_bind. cbn [pure snd].
    rewrite mediamgr_enter_call_keeps. reflexivity.
  - rewrite !snd_bind. cbn [pure snd].
    rewrite mediamgr_enter_call_keeps. reflexivity.
  - destruct (in_call (call_state (w_mm w))); [| reflexivity].
    rewrite !snd_bind. reflexivity.
  - destruct (call_state (w_mm w)); try reflexivity.
    rewrite !snd_bind. cbn [pure snd].
    rewrite mediamgr_enter_call_keeps. reflexivity.
Qed.

Lemma update_route_write (e : mm_route_update_event) (w : world P) :
  w_mm (exec (update_route e) w)
  = route_write e (mm_platform_get_route (w_plat w)) (w_mm w).
Proof. rewrite update_route_mm. reflexivity. Qed.

Lemma stop_play_keeps (d : dict) :
  keeps_mm (dict_apply (P:=P) d stop_play tt).
Proof.
  apply keeps_mm_dict_apply. intros k v a. unfold stop_play.
  repeat keeps_step.
Qed.

(** The structure after a message is one of the structures [handler_write]
    lists for it. *)
Lemma handler_writes (m : mm_message) (w : world P) :
  handler_write m (w_mm w) (w_mm (exec (mqueue_handler m) w)).
Proof.
  destruct m; cbn [handler_write].
  - reflexivity.
  - (* play *)
    unfold exec, mqueue_handler. rewrite snd_bind. cbn [get_mm fst snd].
    destruct (dict_lookup (sounds (w_mm w)) media_name) as [s |];
      [| left; reflexivity].
    rewrite snd_bind, can_play_sound_world.
    destruct (fst (mediamgr_can_play_sound (sounds (w_mm w)) s w));
      [| left; reflexivity].
    rewrite snd_bind.
    set (w1 := snd ((if 0 <? priority s
                     then dict_apply (sounds (w_mm w)) stop_play tt
                     else pure tt) w)).
    assert (H1 : w_mm w1 = w_mm w).
    { unfold w1. destruct (0 <? priority s); [apply stop_play_keeps |].
      reflexivity. }
    rewrite snd_bind, call__run. cbn [snd w_mm].
    destruct (is_call_media s && negb (in_call (call_state (w_mm w)))).
    + right. rewrite snd_bind, call__run. cbn [fst snd].
      eexists. fold (exec (update_route MM_CALL_START)
                       (mkWorld (w_mm w1) (mm_platform_enter_call (w_plat w1))
                                (w_log w1 ++ [Enter_call]))).
      rewrite update_route_write. cbn [w_mm w_plat]. rewrite H1. reflexivity.
    + left. exact H1.
  - (* pause *)
    unfold exec, mqueue_handler. rewrite snd_bind. cbn [get_mm fst snd].
    destruct (dict_lookup (sounds (w_mm w)) media_name); reflexivity.
  - (* stop *)
    unfold exec, mqueue_handler. rewrite snd_bind. cbn [get_mm fst snd].
    destruct (dict_lookup (sounds (w_mm w)) media_name) as [s |];
      [| left; reflexivity].
    rewrite snd_bind, call__run. cbn [fst snd].
    destruct (is_call_media s && negb (in_call (call_state (w_mm w))));
      [| left; reflexivity].
    right. rewrite snd_bind, call__run. cbn [fst snd].
    eexists.
    match goal with
    | |- w_mm (snd (update_route ?e ?x)) = _ =>
        fold (exec (update_route e) x)
    end.
    rewrite update_route_write. reflexivity.
  - (* call state *)
    destruct (call_state_log state w) as [a1 [a2 [_ [_ [_ Hmm]]]]].
    rewrite Hmm.
    destruct (fst (call_state_outcome state (call_state (w_mm w)))) eqn:Eo.
    + eexists. rewrite update_route_write, call_state_switch_mm. reflexivity.
    + rewrite call_state_switch_mm. unfold call_state_write.
      unfold call_state_outcome in Eo.
      destruct state; try discriminate.
      * destruct (in_call (call_state (w_mm w))); [discriminate | reflexivity].
      * destruct (call_state (w_mm w)); try reflexivity. discriminate.
  - eexists. destruct val; apply update_route_write.
  - eexists. destruct val; apply update_route_write.
  - eexists. destruct val; apply update_route_write.
  - unfold exec, mqueue_handler.
    destruct (mm_platform_registerMedia (w_plat w) (sounds (w_mm w)) media_name
                media_object mixing0 incall0 intensity0 priority0
                is_call_media0) as [p d].
    exists d. reflexivity.
  - unfold exec, mqueue_handler.
    destruct (mm_platform_unregisterMedia (w_plat w) (sounds (w_mm w))
                media_name) as [p d].
    exists d. reflexivity.
  - reflexivity.
Qed.

(** X6. The messages share the structure out: only the register and
    deregister messages write the sound registry, only the set-intensity
    message writes the threshold, only a call-state message writes the call
    state and the saved call state, the exit, pause, register, deregister
    and set-intensity messages leave the router alone, and no message
    touches the registration of the route-changed handler. *)
Theorem message_frames (m : mm_message) (w : world P) :
  let mm := w_mm w in
  let mm' := w_mm (exec (mqueue_handler m) w) in
  route_changed_h mm' = route_changed_h mm /\
  match m with
  | MM_MARSHAL_REGISTER_MEDIA _ _ _ _ _ _ _
  | MM_MARSHAL_DEREGISTER_MEDIA _ => True
  | _ => sounds mm' = sounds mm
  end /\
  match m with
  | MM_MARSHAL_SET_INTENSITY _ => True
  | _ => intensity_thres mm' = intensity_thres mm
  end /\
  match m with
  | MM_MARSHAL_CALL_STATE _ => True
  | _ => call_state mm' = call_state mm /\
         prev_call_state mm' = prev_call_state mm
  end /\
  match m with
  | MM_MARSHAL_EXIT | MM_MARSHAL_PAUSE_MEDIA _
  | MM_MARSHAL_REGISTER_MEDIA _ _ _ _ _ _ _
  | MM_MARSHAL_DEREGISTER_MEDIA _
  | MM_MARSHAL_SET_INTENSITY _ => router mm' = router mm
  | _ => True
  end.
Proof.
  cbv zeta. pose proof (handler_writes m w) as H.
  destruct m; cbn [handler_write] in H;
    repeat match goal with
           | H : _ \/ _ |- _ => destruct H as [H | H]
           | H : exists _, _ |- _ => destruct H as [? H]
           end;
    try (rewrite H; repeat split; reflexivity).
  (* call state *)
  destruct (fst (call_state_outcome state (call_state (w_mm w))));
    [destruct H as [cur H] |]; rewrite H; repeat split; try reflexivity;
    unfold call_state_write; destruct state; try reflexivity;
    cbn; try (destruct (in_call (call_state (w_mm w))); reflexivity);
    destruct (call_state (w_mm w)); reflexivity.
Qed.

(** X7. After any run of messages the headset flag of the router is what the
    last headset message said, the bluetooth flag what the last bluetooth
    message said and the threshold what the last set-intensity message
    said; with no such message they are as before the run. *)
Theorem flags_follow_messages (msgs : list mm_message) (w : world P) :
  let mm := w_mm w in
  let mm' := w_mm (run msgs w) in
  wired_hs_is_connected (router mm')
    = fold_left track_headset msgs (wired_hs_is_connected (router mm)) /\
  bt_device_is_connected (router mm')
    = fold_left track_bt msgs (bt_device_is_connected (router mm)) /\
  intensity_thres mm' = fold_left track_intensity msgs (intensity_thres mm).
Proof.
  cbv zeta. revert w. induction msgs as [| m msgs IH]; intros w.
  - repeat split.
  - cbn [run fold_left]. specialize (IH (exec (mqueue_handler m) w)).
    destruct IH as [IH1 [IH2 IH3]]. rewrite IH1, IH2, IH3.
    pose proof (handler_writes m w) as H.
    assert (Hevt : forall e cur mm,
              e = MM_CALL_START \/ e = MM_CALL_STOP \/ e = MM_VIDEO_CALL_START ->
              wired_hs_is_connected (router (route_write e cur mm))
                = wired_hs_is_connected (router mm) /\
              bt_device_is_connected (router (route_write e cur mm))
                = bt_device_is_connected (router mm) /\
              intensity_thres (route_write e cur mm) = intensity_thres mm).
    { intros e cur mm [-> | [-> | ->]]; repeat split. }
    destruct m; cbn [handler_write track_headset track_bt track_intensity] in *;
      repeat match goal with
             | H : _ \/ _ |- _ => destruct H as [H | H]
             | H : exists _, _ |- _ => destruct H as [? H]
             end;
      try (rewrite H; repeat split; reflexivity);
      try (rewrite H; destruct val; repeat split; reflexivity);
      try (rewrite H; unfold route_write; destruct val;
           destruct (call_state (w_mm w)); repeat split; reflexivity).
    (* call state *)
    assert (Hcs : forall mm,
              router (call_state_write state mm) = router mm /\
              intensity_thres (call_state_write state mm) = intensity_thres mm).
    { intros mm. unfold call_state_write. destruct state; cbn;
        try (split; reflexivity);
        try (destruct (in_call (call_state mm)); split; reflexivity).
      destruct (call_state mm); split; reflexivity. }
    assert (Hout : forall e,
              fst (call_state_outcome state (call_state (w_mm w))) = Some e ->
              e = MM_CALL_START \/ e = MM_CALL_STOP \/ e = MM_VIDEO_CALL_START).
    { unfold call_state_outcome. intros e.
      destruct state; cbn;
        try destruct (in_call (call_state (w_mm w)));
        try destruct (call_state (w_mm w)); cbn;
        intros E; inversion E; tauto. }
    destruct (fst (call_state_outcome state (call_state (w_mm w)))) as [e |].
    + destruct H as [cur H]. rewrite H.
      destruct (Hevt e cur (call_state_write state (w_mm w)) (Hout e eq_refl))
        as [E1 [E2 E3]].
      destruct (Hcs (w_mm w)) as [E4 E5].
      rewrite E1, E2, E3, E4, E5. repeat split.
    + rewrite H. repeat split.
Qed.

End Writes.

(* ===================================================================== *)
(** ** Invariants of a run *)
(* ===================================================================== *)

Section RunInvariants.

Context {P : Type} `{PF : mm_platform P}.

Lemma wanted_route_routable (e : mm_route_update_event) (w : world P) :
  wanted_route e w = mm_platform_get_route (w_plat w) \/
  is_routable (wanted_route e w) = true.
Proof.
  unfold wanted_route.
  destruct e; cbn;
    repeat match goal with
           | |- context [if ?b then _ else _] => destruct b
           | |- context [match call_state ?x with _ => _ end] =>
               destruct (call_state x)
           end; cbn; auto.
Qed.

Lemma call_state_inv_write (mm : mediamgr) (st : mediamgr_state) :
  call_state_inv mm = true -> call_state_inv (call_state_write st mm) = true.
Proof.
  unfold call_state_inv, call_state_write.
  destruct st, (call_state mm) eqn:E1, (prev_call_state mm) eqn:E2; cbn;
    rewrite ?E1, ?E2; cbn; congruence.
Qed.

Lemma call_state_inv_run (msgs : list mm_message) (w : world P) :
  call_state_inv (w_mm w) = true ->
  call_state_inv (w_mm (run msgs w)) = true.
Proof.
  intros Hw.
  assert (Hroute : forall e,
            appends_under (fun mm => call_state_inv mm = true) (fun _ => True)
                          (update_route (P:=P) e)).
  { intros e v Hv. split.
    - apply update_route_appends; auto.
    - fold (exec (update_route e) v). rewrite update_route_write. exact Hv. }
  apply (run_under (fun mm => call_state_inv mm = true) (fun _ => True)
           (fun _ _ _ => Logic.I) Hroute call_state_inv_write
           (fun _ _ H => H) (fun _ _ H => H) msgs w Hw).
Qed.

(** X8. From [mediamgr_alloc], whatever the messages: the call state is
    never RESUME, the saved call state is never HOLD nor RESUME, and while
    the call state is HOLD the saved call state is an active call, the one a
    RESUME brings back. *)
Theorem call_state_never_resume (thres : Z) (p : P) (msgs : list mm_message) :
  let mm := w_mm (run msgs (init_world thres p)) in
  call_state mm <> MEDIAMGR_STATE_RESUME /\
  prev_call_state mm <> MEDIAMGR_STATE_HOLD /\
  prev_call_state mm <> MEDIAMGR_STATE_RESUME /\
  (call_state mm = MEDIAMGR_STATE_HOLD ->
   in_call (prev_call_state mm) = true /\
   in_call (call_state
              (w_mm (exec (mqueue_handler
                             (MM_MARSHAL_CALL_STATE MEDIAMGR_STATE_RESUME))
                          (run msgs (init_world thres p))))) = true).
Proof.
  cbv zeta.
  pose proof (call_state_inv_run msgs (init_world thres p) eq_refl) as H.
  set (w := run msgs (init_world thres p)) in *.
  unfold call_state_inv in H.
  repeat split.
  - intros E. rewrite E in H. discriminate.
  - intros E. rewrite E in H. destruct (call_state (w_mm w)); discriminate.
  - intros E. rewrite E in H. destruct (call_state (w_mm w)); discriminate.
  - rewrite H0 in H. exact H.
  - pose proof (handler_writes
                  (MM_MARSHAL_CALL_STATE MEDIAMGR_STATE_RESUME) w) as Hw.
    cbn [handler_write call_state_outcome] in Hw. rewrite H0 in *.
    cbn [fst] in Hw. destruct Hw as [cur Hw]. rewrite Hw.
    unfold route_write, call_state_write. rewrite H0. cbn. exact H.
Qed.

(** X10. With no route-changed handler registered, as after
    [mediamgr_alloc], no run of messages calls a route-changed handler. *)
Theorem no_handler_no_route_changed (thres : Z) (p : P)
    (msgs : list mm_message) :
  let w := run msgs (init_world thres p) in
  route_changed_h (w_mm w) = false /\
  Forall (fun c => forall r, c <> Route_changed_h r) (w_log w).
Proof.
  cbv zeta.
  set (I := fun mm => route_changed_h mm = false).
  set (Q := fun c : mm_call => forall r, c <> Route_changed_h r).
  assert (Hother : forall c, is_route_tail c = false ->
                             (forall a b, c <> Info_route a b) -> Q c).
  { intros c Hc _ r. destruct c; try discriminate. }
  assert (Hroute : forall e, appends_under I Q (update_route (P:=P) e)).
  { intros e v Hv. unfold I in Hv. split.
    - fold (exec (update_route e) v). rewrite update_route_run.
      cbn [w_log]. rewrite Hv. eexists. split; [reflexivity |].
      constructor; [intros r; discriminate |].
      rewrite app_nil_r. apply Forall_app. split.
      + destruct (auplay_eqb _ _); repeat constructor.
        intros r. destruct (wanted_route e v); discriminate.
      + destruct (_ && _); repeat constructor. intros r; discriminate.
    - fold (exec (update_route e) v). rewrite update_route_write. exact Hv. }
  assert (Hcs : forall mm st, I mm -> I (call_state_write st mm)).
  { intros mm st Hmm. unfold I, call_state_write in *.
    destruct st; cbn; try exact Hmm.
    - destruct (in_call (call_state mm)); exact Hmm.
    - destruct (call_state mm); exact Hmm. }
  destruct (run_under I Q Hother Hroute Hcs (fun _ _ H => H) (fun _ _ H => H)
              msgs (init_world thres p) eq_refl)
    as [[added [E F]] Hflag].
  split; [exact Hflag |]. rewrite E. exact F.
Qed.

(** X11. The "unsupported device" branch of the route request is dead: the
    wanted route is the current route or one of earpiece, speaker, headset
    and bluetooth, so no run of messages, from any state and on any
    platform, logs that error. *)
Theorem never_unsupported_device (msgs : list mm_message) (w : world P) :
  exists added,
    w_log (run msgs w) = w_log w ++ added /\
    ~ In Error_unsupported_device added.
Proof.
  set (Q := fun c : mm_call => c <> Error_unsupported_device).
  assert (Hother : forall c, is_route_tail c = false ->
                             (forall a b, c <> Info_route a b) -> Q c).
  { intros c Hc _. destruct c; try discriminate. }
  assert (Hroute : forall e,
            appends_under (fun _ => True) Q (update_route (P:=P) e)).
  { intros e v _. split; [| exact Logic.I].
    fold (exec (update_route e) v). rewrite update_route_run.
    cbn [w_log]. eexists. split; [reflexivity |].
    constructor; [discriminate |].
    repeat (apply Forall_app; split).
    - destruct (auplay_eqb (wanted_route e v) _) eqn:Eq; [constructor |].
      repeat constructor.
      destruct (wanted_route_routable e v) as [Hc | Hr].
      + rewrite Hc, auplay_eqb_refl in Eq. discriminate.
      + unfold Q. destruct (wanted_route e v); discriminate.
    - destruct (_ && _); repeat constructor. discriminate.
    - destruct (route_changed_h _); repeat constructor. discriminate. }
  destruct (run_under (fun _ => True) Q Hother Hroute
              (fun _ _ H => H) (fun _ _ H => H) (fun _ _ H => H)
              msgs w Logic.I)
    as [[added [E F]] _].
  exists added. split; [exact E |].
  intros Hin. rewrite Forall_forall in F. apply (F _ Hin). reflexivity.
Qed.

Lemma call_state_last_wanted (st : mediamgr_state) (w : world P)
    (e : mm_route_update_event) :
  fst (call_state_outcome st (call_state (w_mm w))) = Some e ->
  last_wanted (w_log (exec (mqueue_handler (MM_MARSHAL_CALL_STATE st)) w))
  = Some (wanted_route e (snd (call_state_switch st w))).
Proof.
  intros Eo.
  destruct (call_state_log st w) as [a1 [a2 [Elog [_ [H2 _]]]]].
  rewrite Eo in H2. destruct H2 as [tail [-> Ht]].
  rewrite Elog, app_assoc. cbn [app].
  apply last_wanted_app_info. rewrite forallb_app.
  rewrite (route_tail_no_info _ Ht).
  destruct (snd (call_state_outcome st (call_state (w_mm w)))); reflexivity.
Qed.

(** X9. A call put on hold and resumed comes back: the call state is the one
    before the hold and is also the saved call state, the connection flags
    are untouched, the loudspeaker preference is gone, and the route wanted
    on resume is that of an audio call start without a preference (headset,
    else bluetooth, else earpiece), for a video call too. *)
Theorem hold_resume_round_trip (w : world P) :
  in_call (call_state (w_mm w)) = true ->
  let w2 := run [MM_MARSHAL_CALL_STATE MEDIAMGR_STATE_HOLD;
                 MM_MARSHAL_CALL_STATE MEDIAMGR_STATE_RESUME] w in
  let r := router (w_mm w) in
  let r2 := router (w_mm w2) in
  call_state (w_mm w2) = call_state (w_mm w) /\
  prev_call_state (w_mm w2) = call_state (w_mm w) /\
  wired_hs_is_connected r2 = wired_hs_is_connected r /\
  bt_device_is_connected r2 = bt_device_is_connected r /\
  prefer_loudspeaker r2 = false /\
  last_wanted (w_log w2) =
    Some (if wired_hs_is_connected r then MEDIAMGR_AUPLAY_HEADSET
          else if bt_device_is_connected r then MEDIAMGR_AUPLAY_BT
          else MEDIAMGR_AUPLAY_EARPIECE).
Proof.
  intros Hin. cbv zeta. cbn [run].
  set (w1 := exec (mqueue_handler (MM_MARSHAL_CALL_STATE MEDIAMGR_STATE_HOLD))
                  w).
  pose proof (handler_writes (MM_MARSHAL_CALL_STATE MEDIAMGR_STATE_HOLD) w)
    as H1.
  cbn [handler_write call_state_outcome] in H1. rewrite Hin in H1.
  cbn [fst] in H1. destruct H1 as [cur1 H1]. fold w1 in H1.
  assert (Hcs1 : call_state (w_mm w1) = MEDIAMGR_STATE_HOLD).
  { rewrite H1. unfold route_write, call_state_write. rewrite Hin.
    reflexivity. }
  pose proof (handler_writes (MM_MARSHAL_CALL_STATE MEDIAMGR_STATE_RESUME) w1)
    as H2.
  cbn [handler_write call_state_outcome] in H2. rewrite Hcs1 in H2.
  cbn [fst] in H2. destruct H2 as [cur2 H2].
  assert (Hw1 : w_mm w1
                = set_router
                    (set_call_state (set_prev_call_state (w_mm w)
                                       (call_state (w_mm w)))
                                    MEDIAMGR_STATE_HOLD)
                    (set_prefer_loudspeaker (router (w_mm w)) false)).
  { rewrite H1. unfold route_write, call_state_write. rewrite Hin.
    reflexivity. }
  split; [| split; [| split; [| split; [| split]]]].
  - rewrite H2. unfold route_write, call_state_write. rewrite Hcs1. cbn.
    rewrite Hw1. reflexivity.
  - rewrite H2. unfold route_write, call_state_write. rewrite Hcs1. cbn.
    rewrite Hw1. reflexivity.
  - rewrite H2. unfold route_write, call_state_write. rewrite Hcs1. cbn.
    rewrite Hw1. reflexivity.
  - rewrite H2. unfold route_write, call_state_write. rewrite Hcs1. cbn.
    rewrite Hw1. reflexivity.
  - rewrite H2. unfold route_write, call_state_write. rewrite Hcs1. cbn.
    rewrite Hw1. reflexivity.
  - rewrite (call_state_last_wanted MEDIAMGR_STATE_RESUME w1 MM_CALL_START)
      by (cbn [call_state_outcome]; rewrite Hcs1; reflexivity).
    unfold wanted_route. rewrite call_state_switch_mm.
    unfold call_state_write. rewrite Hcs1. cbn. rewrite Hw1. cbn.
    destruct (wired_hs_is_connected (router (w_mm w))),
      (bt_device_is_connected (router (w_mm w))); reflexivity.
Qed.

End RunInvariants.

(* ===================================================================== *)
(** ** Which sounds play *)
(* ===================================================================== *)

Section Playing.

Context {P : Type} `{PF : mm_platform P}.

(** What a message plays: nothing, or the sound a play-media command names,
    registered and accepted by the filter. *)
Lemma handler_plays (m : mm_message) (w : world P) :
  exists added,
    w_log (exec (mqueue_handler m) w) = w_log w ++ added /\
    forall s, In (Play_sound s) added ->
      exists name,
        m = MM_MARSHAL_PLAY_MEDIA name /\
        dict_lookup (sounds (w_mm w)) name = Some s /\
        fst (mediamgr_can_play_sound (sounds (w_mm w)) s w) = true.
Proof.
  set (Q0 := fun c : mm_call => forall x, c <> Play_sound x).
  assert (Hgen : (forall name, m <> MM_MARSHAL_PLAY_MEDIA name) ->
                 exists added,
                   w_log (exec (mqueue_handler m) w) = w_log w ++ added /\
                   forall s, In (Play_sound s) added ->
                     exists name,
                       m = MM_MARSHAL_PLAY_MEDIA name /\
                       dict_lookup (sounds (w_mm w)) name = Some s /\
                       fst (mediamgr_can_play_sound (sounds (w_mm w)) s w)
                       = true).
  { intros Hm.
    destruct (other_messages_play_nothing Q0 m (fun c Hc => Hc) Hm w)
      as [a [E F]].
    exists a. split; [exact E |].
    intros s Hin. rewrite Forall_forall in F.
    exfalso. apply (F _ Hin s). reflexivity. }
  destruct m; try (apply Hgen; intros; discriminate).
  unfold exec, mqueue_handler. rewrite snd_bind. cbn [get_mm fst snd].
  destruct (dict_lookup (sounds (w_mm w)) media_name) as [curr |] eqn:Hlook.
  - rewrite snd_bind, can_play_sound_world.
    destruct (fst (mediamgr_can_play_sound (sounds (w_mm w)) curr w)) eqn:Hcan.
    + set (Q := fun c : mm_call => c = Play_sound curr \/ Q0 c).
      destruct (play_tail_appends Q (w_mm w) curr
                  (fun c Hc => or_intror Hc) (or_introl eq_refl) w)
        as [a [E F]].
      exists a. split; [exact E |].
      intros s Hin. rewrite Forall_forall in F.
      destruct (F _ Hin) as [Heq | Hno].
      * injection Heq as ->. exists media_name. auto.
      * exfalso. apply (Hno s). reflexivity.
    + exists []. rewrite app_nil_r. split; [reflexivity | intros s []].
  - exists [Error_no_media media_name]. split; [reflexivity |].
    intros s [Hin | []]. discriminate.
Qed.

(** X2. The handler plays a sound only for a play-media command that names
    it: the sound is the one registered under that name and
    [mediamgr_can_play_sound] accepts it in the state the command finds. No
    other message plays anything. *)
Theorem play_only_named_and_accepted (m : mm_message) (w : world P) :
  exists added,
    w_log (exec (mqueue_handler m) w) = w_log w ++ added /\
    forall s, In (Play_sound s) added ->
      exists name,
        m = MM_MARSHAL_PLAY_MEDIA name /\
        dict_lookup (sounds (w_mm w)) name = Some s /\
        fst (mediamgr_can_play_sound (sounds (w_mm w)) s w) = true.
Proof. exact (handler_plays m w). Qed.

Lemma can_play_sound_in_call (d : dict) (s : sound) (w : world P) :
  in_call (call_state (w_mm w)) = true -> incall s = false ->
  fst (mediamgr_can_play_sound d s w) = false.
Proof.
  intros Hc Hs. unfold mediamgr_can_play_sound. rewrite fst_bind.
  cbn [get_mm fst snd]. rewrite Hc, Hs.
  destruct (intensity_thres (w_mm w) <? intensity s); reflexivity.
Qed.

(** X3. While an audio or video call is active, no message makes the handler
    play a sound that is not allowed in a call, whatever its priority and
    intensity are. *)
Theorem no_outside_sound_in_call (s : sound) (w : world P) :
  in_call (call_state (w_mm w)) = true -> incall s = false ->
  forall m, exists added,
    w_log (exec (mqueue_handler m) w) = w_log w ++ added /\
    ~ In (Play_sound s) added.
Proof.
  intros Hc Hs m. destruct (handler_plays m w) as [added [E Hplay]].
  exists added. split; [exact E |].
  intros Hin. destruct (Hplay s Hin) as [name [_ [_ Hcan]]].
  rewrite (can_play_sound_in_call _ _ _ Hc Hs) in Hcan. discriminate.
Qed.

Lemma check_play_mode_fold (d : dict) (mode : mm_playback_mode) (w : world P) :
  fst (dict_apply d check_play_mode mode w) =
  if any_playing (w_plat w) (fun x => negb (mixing x)) d
  then MM_PLAYBACK_EXCLUSIVE
  else if any_playing (w_plat w) mixing d then MM_PLAYBACK_MIXING
  else mode.
Proof.
  unfold any_playing, dict_values.
  revert mode. induction d as [| [k v] d IH]; intros mode; [reflexivity |].
  cbn [dict_apply map existsb snd]. rewrite fst_bind, check_play_mode_run.
  cbn [fst snd].
  destruct (mm_platform_is_sound_playing (w_plat w) v); cbn [andb orb].
  - destruct (mixing v); cbn [negb orb fst snd pure].
    + rewrite IH.
      destruct (existsb _ (map snd d)); [reflexivity |].
      destruct (existsb _ (map snd d)); reflexivity.
    + reflexivity.
  - apply IH.
Qed.

Lemma any_playing_split (p : P) (d : dict) :
  any_playing p (fun _ => true) d
  = any_playing p (fun x => negb (mixing x)) d || any_playing p mixing d.
Proof.
  unfold any_playing, dict_values.
  induction (map snd d) as [| v l IH]; [reflexivity |].
  cbn [existsb]. rewrite IH.
  destruct (mm_platform_is_sound_playing p v), (mixing v),
    (existsb (fun s => mm_platform_is_sound_playing p s && negb (mixing s)) l),
    (existsb (fun s => mm_platform_is_sound_playing p s && mixing s) l);
    reflexivity.
Qed.

(** X4. [mediamgr_can_play_sound] only asks: it changes nothing, and its
    answer does not depend on the order of the registry. A sound is accepted
    exactly when its intensity is within the threshold, it is allowed in a
    call or no call is active, and either its priority is positive or no
    registered exclusive sound is playing and, unless it can be mixed, no
    registered sound is playing at all. *)
Theorem can_play_sound_decision (d : dict) (s : sound) (w : world P) :
  mediamgr_can_play_sound d s w =
  ((intensity s <=? intensity_thres (w_mm w))
   && (incall s || negb (in_call (call_state (w_mm w))))
   && ((0 <? priority s)
       || (negb (any_playing (w_plat w) (fun x => negb (mixing x)) d)
           && (mixing s || negb (any_playing (w_plat w) (fun _ => true) d)))),
   w).
Proof.
  rewrite (surjective_pairing (mediamgr_can_play_sound d s w)).
  rewrite can_play_sound_world. f_equal.
  unfold mediamgr_can_play_sound. rewrite fst_bind. cbn [get_mm fst snd].
  rewrite Z.leb_antisym.
  destruct (intensity_thres (w_mm w) <? intensity s); [reflexivity |].
  cbn [negb andb].
  destruct (incall s), (in_call (call_state (w_mm w))); cbn [negb andb orb];
    try reflexivity;
    (destruct (0 <? priority s); [reflexivity |]);
    rewrite fst_bind, check_play_mode_fold, any_playing_split;
    cbn [orb];
    destruct (any_playing (w_plat w) (fun x => negb (mixing x)) d);
    try reflexivity;
    destruct (any_playing (w_plat w) mixing d); cbn;
    rewrite ?orb_false_r, ?orb_true_r; reflexivity.
Qed.

Lemma stop_playing_during_call_run (k : string) (v : sound) (w : world P) :
  stop_playing_during_call k v tt w =
  ((false, tt),
   if negb (incall v) && mm_platform_is_sound_playing (w_plat w) v
   then mkWorld (w_mm w) (mm_platform_stop_sound (w_plat w) v)
                (w_log w ++ [Stop_sound v])
   else w).
Proof.
  unfold stop_playing_during_call, bind, ask, call_, call, pure.
  destruct (incall v); cbn; [reflexivity |].
  destruct (mm_platform_is_sound_playing (w_plat w) v); reflexivity.
Qed.

(** X5. On a platform where stopping one sound does not change whether
    another one plays, entering a call stops every registered sound that is
    playing and not allowed in a call, stops no sound that is allowed in a
    call, and then tells the platform, last, that the call is entered; the
    structure is not written. *)
Theorem enter_call_stops_outside_sounds (d : dict) (w : world P) :
  (forall p x y, x <> y ->
     mm_platform_is_sound_playing (mm_platform_stop_sound p x) y
     = mm_platform_is_sound_playing p y) ->
  exists stops,
    w_log (exec (mediamgr_enter_call d) w) = w_log w ++ stops ++ [Enter_call] /\
    w_mm (exec (mediamgr_enter_call d) w) = w_mm w /\
    (forall c, In c stops ->
       exists x, c = Stop_sound x /\ In x (dict_values d) /\ incall x = false) /\
    (forall x, In x (dict_values d) -> incall x = false ->
       mm_platform_is_sound_playing (w_plat w) x = true ->
       In (Stop_sound x) stops).
Proof.
  intros Hframe.
  assert (Hloop : forall v : world P, exists stops,
            w_log (snd (dict_apply d stop_playing_during_call tt v))
              = w_log v ++ stops /\
            (forall c, In c stops ->
               exists x, c = Stop_sound x /\ In x (dict_values d)
                         /\ incall x = false) /\
            (forall x, In x (dict_values d) -> incall x = false ->
               mm_platform_is_sound_playing (w_plat v) x = true ->
               In (Stop_sound x) stops)).
  { induction d as [| [k s] d IH]; intros v.
    - exists []. simpl. rewrite app_nil_r.
      repeat split; intros; contradiction.
    - cbn [dict_apply]. rewrite snd_bind, stop_playing_during_call_run.
      cbn [fst snd].
      destruct (negb (incall s) && mm_platform_is_sound_playing (w_plat v) s)
        eqn:Hs.
      + apply andb_true_iff in Hs as [Hin Hp].
        apply negb_true_iff in Hin.
        destruct (IH (mkWorld (w_mm v) (mm_platform_stop_sound (w_plat v) s)
                              (w_log v ++ [Stop_sound s])))
          as [stops [Hlog [Hall Hplaying]]].
        exists (Stop_sound s :: stops). cbn [w_log w_plat] in *.
        rewrite Hlog, <- app_assoc. split; [reflexivity | split].
        * intros c [<- | Hc].
          -- exists s. repeat split; [left; reflexivity | exact Hin].
          -- destruct (Hall c Hc) as [x [-> [Hx Hix]]].
             exists x. repeat split; [right; exact Hx | exact Hix].
        * intros x Hx Hix Hpx. destruct (sound_eqb s x) eqn:Eq.
          -- apply sound_eqb_eq in Eq. subst. left. reflexivity.
          -- assert (Hne : s <> x).
             { intros ->. assert (E : sound_eqb x x = true)
                 by (apply sound_eqb_eq; reflexivity). congruence. }
             destruct Hx as [Hx | Hx]; [simpl in Hx; congruence |].
             right. apply Hplaying; [exact Hx | exact Hix |].
             rewrite (Hframe _ _ _ Hne). exact Hpx.
      + destruct (IH v) as [stops [Hlog [Hall Hplaying]]].
        exists stops. split; [exact Hlog | split].
        * intros c Hc. destruct (Hall c Hc) as [x [-> [Hx Hix]]].
          exists x. repeat split; [right; exact Hx | exact Hix].
        * intros x [Hx | Hx] Hix Hpx; [| apply Hplaying; assumption].
          simpl in Hx. subst x. rewrite Hix, Hpx in Hs. discriminate. }
  destruct (Hloop w) as [stops [Hlog [Hall Hplaying]]].
  exists stops. unfold exec, mediamgr_enter_call.
  rewrite snd_bind, call__run. cbn [snd w_log w_mm].
  split; [rewrite Hlog, <- app_assoc; reflexivity | split; [| split]].
  - apply (keeps_mm_dict_apply d stop_playing_during_call tt).
    intros k v a. unfold stop_playing_during_call. repeat keeps_step.
  - exact Hall.
  - exact Hplaying.
Qed.

(** Only the set-intensity message writes the threshold. *)
Lemma handler_keeps_threshold (m : mm_message) (w : world P) :
  (forall i, m <> MM_MARSHAL_SET_INTENSITY i) ->
  intensity_thres (w_mm (exec (mqueue_handler m) w))
  = intensity_thres (w_mm w).
Proof.
  intros Hm. pose proof (handler_writes m w) as H.
  destruct m; cbn [handler_write] in H;
    try (exfalso; eapply Hm; reflexivity);
    repeat match goal with
           | H : _ \/ _ |- _ => destruct H as [H | H]
           | H : exists _, _ |- _ => destruct H as [? H]
           end;
    try (rewrite H; reflexivity).
  (* call state *)
  destruct (fst (call_state_outcome state (call_state (w_mm w))));
    [destruct H as [cur H] |]; rewrite H; try reflexivity.
  unfold call_state_write; destruct state; try reflexivity;
    cbn; try (destruct (in_call (call_state (w_mm w))); reflexivity);
    destruct (call_state (w_mm w)); reflexivity.
Qed.

(** While no set-intensity message is handled, the threshold stays and no
    sound above it is played. *)
Lemma run_filters (s : sound) (msgs : list mm_message) (w : world P) :
  intensity_thres (w_mm w) < intensity s ->
  (forall i, ~ In (MM_MARSHAL_SET_INTENSITY i) msgs) ->
  exists added,
    w_log (run msgs w) = w_log w ++ added /\
    intensity_thres (w_mm (run msgs w)) = intensity_thres (w_mm w) /\
    ~ In (Play_sound s) added.
Proof.
  revert w. induction msgs as [| m msgs IH]; intros w Hhigh Hno.
  - exists []. cbn [run]. rewrite app_nil_r.
    repeat split. intros [].
  - cbn [run].
    assert (Hm : forall i, m <> MM_MARSHAL_SET_INTENSITY i).
    { intros i ->. apply (Hno i). left. reflexivity. }
    pose proof (handler_keeps_threshold m w Hm) as Hthres.
    destruct (handler_plays m w) as [a1 [E1 Hplay]].
    destruct (IH (exec (mqueue_handler m) w)) as [a2 [E2 [T2 N2]]].
    { rewrite Hthres. exact Hhigh. }
    { intros i Hin. apply (Hno i). right. exact Hin. }
    exists (a1 ++ a2). split; [| split].
    + rewrite E2, E1, app_assoc. reflexivity.
    + rewrite T2. exact Hthres.
    + intros Hin. apply in_app_or in Hin as [Hin | Hin]; [| exact (N2 Hin)].
      destruct (Hplay s Hin) as [name [_ [_ Hcan]]].
      rewrite can_play_sound_intensity in Hcan; [discriminate | exact Hhigh].
Qed.

(** X12. The message that [mediamgr_set_sound_mode] posts makes the threshold
    of the mode the threshold in force, and from then on, over any messages
    up to the next set-intensity message, the threshold stays and the
    handler plays no sound whose intensity is above it. *)
Theorem sound_mode_filters (t : intensity_thresholds) (env : post_env)
    (mode : mediamgr_sound_mode) (s : sound) (w : world P) :
  alloc_ok env = true ->
  sound_mode_intensity t mode < intensity s ->
  exists msg,
    fst (mediamgr_set_sound_mode t env mode) = Some msg /\
    let w1 := exec (mqueue_handler msg) w in
    intensity_thres (w_mm w1) = sound_mode_intensity t mode /\
    w_log w1 = w_log w /\
    forall msgs,
      (forall i, ~ In (MM_MARSHAL_SET_INTENSITY i) msgs) ->
      exists added,
        w_log (run msgs w1) = w_log w1 ++ added /\
        intensity_thres (w_mm (run msgs w1)) = sound_mode_intensity t mode /\
        ~ In (Play_sound s) added.
Proof.
  intros Halloc Hhigh.
  exists (MM_MARSHAL_SET_INTENSITY (sound_mode_intensity t mode)).
  split; [unfold mediamgr_set_sound_mode, post_elem; rewrite Halloc;
          reflexivity |].
  cbv zeta. split; [reflexivity | split; [reflexivity |]].
  intros msgs Hno.
  set (w1 := exec (mqueue_handler
                     (MM_MARSHAL_SET_INTENSITY (sound_mode_intensity t mode)))
                  w).
  apply (run_filters s msgs w1 Hhigh Hno).
Qed.

End Playing.

(* ===================================================================== *)
(** ** Names *)
(* ===================================================================== *)

Lemma strncpy_length (n : nat) (src : string) :
  String.length (strncpy n src) = Nat.min n (String.length src).
Proof.
  revert src. induction n as [| n IH]; intros src; [reflexivity |].
  destruct src as [| c src]; [reflexivity |].
  simpl. rewrite IH. reflexivity.
Qed.

Lemma strncpy_short (n : nat) (src : string) :
  (String.length src <= n)%nat -> strncpy n src = src.
Proof.
  revert src. induction n as [| n IH]; intros src Hlen.
  - destruct src; [reflexivity | simpl in Hlen; lia].
  - destruct src as [| c src]; [reflexivity |].
    simpl in *. rewrite IH by lia. reflexivity.
Qed.

Lemma strncpy_prefix (n : nat) (src : string) :
  String.prefix (strncpy n src) src = true.
Proof.
  revert src. induction n as [| n IH]; intros src.
  - destruct src; reflexivity.
  - destruct src as [| c src]; [reflexivity |].
    simpl. destruct (Ascii.ascii_dec c c); [apply IH | contradiction].
Qed.

Lemma strncpy_agree (n : nat) (a b : string) :
  strncpy n a = strncpy n b <->
  String.substring 0 n a = String.substring 0 n b.
Proof.
  assert (H : forall s, strncpy n s = String.substring 0 n s).
  { induction n as [| n IH]; intros s.
    - destruct s; reflexivity.
    - destruct s as [| c s]; [reflexivity |]. simpl. rewrite IH. reflexivity. }
  rewrite !H. reflexivity.
Qed.

(** X13. Whatever the posting call (play, pause, stop, register, unregister),
    a message reaches the queue exactly when an element could be allocated,
    and the media name it carries is the given name cut after its 127th
    character: at most 127 characters long, a prefix of the given name, and
    the given name itself when that has at most 127 characters. The call
    logs an error exactly when nothing was pushed or the push failed. *)
Theorem posted_media_name (env : post_env) (media_name : string)
    (obj : Z) (mix inc : bool) (intens prio : Z) (icm : bool) :
  Forall (fun r : posted =>
            snd r = negb (alloc_ok env && (push_err env =? 0)) /\
            match fst r with
            | None => alloc_ok env = false
            | Some m =>
                alloc_ok env = true /\
                message_name m = Some (strncpy MEDIA_NAME_MAX media_name)
            end)
         [mediamgr_play_media env media_name;
          mediamgr_pause_media env media_name;
          mediamgr_stop_media env media_name;
          mediamgr_register_media env media_name obj mix inc intens prio icm;
          mediamgr_unregister_media env media_name] /\
  (String.length (strncpy MEDIA_NAME_MAX media_name) <= 127)%nat /\
  String.prefix (strncpy MEDIA_NAME_MAX media_name) media_name = true /\
  ((String.length media_name <= 127)%nat ->
   strncpy MEDIA_NAME_MAX media_name = media_name).
Proof.
  split; [| split; [| split]].
  - unfold mediamgr_play_media, mediamgr_pause_media, mediamgr_stop_media,
      mediamgr_register_media, mediamgr_unregister_media,
      mediamgr_post_media_command, post_elem.
    destruct (alloc_ok env); cbn; repeat constructor.
  - rewrite strncpy_length. unfold MEDIA_NAME_MAX. lia.
  - apply strncpy_prefix.
  - apply strncpy_short.
Qed.

(** X14. [MMroute2Str] names the routes apart: two routes with the same name
    are the same route, and only the unknown route is named "Unknown". *)
Theorem MMroute2Str_injective (a b : mediamgr_auplay) :
  (MMroute2Str a = MMroute2Str b -> a = b) /\
  (MMroute2Str a = "Unknown"%string <-> a = MEDIAMGR_AUPLAY_UNKNOWN).
Proof.
  split.
  - destruct a, b; cbn; intros H; try reflexivity; discriminate.
  - destruct a; cbn; split; intros H; try reflexivity; discriminate.
Qed.

(* ===================================================================== *)
(** ** The interface of the fake audio device *)
(* ===================================================================== *)

Section DeviceFacts.

Import FakeDevice.

(** Uses the parts of the invariant whose premise the flags decide. *)
Ltac flags_decide :=
  repeat match goal with
         | H : true = true -> _ |- _ => specialize (H eq_refl)
         | H : false = false -> _ |- _ => specialize (H eq_refl)
         | H : true = false -> _ |- _ => clear H
         | H : false = true -> _ |- _ => clear H
         end.

Ltac inv_close :=
  repeat split; intros; try discriminate; try lia; try assumption;
  try reflexivity.

Lemma inv_StartRecording (t : Z) (d : device) :
  device_inv d -> device_inv (StartRecording t d).
Proof.
  destruct d as [cb rec play ri pi rt pt real log].
  unfold device_inv, StartRecording. cbn.
  intros (Hr0 & Hp0 & Hal).
  destruct rec, play; cbn in *; flags_decide;
    unfold unjoined in *; rewrite ?fold_left_app, ?Hal; cbn; inv_close.
Qed.

Lemma inv_StartPlayout (t : Z) (d : device) :
  device_inv d -> device_inv (StartPlayout t d).
Proof.
  destruct d as [cb rec play ri pi rt pt real log].
  unfold device_inv, StartPlayout. cbn.
  intros (Hr0 & Hp0 & Hal).
  destruct rec, play; cbn in *; flags_decide;
    unfold unjoined in *; rewrite ?fold_left_app, ?Hal; cbn; inv_close.
Qed.

Lemma inv_StopRecording (d : device) :
  device_inv d -> device_inv (StopRecording d).
Proof.
  destruct d as [cb rec play ri pi rt pt real log].
  unfold device_inv, StopRecording. cbn.
  intros (Hr0 & Hp0 & Hal).
  destruct rec, play; cbn in *; flags_decide;
    destruct (Z.eqb_spec rt 0) as [E | E]; cbn;
    unfold unjoined in *; rewrite ?fold_left_app, ?Hal; cbn;
    rewrite ?Z.eqb_refl; cbn;
    try (destruct (Z.eqb_spec rt 0); [contradiction |]); cbn; inv_close.
Qed.

Lemma inv_StopPlayout (d : device) :
  device_inv d -> device_inv (StopPlayout d).
Proof.
  destruct d as [cb rec play ri pi rt pt real log].
  unfold device_inv, StopPlayout. cbn.
  intros (Hr0 & Hp0 & Hal).
  destruct rec, play; cbn in *; flags_decide;
    destruct (Z.eqb_spec pt 0) as [E | E]; cbn;
    unfold unjoined in *; rewrite ?fold_left_app, ?Hal; cbn;
    rewrite ?Z.eqb_refl; cbn;
    try (destruct (Z.eqb_spec pt 0); [contradiction |]); cbn; inv_close.
Qed.

Lemma inv_set_audioCallback (d : device) (cb : Z) :
  device_inv d -> device_inv (set_audioCallback d cb).
Proof. destruct d. unfold device_inv. cbn. tauto. Qed.

Lemma inv_RegisterAudioCallback (d : device) (cb pt rt : Z) :
  device_inv d -> device_inv (RegisterAudioCallback cb pt rt d).
Proof.
  intros H. unfold RegisterAudioCallback.
  assert (H1 : device_inv (set_audioCallback (StopRecording (StopPlayout d)) cb))
    by (apply inv_set_audioCallback, inv_StopRecording, inv_StopPlayout, H).
  destruct (is_playing_ d), (is_recording_ d);
    repeat first [apply inv_StartRecording | apply inv_StartPlayout];
    exact H1.
Qed.

Lemma inv_step (d : device) (c : device_call) :
  device_inv d -> device_inv (device_step d c).
Proof.
  intros H. destruct c; cbn [device_step].
  - apply inv_RegisterAudioCallback, H.
  - destruct d. unfold device_inv in *. cbn in *. tauto.
  - destruct d. unfold device_inv in *. cbn in *. tauto.
  - apply inv_StartPlayout, H.
  - apply inv_StartRecording, H.
  - apply inv_StopRecording, H.
  - apply inv_StopPlayout, H.
  - apply inv_StopPlayout, inv_StopRecording, H.
Qed.

Lemma inv_run (calls : list device_call) (d : device) :
  device_inv d -> device_inv (device_run calls d).
Proof.
  revert d. induction calls as [| c calls IH]; intros d H; [exact H |].
  cbn. apply IH, inv_step, H.
Qed.

Lemma inv_new (realtime : bool) : device_inv (fake_audiodevice realtime).
Proof. unfold device_inv. cbn. repeat split. Qed.

(** Creates that leave no zero handle keep the handles of set flags apart
    from zero. *)
Lemma held_step (d : device) (c : device_call) :
  forallb (fun t => negb (t =? 0)) (create_handles c) = true ->
  handles_held d -> handles_held (device_step d c).
Proof.
  destruct d as [cb rec play ri pi rt pt real log].
  unfold handles_held. intros Hc [Hr Hp].
  destruct c as [cb' t1 t2 | | | t1 | t1 | | |]; cbn in Hc, Hr, Hp;
    rewrite ?andb_true_r in Hc;
    try (apply andb_true_iff in Hc as [Hc1 Hc2]);
    repeat match goal with
           | H : negb (?t =? 0) = true |- _ =>
               apply negb_true_iff, Z.eqb_neq in H
           end;
    destruct rec, play; flags_decide;
    try (destruct rt as [| rt | rt]; try contradiction);
    try (destruct pt as [| pt | pt]; try contradiction);
    cbn; split; intros; try discriminate; try assumption.
Qed.

Lemma held_run (calls : list device_call) (d : device) :
  handles_nonzero calls = true ->
  handles_held d -> handles_held (device_run calls d).
Proof.
  revert d. induction calls as [| c calls IH]; intros d Hc H; [exact H |].
  cbn in Hc. apply andb_true_iff in Hc as [Hc1 Hc2].
  cbn. apply IH; [exact Hc2 |]. apply held_step; assumption.
Qed.

(** X15. After any calls of its interface, whatever the creates leave in the
    handles, a device that was just constructed reports recording exactly
    while a create of a record thread is not joined, and playing exactly
    while a create of a playout thread is not joined, and the handles it
    holds are the ones those creates left; it made no create of a kind
    while one of that kind was not joined, and joined only the handle the
    create of that kind left, and only a non-zero one. A handle is zero
    while the device does not report its kind. *)
Theorem device_threads (realtime : bool) (calls : list device_call) :
  let d := device_run calls (fake_audiodevice realtime) in
  unjoined (thread_log d)
    = Some (if Recording d then Some (rec_tid_ d) else None,
            if Playing d then Some (play_tid_ d) else None) /\
  (Recording d = false -> rec_tid_ d = 0) /\
  (Playing d = false -> play_tid_ d = 0).
Proof.
  cbv zeta.
  pose proof (inv_run calls _ (inv_new realtime)) as H.
  destruct H as (Hr0 & Hp0 & Hal).
  unfold Recording, Playing.
  split; [exact Hal | split; assumption].
Qed.

(** X16. Registering an audio callback, on any device: the callback is set,
    what the device reports as playing and recording is kept, and both
    "initialized" flags are cleared. A thread is joined exactly when its
    flag is set and its handle is not zero, the playout thread first; every
    join comes before every create; and a create is made exactly for each
    kind that was joined, the playout thread first, its handle taking what
    the create leaves. With a flag set and a zero handle nothing is joined
    or created for that kind. *)
Theorem register_callback_restarts_threads (d : device)
    (cb play_tid rec_tid : Z) :
  let d' := RegisterAudioCallback cb play_tid rec_tid d in
  let joins_play := Playing d && negb (play_tid_ d =? 0) in
  let joins_rec := Recording d && negb (rec_tid_ d =? 0) in
  audioCallback_ d' = cb /\
  Playing d' = Playing d /\
  Recording d' = Recording d /\
  PlayoutIsInitialized d' = false /\
  RecordingIsInitialized d' = false /\
  thread_log d' =
    thread_log d
    ++ (if joins_play then [Join_play_thread (play_tid_ d)] else [])
    ++ (if joins_rec then [Join_rec_thread (rec_tid_ d)] else [])
    ++ (if joins_play then [Create_play_thread play_tid] else [])
    ++ (if joins_rec then [Create_rec_thread rec_tid] else []) /\
  play_tid_ d' = (if joins_play then play_tid else play_tid_ d) /\
  rec_tid_ d' = (if joins_rec then rec_tid else rec_tid_ d).
Proof.
  cbv zeta.
  destruct d as [cb0 rec play ri pi rt pt real log].
  destruct rec, play, rt as [| rt | rt], pt as [| pt | pt];
    cbn; rewrite <- ?app_assoc, ?app_nil_r; cbn;
    repeat split; reflexivity.
Qed.

(** X17. Starting twice is starting once, whatever the creates leave, and
    stopping twice is stopping once, for recording, for playout and for
    [Terminate]. A terminated device is initialized for neither direction,
    and it still reports a direction exactly when its flag was set with a
    zero handle: nothing is joined then and the flag stays. When no create
    of the calls made on a device since its construction left a zero
    handle, the terminated device reports neither recording nor playing and
    every create is joined. *)
Theorem start_stop_laws (realtime : bool) (calls : list device_call)
    (d0 : device) (t t' : Z) :
  (StartRecording t' (StartRecording t d0) = StartRecording t d0 /\
   StartPlayout t' (StartPlayout t d0) = StartPlayout t d0 /\
   StopRecording (StopRecording d0) = StopRecording d0 /\
   StopPlayout (StopPlayout d0) = StopPlayout d0 /\
   Terminate (Terminate d0) = Terminate d0) /\
  (Recording (Terminate d0) = is_recording_ d0 && (rec_tid_ d0 =? 0) /\
   Playing (Terminate d0) = is_playing_ d0 && (play_tid_ d0 =? 0) /\
   RecordingIsInitialized (Terminate d0) = false /\
   PlayoutIsInitialized (Terminate d0) = false) /\
  (handles_nonzero calls = true ->
   let d := Terminate (device_run calls (fake_audiodevice realtime)) in
   Recording d = false /\ Playing d = false /\
   unjoined (thread_log d) = Some (None, None)).
Proof.
  split; [| split].
  - destruct d0 as [cb rec play ri pi rt pt real log].
    destruct rec, play, rt as [| rt | rt], pt as [| pt | pt];
      repeat split; reflexivity.
  - destruct d0 as [cb rec play ri pi rt pt real log].
    destruct rec, play, rt as [| rt | rt], pt as [| pt | pt];
      repeat split; reflexivity.
  - intros Hnz. cbv zeta.
    pose proof (inv_run calls _ (inv_new realtime)) as H.
    assert (Hheld : handles_held (device_run calls (fake_audiodevice realtime))).
    { apply held_run; [exact Hnz |]. split; discriminate. }
    generalize dependent (device_run calls (fake_audiodevice realtime)).
    intros d H Hheld.
    pose proof (inv_StopPlayout _ (inv_StopRecording _ H)) as H'.
    fold (Terminate d) in H'.
    destruct H' as (_ & _ & Hal). rewrite Hal. clear Hal H.
    destruct d as [cb rec play ri pi rt pt real log].
    destruct Hheld as [Hr Hp]. cbn in Hr, Hp.
    destruct rec, play; flags_decide;
      try (destruct rt as [| rt | rt]; try contradiction);
      try (destruct pt as [| pt | pt]; try contradiction);
      cbn; repeat split; reflexivity.
Qed.

End DeviceFacts.

(* ===================================================================== *)
(** ** The deadlines and sleep requests of the loops *)
(* ===================================================================== *)

Section LoopFacts.

Import FakeAudio.

Variable FRAME_LEN_MS : Z.
Hypothesis frame_range : 0 <= FRAME_LEN_MS <= 1000.

Lemma io_iteration_valid (tr : io_call) (dev : fake_audiodevice)
    (now next : timeval) :
  is_transport tr = true -> normalized now -> normalized next ->
  normalized (fst (io_iteration FRAME_LEN_MS tr dev now next)) /\
  Forall (fun c => match c with
                   | Nanosleep s ns => s = 0 /\ 0 <= ns < 1000000000
                   | _ => True
                   end)
         (snd (io_iteration FRAME_LEN_MS tr dev now next)).
Proof.
  intros Htr Hnow Hnext. unfold io_iteration. cbn [fst snd].
  assert (Hn' : normalized (timeradd next (delta FRAME_LEN_MS))).
  { apply timeradd_normalized; [exact Hnext |]. unfold delta. simpl. lia. }
  split; [exact Hn' |].
  pose proof (timersub_normalized _ now Hn' Hnow) as Hs.
  unfold normalized in Hs.
  repeat (apply Forall_app; split).
  - destruct (audioCallback_ dev); repeat constructor.
    destruct tr; try discriminate; exact Logic.I.
  - destruct (_ <? 0); repeat constructor.
  - destruct (realtime_ dev); repeat constructor;
      destruct (_ <? 0); cbn; lia.
Qed.

Lemma io_loop_valid (tr : io_call) (dev : fake_audiodevice)
    (obs : list (bool * timeval)) (start : timeval) :
  is_transport tr = true -> normalized start ->
  Forall (fun o => normalized (snd o)) obs ->
  normalized (fst (io_loop FRAME_LEN_MS tr dev obs start)) /\
  Forall (fun c => match c with
                   | Nanosleep s ns => s = 0 /\ 0 <= ns < 1000000000
                   | _ => True
                   end)
         (snd (io_loop FRAME_LEN_MS tr dev obs start)).
Proof.
  intros Htr Hstart Hobs. revert start Hstart.
  induction Hobs as [| [running now] obs Hnow _ IH]; intros start Hstart.
  - split; [exact Hstart | constructor].
  - cbn [io_loop]. destruct running; [| split; [exact Hstart | constructor]].
    destruct (io_iteration_valid tr dev now start Htr Hnow Hstart) as [Hn Hc].
    destruct (io_iteration FRAME_LEN_MS tr dev now start) as [next calls].
    destruct (IH next Hn) as [Hn' Hc'].
    destruct (io_loop FRAME_LEN_MS tr dev obs next) as [final calls'].
    cbn [fst snd] in *. split; [exact Hn' |].
    apply Forall_app. split; assumption.
Qed.

(** X18. For a frame of at most a second, a start time and clock readings
    with microseconds in [0, 1000000): through any run of the record loop or
    of the playout loop the deadline keeps its microseconds in that range,
    and every [nanosleep] is asked for zero seconds and a number of
    nanoseconds in [0, 1000000000), a valid request whatever the clock
    does. *)
Theorem loops_request_valid_sleeps (dev : fake_audiodevice) (start : timeval)
    (obs : list (bool * timeval)) :
  normalized start ->
  Forall (fun o => normalized (snd o)) obs ->
  let valid := fun c => match c with
                        | Nanosleep s ns => s = 0 /\ 0 <= ns < 1000000000
                        | _ => True
                        end in
  (normalized (fst (record_thread FRAME_LEN_MS dev start obs)) /\
   Forall valid (snd (record_thread FRAME_LEN_MS dev start obs))) /\
  (normalized (fst (playout_thread FRAME_LEN_MS dev start obs)) /\
   Forall valid (snd (playout_thread FRAME_LEN_MS dev start obs))).
Proof.
  intros Hstart Hobs. cbv zeta. unfold record_thread, playout_thread.
  split; apply io_loop_valid; auto.
Qed.

(** X19. In a turn of either loop, for a frame of at most a second and
    normalized times, the "not processing data fast enough" warning is
    logged exactly when the clock has passed the new deadline, and then the
    sleep request, if there is one, is for no time at all. *)
Theorem late_turn_warns (tr : io_call) (dev : fake_audiodevice)
    (now next : timeval) :
  is_transport tr = true -> normalized now -> normalized next ->
  let calls := snd (io_iteration FRAME_LEN_MS tr dev now next) in
  let late := to_usec next + FRAME_LEN_MS * 1000 < to_usec now in
  (In Warning_too_slow calls <-> late) /\
  (late -> forall s ns, In (Nanosleep s ns) calls -> s = 0 /\ ns = 0).
Proof.
  intros Htr Hnow Hnext. cbv zeta. unfold io_iteration. cbn [snd].
  set (next' := timeradd next (delta FRAME_LEN_MS)).
  assert (Hn' : normalized next').
  { apply timeradd_normalized; [exact Hnext |]. unfold delta. simpl. lia. }
  assert (Hu' : to_usec next' = to_usec next + FRAME_LEN_MS * 1000).
  { unfold next'. rewrite timeradd_to_usec. unfold delta, to_usec. simpl. lia. }
  pose proof (timersub_normalized next' now Hn' Hnow) as Hs.
  pose proof (timersub_to_usec next' now) as Hd.
  set (sleep_time := timersub next' now) in *.
  rewrite <- Hu'. unfold normalized in Hs. unfold to_usec at 1 in Hd.
  destruct (Z.ltb_spec (tv_sec sleep_time) 0) as [Hlate | Hok].
  - assert (Hl : to_usec next' < to_usec now) by lia.
    split.
    + split; [intros _; exact Hl |]. intros _.
      apply in_or_app. right. apply in_or_app. left. left. reflexivity.
    + intros _ s ns Hin.
      apply in_app_or in Hin. destruct Hin as [Hin | Hin].
      { destruct (audioCallback_ dev); [| contradiction].
        destruct Hin as [Hin | []]. subst tr. discriminate. }
      apply in_app_or in Hin. destruct Hin as [Hin | Hin].
      { destruct Hin as [Hin | []]. discriminate. }
      destruct (realtime_ dev); [| contradiction].
      destruct Hin as [Hin | []]. injection Hin as <- <-. split; reflexivity.
  - assert (Hl : ~ to_usec next' < to_usec now) by lia.
    split; [| intros Hc; contradiction].
    split; [| intros Hc; contradiction].
    intros Hin. exfalso.
    apply in_app_or in Hin. destruct Hin as [Hin | Hin].
    { destruct (audioCallback_ dev); [| contradiction].
      destruct Hin as [Hin | []]. subst tr. discriminate. }
    apply in_app_or in Hin. destruct Hin as [Hin | Hin]; [contradiction |].
    destruct (realtime_ dev); [| contradiction].
    destruct Hin as [Hin | []]. discriminate.
Qed.

End LoopFacts.

(* ===================================================================== *)
(** ** The fields of the router that are only written *)
(* ===================================================================== *)

Section SavedRoute.

Context {P : Type} `{PF : mm_platform P}.

Lemma route_switch_cur_route (cs : mediamgr_state) (r : mm_route_state_machine)
    (cur : mediamgr_auplay) (e : mm_route_update_event) :
  cur_route (fst (route_switch cs r cur e)) = cur_route r.
Proof. destruct e; cbn; try reflexivity. destruct cs; reflexivity. Qed.

(** X20. The route saved at a call start is never read back: the wanted
    route of every event, and the three flags of the router it leaves, are
    the same whatever [route_before_call] and the [cur_route] member hold.
    [route_before_call] is written by the two call starts only, with the
    route the platform is on, and the [cur_route] member is never written:
    from [mediamgr_alloc] it stays unknown through every run. *)
Theorem saved_route_is_never_read (cs : mediamgr_state)
    (r : mm_route_state_machine) (cur a b : mediamgr_auplay)
    (e : mm_route_update_event) (thres : Z) (p : P) (msgs : list mm_message) :
  let r' := mkRouter (prefer_loudspeaker r) (bt_device_is_connected r)
                     (wired_hs_is_connected r) a b in
  let out := route_switch cs r cur e in
  let out' := route_switch cs r' cur e in
  (snd out' = snd out /\
   prefer_loudspeaker (fst out') = prefer_loudspeaker (fst out) /\
   bt_device_is_connected (fst out') = bt_device_is_connected (fst out) /\
   wired_hs_is_connected (fst out') = wired_hs_is_connected (fst out)) /\
  route_before_call (fst out)
    = match e with
      | MM_CALL_START | MM_VIDEO_CALL_START => cur
      | _ => route_before_call r
      end /\
  cur_route (router (w_mm (run msgs (init_world thres p))))
    = MEDIAMGR_AUPLAY_UNKNOWN.
Proof.
  cbv zeta. split; [| split].
  - destruct e; cbn; try (repeat split; reflexivity);
      destruct cs; repeat split; reflexivity.
  - destruct e; cbn; try reflexivity; destruct cs; reflexivity.
  - set (I := fun mm => cur_route (router mm) = MEDIAMGR_AUPLAY_UNKNOWN).
    assert (Hroute : forall e0,
              appends_under I (fun _ => True) (update_route (P:=P) e0)).
    { intros e0 v Hv. split.
      - apply update_route_appends; auto.
      - fold (exec (update_route e0) v). rewrite update_route_write.
        unfold I, route_write in *. cbn.
        rewrite route_switch_cur_route. exact Hv. }
    assert (Hcs : forall mm st, I mm -> I (call_state_write st mm)).
    { intros mm st Hmm. unfold I, call_state_write in *.
      destruct st; cbn; try exact Hmm.
      - destruct (in_call (call_state mm)); exact Hmm.
      - destruct (call_state mm); exact Hmm. }
    apply (run_under I (fun _ => True) (fun _ _ _ => Logic.I) Hroute Hcs
             (fun _ _ H => H) (fun _ _ H => H) msgs (init_world thres p)
             eq_refl).
Qed.

End SavedRoute.

(* ===================================================================== *)
(** ** Runs of the added facts on the simulated platform *)
(* ===================================================================== *)

Lemma play_only_named_and_accepted_witness :
  let w := run register_sounds (sim_world sim_ideal) in
  exists name,
    MM_MARSHAL_PLAY_MEDIA "notif" = MM_MARSHAL_PLAY_MEDIA name /\
    dict_lookup (sounds (w_mm w)) name = Some notif /\
    fst (mediamgr_can_play_sound (sounds (w_mm w)) notif w) = true.
Proof.
  cbv zeta. set (w := run register_sounds (sim_world sim_ideal)).
  destruct (play_only_named_and_accepted (PF:=sim_mm_platform)
              (MM_MARSHAL_PLAY_MEDIA "notif") w) as [added [E Hplay]].
  apply Hplay.
  assert (Hc : w_log (exec (mqueue_handler (MM_MARSHAL_PLAY_MEDIA "notif")) w)
               = w_log w ++ [Play_sound notif]) by (vm_compute; reflexivity).
  rewrite Hc in E. apply app_inv_head in E. rewrite <- E.
  left. reflexivity.
Defined.

Lemma no_outside_sound_in_call_witness :
  let w := run (register_sounds
                ++ [MM_MARSHAL_CALL_STATE MEDIAMGR_STATE_INCALL])
               (sim_world sim_ideal) in
  (in_call (call_state (w_mm w)) = true /\ incall notif = false) /\
  exists added,
    w_log (exec (mqueue_handler (MM_MARSHAL_PLAY_MEDIA "notif")) w)
      = w_log w ++ added /\
    ~ In (Play_sound notif) added.
Proof.
  cbv zeta.
  set (w := run (register_sounds
                 ++ [MM_MARSHAL_CALL_STATE MEDIAMGR_STATE_INCALL])
                (sim_world sim_ideal)).
  assert (H : in_call (call_state (w_mm w)) = true)
    by (vm_compute; reflexivity).
  split; [split; [exact H | reflexivity] |].
  apply (no_outside_sound_in_call (PF:=sim_mm_platform) notif w H eq_refl).
Defined.

Lemma enter_call_stops_outside_sounds_witness :
  let w := run (register_sounds ++ [MM_MARSHAL_PLAY_MEDIA "notif"])
               (sim_world sim_ideal) in
  exists stops,
    w_log (exec (mediamgr_enter_call (sounds (w_mm w))) w)
      = w_log w ++ stops ++ [Enter_call] /\
    In (Stop_sound notif) stops.
Proof.
  cbv zeta.
  set (w := run (register_sounds ++ [MM_MARSHAL_PLAY_MEDIA "notif"])
                (sim_world sim_ideal)).
  destruct (enter_call_stops_outside_sounds (PF:=sim_mm_platform)
              (sounds (w_mm w)) w sim_stop_frame)
    as (stops & Hlog & _ & _ & Hplaying).
  exists stops. split; [exact Hlog |].
  apply Hplaying; [vm_compute; tauto | reflexivity | vm_compute; reflexivity].
Defined.

Lemma call_state_never_resume_witness :
  let msgs := [MM_MARSHAL_CALL_STATE MEDIAMGR_STATE_INVIDEOCALL;
               MM_MARSHAL_CALL_STATE MEDIAMGR_STATE_HOLD] in
  let w := run msgs (init_world 100 sim_ideal) in
  call_state (w_mm w) = MEDIAMGR_STATE_HOLD /\
  in_call (prev_call_state (w_mm w)) = true.
Proof.
  cbv zeta.
  assert (H : call_state
                (w_mm (run [MM_MARSHAL_CALL_STATE MEDIAMGR_STATE_INVIDEOCALL;
                            MM_MARSHAL_CALL_STATE MEDIAMGR_STATE_HOLD]
                           (init_world 100 sim_ideal)))
              = MEDIAMGR_STATE_HOLD) by (vm_compute; reflexivity).
  split; [exact H |].
  apply (proj2 (proj2 (proj2
           (call_state_never_resume (PF:=sim_mm_platform) 100 sim_ideal
              [MM_MARSHAL_CALL_STATE MEDIAMGR_STATE_INVIDEOCALL;
               MM_MARSHAL_CALL_STATE MEDIAMGR_STATE_HOLD]))) H).
Defined.

Lemma hold_resume_round_trip_witness :
  let w := run [MM_MARSHAL_CALL_STATE MEDIAMGR_STATE_INVIDEOCALL]
               (sim_world sim_ideal) in
  let w2 := run [MM_MARSHAL_CALL_STATE MEDIAMGR_STATE_HOLD;
                 MM_MARSHAL_CALL_STATE MEDIAMGR_STATE_RESUME] w in
  in_call (call_state (w_mm w)) = true /\
  call_state (w_mm w2) = MEDIAMGR_STATE_INVIDEOCALL /\
  last_wanted (w_log w2) = Some MEDIAMGR_AUPLAY_EARPIECE.
Proof.
  cbv zeta.
  set (w := run [MM_MARSHAL_CALL_STATE MEDIAMGR_STATE_INVIDEOCALL]
                (sim_world sim_ideal)).
  assert (H : in_call (call_state (w_mm w)) = true)
    by (vm_compute; reflexivity).
  destruct (hold_resume_round_trip (PF:=sim_mm_platform) w H)
    as (H1 & _ & _ & _ & _ & H6).
  split; [exact H | split].
  - etransitivity; [exact H1 | vm_compute; reflexivity].
  - etransitivity; [exact H6 | vm_compute; reflexivity].
Defined.

Lemma sound_mode_filters_witness :
  let t := mkThresholds 100 50 0 in
  let w := run register_sounds (sim_world sim_ideal) in
  let later := [MM_MARSHAL_PLAY_MEDIA "ping";
                MM_MARSHAL_CALL_STATE MEDIAMGR_STATE_INCALL;
                MM_MARSHAL_PLAY_MEDIA "ping"] in
  exists msg,
    fst (mediamgr_set_sound_mode t (mkPostEnv true 0) MEDIAMGR_SOUND_MODE_NONE)
      = Some msg /\
    exists added,
      w_log (run later (exec (mqueue_handler msg) w))
        = w_log (exec (mqueue_handler msg) w) ++ added /\
      intensity_thres (w_mm (run later (exec (mqueue_handler msg) w))) = 0 /\
      ~ In (Play_sound ping) added.
Proof.
  cbv zeta.
  destruct (sound_mode_filters (PF:=sim_mm_platform) (mkThresholds 100 50 0)
              (mkPostEnv true 0) MEDIAMGR_SOUND_MODE_NONE ping
              (run register_sounds (sim_world sim_ideal)) eq_refl eq_refl)
    as (msg & Hmsg & _ & _ & Hlater).
  exists msg. split; [exact Hmsg |].
  apply Hlater.
  intros i [H | [H | [H | []]]]; discriminate H.
Defined.

Lemma posted_media_name_witness :
  strncpy MEDIA_NAME_MAX "ringtone" = "ringtone"%string.
Proof.
  apply (proj2 (proj2 (proj2
           (posted_media_name (mkPostEnv true 0) "ringtone" 1 false true 0 1
              true)))).
  simpl. lia.
Defined.

Lemma MMroute2Str_injective_witness :
  MEDIAMGR_AUPLAY_LINEOUT = MEDIAMGR_AUPLAY_LINEOUT /\
  MEDIAMGR_AUPLAY_UNKNOWN = MEDIAMGR_AUPLAY_UNKNOWN.
Proof.
  split.
  - apply (proj1 (MMroute2Str_injective MEDIAMGR_AUPLAY_LINEOUT
                    MEDIAMGR_AUPLAY_LINEOUT)). reflexivity.
  - apply (proj2 (MMroute2Str_injective MEDIAMGR_AUPLAY_UNKNOWN
                    MEDIAMGR_AUPLAY_UNKNOWN)). reflexivity.
Defined.

Lemma start_stop_laws_witness :
  let calls := [FakeDevice.Call_StartRecording 11;
                FakeDevice.Call_StartPlayout 12;
                FakeDevice.Call_RegisterAudioCallback 7 13 11] in
  let d := FakeDevice.Terminate
             (FakeDevice.device_run calls (FakeDevice.fake_audiodevice true)) in
  FakeDevice.handles_nonzero calls = true /\
  FakeDevice.Recording d = false /\ FakeDevice.Playing d = false /\
  FakeDevice.unjoined (FakeDevice.thread_log d) = Some (None, None).
Proof.
  cbv zeta. split; [reflexivity |].
  apply (proj2 (proj2
           (start_stop_laws true
              [FakeDevice.Call_StartRecording 11;
               FakeDevice.Call_StartPlayout 12;
               FakeDevice.Call_RegisterAudioCallback 7 13 11]
              (FakeDevice.fake_audiodevice true) 0 0))).
  reflexivity.
Defined.

(** A device registers a callback while it records and plays: both threads
    are joined, then both are created again. *)
Example register_callback_thread_log :
  FakeDevice.thread_log
    (FakeDevice.device_run
       [FakeDevice.Call_InitRecording; FakeDevice.Call_StartRecording 1;
        FakeDevice.Call_StartPlayout 2;
        FakeDevice.Call_RegisterAudioCallback 7 3 4]
       (FakeDevice.fake_audiodevice false))
  = [FakeDevice.Create_rec_thread 1; FakeDevice.Create_play_thread 2;
     FakeDevice.Join_play_thread 2; FakeDevice.Join_rec_thread 1;
     FakeDevice.Create_play_thread 3; FakeDevice.Create_rec_thread 4].
Proof. reflexivity. Qed.

(** A create that leaves a zero handle: the device reports recording, no
    stop joins anything, no start asks for a thread again, and the
    terminated device still reports recording. *)
Example zero_handle_stays_recording :
  let d := FakeDevice.device_run
             [FakeDevice.Call_StartRecording 0; FakeDevice.Call_StopRecording;
              FakeDevice.Call_StartRecording 5; FakeDevice.Call_Terminate]
             (FakeDevice.fake_audiodevice true) in
  FakeDevice.Recording d = true /\
  FakeDevice.thread_log d = [FakeDevice.Create_rec_thread 0].
Proof. split; reflexivity. Qed.

Lemma loops_request_valid_sleeps_witness :
  let dev := FakeAudio.mkDevice true true in
  let start := FakeAudio.mkTimeval 5 999000 in
  let obs := [(true, FakeAudio.mkTimeval 5 999500);
              (true, FakeAudio.mkTimeval 8 5000)] in
  FakeAudio.normalized (fst (FakeAudio.record_thread 10 dev start obs)).
Proof.
  cbv zeta.
  apply (loops_request_valid_sleeps 10 ltac:(lia)
           (FakeAudio.mkDevice true true) (FakeAudio.mkTimeval 5 999000)
           [(true, FakeAudio.mkTimeval 5 999500);
            (true, FakeAudio.mkTimeval 8 5000)]).
  - unfold FakeAudio.normalized. simpl. lia.
  - repeat constructor; unfold FakeAudio.normalized; simpl; lia.
Defined.

Lemma late_turn_warns_witness :
  let now := FakeAudio.mkTimeval 100 20000 in
  let next := FakeAudio.mkTimeval 100 0 in
  In FakeAudio.Warning_too_slow
     (snd (FakeAudio.io_iteration 10 FakeAudio.NeedMorePlayData
             (FakeAudio.mkDevice true true) now next)).
Proof.
  cbv zeta.
  apply (proj1 (late_turn_warns 10 ltac:(lia) FakeAudio.NeedMorePlayData
                  (FakeAudio.mkDevice true true)
                  (FakeAudio.mkTimeval 100 20000) (FakeAudio.mkTimeval 100 0)
                  eq_refl
                  ltac:(unfold FakeAudio.normalized; simpl; lia)
                  ltac:(unfold FakeAudio.normalized; simpl; lia))).
  unfold FakeAudio.to_usec. simpl. lia.
Defined.
